(** * MetaVibe: the generation orchestration of [src/App.tsx] and
      [src/services/geminiService.ts]

    The component state of [App], its event handlers and the service
    functions they await are embedded as computations in a small
    promise monad: a computation reads the replies of the outside world
    (browser, AI Studio bridge, Gemini SDK) from an oracle, appends each
    request it makes to a call log, updates the React state through the
    setters of the component, and either resolves, rejects or never
    settles. *)

From Stdlib Require Import String Ascii List ZArith Bool Arith Lia.
Import ListNotations.
Local Open Scope string_scope.
Local Open Scope list_scope.

Set Implicit Arguments.

(* ===================================================================== *)
(** ** Data model ([src/types.ts]) *)
(* ===================================================================== *)

Module Types.

Record Colors := mkColors {
  primary : string;
  secondary : string;
  accent : string
}.

(** JavaScript numbers are only carried around by the orchestration;
    they are kept as integers. *)
Record PersonalityVector := mkPersonality {
  traits : list string;
  energy : Z;
  mood : string;
  colors : Colors
}.

Record MusicDescription := mkMusic {
  genre : string;
  bpm : Z;
  instruments : list string;
  vibe : string
}.

Record GeneratedAssets := mkAssets {
  artPrompt : string;
  artBase64 : option string;
  storyText : string;
  musicDescription : MusicDescription;
  videoUri : option string;
  audioBase64 : option string
}.

Inductive AppState :=
| IDLE | RECORDING | ANALYZING | GENERATING_ASSETS | SHOWCASE | ERROR.

Record ArtDirection := mkArt { art_prompt : string; art_style : string }.
Record Story := mkStory { narrative : string }.
Record VideoDirection := mkVideoDirection { video_prompt : string }.
Record Tts := mkTts { voice_name : string; speaking_rate : Z; pitch : string }.

Record AnalyzerResponse := mkAnalysis {
  personality : PersonalityVector;
  music : MusicDescription;
  art : ArtDirection;
  story : Story;
  video : VideoDirection;
  tts : Tts
}.

End Types.
Export Types.

(* ===================================================================== *)
(** ** JavaScript values the code inspects *)
(* ===================================================================== *)

(** A property that may be missing, a string or a number. *)
Inductive JsVal :=
| JUndefined
| JString (s : string)
| JNumber (n : Z).

(** [a === b] on such values. *)
Definition strict_eq (a b : JsVal) : bool :=
  match a, b with
  | JUndefined, JUndefined => true
  | JString s, JString t => String.eqb s t
  | JNumber n, JNumber m => Z.eqb n m
  | _, _ => false
  end.

(** What [JSON.stringify(e).includes(...)] has to work with: the text
    of the serialisation, or a [TypeError] -- when [e] holds a cyclic
    reference or a BigInt, [JSON.stringify] throws, and when [e]
    serialises to [undefined], the call of [includes] does. *)
Inductive Stringified :=
| JsonText (s : string)
| JsonThrows (why : string).     (* the message of the [TypeError] *)

(** A thrown value, as far as the handlers look at it.  It is an object,
    as the SDK and [new Error] throw them: [e.message] is absent or a
    string, [e.status] and [e.code] are absent, strings or numbers.
    (A thrown [null] or [undefined], and a message that is neither
    absent nor a string, are not modelled: the handlers that read
    [e.message] throw on them.) *)
Record JsError := mkJsError {
  message : option string;
  status : JsVal;
  code : JsVal;
  json : Stringified
}.

(** [new Error(msg)]: only [message] is set, and an [Error] serialises
    to the empty object. *)
Definition new_Error (msg : string) : JsError :=
  {| message := Some msg; status := JUndefined; code := JUndefined;
     json := JsonText "{}" |}.

(** [s.includes(pat)] *)
Definition includes (s pat : string) : bool :=
  match String.index 0 pat s with
  | Some _ => true
  | None => false
  end.

(** Truthiness of a string: the empty string is falsy. *)
Definition truthy (s : string) : bool :=
  match s with
  | EmptyString => false
  | _ => true
  end.

(** [x || dflt] on an optional string. *)
Definition or_default (x : option string) (dflt : string) : string :=
  match x with
  | Some s => if truthy s then s else dflt
  | None => dflt
  end.

(* ===================================================================== *)
(** ** Requests and replies of the outside world *)
(* ===================================================================== *)

Record Blob := mkBlob { blob_parts : list string; blob_type : string }.

Record MediaStream := mkStream { tracks : list nat }.

Inductive RecordingState := inactive | recording.

Record MediaRecorder := mkRecorder {
  recorder_stream : MediaStream;
  recorder_state : RecordingState
}.

Record ImageConfig := mkImageConfig {
  aspectRatio : string;
  imageSize : option string
}.

(** The three shapes of [ai.models.generateContent] the services build.
    The analysis request also carries a fixed system instruction and the
    response type [application/json]; they never vary and are left out. *)
Inductive ContentRequest :=
| AudioAnalysis (model : string) (mimeType : string) (data : string)
| ImageGeneration (model : string) (prompt : string) (imageConfig : ImageConfig)
| SpeechSynthesis (model : string) (text : string) (voiceName : string).

(** [inlineData.data] is the base64 payload, a string as the services
    type it ([generateArt] returns it as [Promise<string>]). *)
Record InlineData := mkInline { data : string }.
Record Part := mkPart { part_text : option string; inlineData : option InlineData }.
Record Content := mkContent { parts : option (list Part) }.
Record Candidate := mkCandidate { content : option Content }.
Record GenerateContentResponse := mkResponse {
  text : option string;
  candidates : option (list Candidate)
}.

Record VideoRequest := mkVideoRequest {
  video_model : string;
  video_request_prompt : string;
  numberOfVideos : Z;
  resolution : string;
  video_aspectRatio : string
}.

Record Video := mkVideo { uri : option string }.
Record GeneratedVideo := mkGeneratedVideo { video : option Video }.
Record VideosResponse := mkVideosResponse {
  generatedVideos : option (list GeneratedVideo)
}.
Record Operation := mkOperation {
  op_name : string;
  done : bool;
  response : option VideosResponse
}.

(** Every request that leaves the page, in the order it is made. *)
Inductive Call :=
| hasSelectedApiKey
| openSelectKey
| getUserMedia
| new_MediaRecorder (s : MediaStream)
| recorder_start
| recorder_stop
| track_stop (t : nat)
| blobToBase64 (b : Blob)
| generateContent (req : ContentRequest)
| generateVideos (req : VideoRequest)
| getVideosOperation (op : Operation)
| setTimeout (ms : Z).

(** How a promise ends: with a value, with a thrown value, or not at all. *)
Inductive Outcome (A : Type) :=
| Resolved (a : A)
| Rejected (e : JsError)
| Pending.
Arguments Resolved {A} a.
Arguments Rejected {A} e.
Arguments Pending {A}.

Definition is_rejected {A} (o : Outcome A) : bool :=
  match o with Rejected _ => true | _ => false end.

(** [window.aistudio], when the page runs inside AI Studio: which of its
    two methods are defined. *)
Record AiStudio := mkAiStudio {
  has_hasSelectedApiKey : bool;
  has_openSelectKey : bool
}.

(** The outside world.  A reply may depend on everything requested
    before it (the history), so that a retry can be answered differently
    from the first attempt. *)
Record Env := mkEnv {
  window_aistudio : option AiStudio;
  on_hasSelectedApiKey : list Call -> Outcome bool;
  on_openSelectKey : list Call -> Outcome unit;
  on_getUserMedia : list Call -> Outcome MediaStream;
  on_new_MediaRecorder : list Call -> MediaStream -> Outcome unit;
  on_recorder_start : list Call -> Outcome unit;
  on_blobToBase64 : list Call -> Blob -> Outcome string;
  on_generateContent : list Call -> ContentRequest -> Outcome GenerateContentResponse;
  on_generateVideos : list Call -> VideoRequest -> Outcome Operation;
  on_getVideosOperation : list Call -> Operation -> Outcome Operation;
  (** [JSON.parse(text) as AnalyzerResponse]: a syntax error, or the
      parsed value.  The cast is not checked by the code; the value is
      taken to have the shape of [AnalyzerResponse], which the system
      instruction of the request asks the model for. *)
  JSON_parse : string -> JsError + AnalyzerResponse;
  (** [process.env.API_KEY], as a template literal prints it *)
  API_KEY : list Call -> string;
  (** when both promises of the [Promise.all] reject: is it the first
      one that rejects first? *)
  first_rejects_first : bool
}.

(* ===================================================================== *)
(** ** The component state of [App] *)
(* ===================================================================== *)

Record App := mkApp {
  state : AppState;
  stream : option MediaStream;
  mediaRecorder : option MediaRecorder;
  personality : option PersonalityVector;
  assets : option GeneratedAssets;
  error : option string;
  statusMessage : string;
  chunksRef : list string
}.

(** The values of the [useState] and [useRef] initialisers. *)
Definition initial_App : App :=
  {| state := IDLE; stream := None; mediaRecorder := None;
     personality := None; assets := None; error := None;
     statusMessage := "Ready to vibe"; chunksRef := [] |}.

(** A [generateVideo(...).then(...)] whose callback has not run yet.
    [spawned_in] is bookkeeping of the model (the source has no such
    variable): the number of resets that had happened when the task was
    started. *)
Record VideoTask := mkTask {
  spawned_in : nat;
  settles_with : Outcome (option string)
}.

Record World := mkWorld {
  ui : App;
  calls : list Call;
  inflight : list VideoTask;
  onstop_queued : bool;       (* the recorder's [stop] event is due *)
  session : nat               (* bookkeeping: resets so far *)
}.

Definition initial_World : World :=
  {| ui := initial_App; calls := []; inflight := [];
     onstop_queued := false; session := 0 |}.

Definition with_ui (f : App -> App) (w : World) : World :=
  {| ui := f (ui w); calls := calls w; inflight := inflight w;
     onstop_queued := onstop_queued w; session := session w |}.

Definition with_call (c : Call) (w : World) : World :=
  {| ui := ui w; calls := calls w ++ [c]; inflight := inflight w;
     onstop_queued := onstop_queued w; session := session w |}.

Definition with_inflight (ts : list VideoTask) (w : World) : World :=
  {| ui := ui w; calls := calls w; inflight := ts;
     onstop_queued := onstop_queued w; session := session w |}.

Definition with_onstop (b : bool) (w : World) : World :=
  {| ui := ui w; calls := calls w; inflight := inflight w;
     onstop_queued := b; session := session w |}.

Definition next_session (w : World) : World :=
  {| ui := ui w; calls := calls w; inflight := inflight w;
     onstop_queued := onstop_queued w; session := S (session w) |}.

(* ===================================================================== *)
(** ** The promise monad *)
(* ===================================================================== *)

Definition Async (A : Type) : Type := World -> Outcome A * World.

Definition ret {A} (a : A) : Async A := fun w => (Resolved a, w).

Definition throw {A} (e : JsError) : Async A := fun w => (Rejected e, w).

Definition bind {A B} (m : Async A) (k : A -> Async B) : Async B :=
  fun w =>
    match m w with
    | (Resolved a, w') => k a w'
    | (Rejected e, w') => (Rejected e, w')
    | (Pending, w') => (Pending, w')
    end.

(** [try { m } catch (e) { h e }] *)
Definition try_catch {A} (m : Async A) (h : JsError -> Async A) : Async A :=
  fun w =>
    match m w with
    | (Rejected e, w') => h e w'
    | r => r
    end.

Declare Scope async_scope.
Delimit Scope async_scope with async.
Notation "x <- m ;; k" := (bind m (fun x => k))
  (at level 61, m at next level, right associativity) : async_scope.
Notation "m ;; k" := (bind m (fun _ => k))
  (at level 61, right associativity) : async_scope.
Local Open Scope async_scope.

(** A request to the outside world: log it, then end as the oracle says. *)
Definition request {A} (c : Call) (reply : list Call -> Outcome A) : Async A :=
  fun w => (reply (calls w), with_call c w).

(** A React setter, or an assignment to a ref. *)
Definition update (f : App -> App) : Async unit :=
  fun w => (Resolved tt, with_ui f w).

Definition read {A} (f : World -> A) : Async A :=
  fun w => (Resolved (f w), w).

(** [Promise.all([a, b])] of two promises that are already running: both
    run to their end; the result rejects with the rejection that came
    first, and otherwise waits for both values.  The two promises run
    concurrently; the call log lists the requests of [a] before those
    of [b] (in the page, the one request of the speech call is made
    before a second request of the art call). *)
Definition Promise_all {A B} (first_wins : bool)
    (a : Async A) (b : Async B) : Async (A * B) :=
  fun w =>
    let (oa, w1) := a w in
    let (ob, w2) := b w1 in
    (match oa, ob with
     | Rejected ea, Rejected eb => Rejected (if first_wins then ea else eb)
     | Rejected ea, _ => Rejected ea
     | _, Rejected eb => Rejected eb
     | Resolved x, Resolved y => Resolved (x, y)
     | _, _ => Pending
     end, w2).

Definition never {A} : Async A := fun w => (Pending, w).

(* ===================================================================== *)
(** ** The services ([src/services/geminiService.ts]) *)
(* ===================================================================== *)

Section GeminiService.

Variable env : Env.

Definition ask_hasSelectedApiKey : Async bool :=
  request hasSelectedApiKey (on_hasSelectedApiKey env).

Definition ask_openSelectKey : Async unit :=
  request openSelectKey (on_openSelectKey env).

Definition ai_generateContent (req : ContentRequest)
  : Async GenerateContentResponse :=
  request (generateContent req) (fun h => on_generateContent env h req).

Definition ai_generateVideos (req : VideoRequest) : Async Operation :=
  request (generateVideos req) (fun h => on_generateVideos env h req).

Definition ai_getVideosOperation (op : Operation) : Async Operation :=
  request (getVideosOperation op) (fun h => on_getVideosOperation env h op).

(** [await new Promise(resolve => setTimeout(resolve, ms))] *)
Definition sleep (ms : Z) : Async unit :=
  request (setTimeout ms) (fun _ => Resolved tt).

Definition checkApiKey : Async unit :=
  match window_aistudio env with
  | Some aistudio =>
      if has_hasSelectedApiKey aistudio then
        hasKey <- ask_hasSelectedApiKey ;;
        if negb hasKey && has_openSelectKey aistudio
        then ask_openSelectKey
        else ret tt
      else ret tt
  | None => ret tt
  end.

Definition analyzeAudioPersonality (audioBlob : Blob) : Async AnalyzerResponse :=
  base64Audio <- request (blobToBase64 audioBlob)
                         (fun h => on_blobToBase64 env h audioBlob) ;;
  response <- ai_generateContent
                (AudioAnalysis "gemini-2.5-flash" "audio/wav" base64Audio) ;;
  match text response with
  | Some t =>
      if truthy t then
        match JSON_parse env t with
        | inr analysis => ret analysis
        | inl e => throw e
        end
      else throw (new_Error "No analysis generated")
  | None => throw (new_Error "No analysis generated")
  end.

(** [response.candidates?.[0]?.content?.parts] *)
Definition first_candidate_parts (r : GenerateContentResponse)
  : option (list Part) :=
  match candidates r with
  | Some (c :: _) =>
      match content c with
      | Some ct => parts ct
      | None => None
      end
  | _ => None
  end.

Definition has_inlineData (p : Part) : bool :=
  match inlineData p with Some _ => true | None => false end.

(** [...parts?.find(p => p.inlineData)], then its [inlineData] *)
Definition image_part (r : GenerateContentResponse) : option InlineData :=
  match first_candidate_parts r with
  | Some ps =>
      match find has_inlineData ps with
      | Some p => inlineData p
      | None => None
      end
  | None => None
  end.

Definition high_quality_request (prompt : string) : ContentRequest :=
  ImageGeneration "gemini-3-pro-image-preview" prompt
    {| aspectRatio := "1:1"; imageSize := Some "1K" |}.

Definition flash_image_request (prompt : string) : ContentRequest :=
  ImageGeneration "gemini-2.5-flash-image" prompt
    {| aspectRatio := "1:1"; imageSize := None |}.

Definition generateArt (prompt : string) : Async string :=
  try_catch
    (response <- ai_generateContent (high_quality_request prompt) ;;
     match image_part response with
     | Some d => ret (data d)
     | None => throw (new_Error "No image data found in response")
     end)
    (fun e =>
     response <- ai_generateContent (flash_image_request prompt) ;;
     match image_part response with
     | Some d => ret (data d)
     | None => throw (new_Error "Image generation failed")
     end).

(** [...parts?.[0]?.inlineData?.data] *)
Definition first_part_data (r : GenerateContentResponse) : option string :=
  match first_candidate_parts r with
  | Some (p :: _) =>
      match inlineData p with
      | Some d => Some (data d)
      | None => None
      end
  | _ => None
  end.

Definition generateSpeech (text voiceName : string) : Async string :=
  response <- ai_generateContent
                (SpeechSynthesis "gemini-2.5-flash-preview-tts" text
                   (if truthy voiceName then voiceName else "Puck")) ;;
  match first_part_data response with
  | Some base64 =>
      if truthy base64 then ret base64
      else throw (new_Error "TTS generation failed")
  | None => throw (new_Error "TTS generation failed")
  end.

(** [operation.response?.generatedVideos?.[0]?.video?.uri] *)
Definition operation_videoUri (operation : Operation) : option string :=
  match response operation with
  | Some r =>
      match generatedVideos r with
      | Some (g :: _) =>
          match video g with
          | Some v => uri v
          | None => None
          end
      | _ => None
      end
  | None => None
  end.

(** The polling loop [while (!operation.done) { sleep; poll }].  [fuel]
    bounds the number of rounds; a loop that would go on beyond it is a
    promise that does not settle. *)
Fixpoint poll_until_done (fuel : nat) (operation : Operation) : Async Operation :=
  if done operation then ret operation
  else
    match fuel with
    | O => never
    | S fuel' =>
        sleep 5000 ;;
        operation' <- ai_getVideosOperation operation ;;
        poll_until_done fuel' operation'
    end.

Definition veo_request (prompt : string) : VideoRequest :=
  {| video_model := "veo-3.1-fast-generate-preview";
     video_request_prompt := prompt;
     numberOfVideos := 1;
     resolution := "720p";
     video_aspectRatio := "16:9" |}.

Definition runGen (fuel : nat) (prompt : string) : Async (option string) :=
  operation <- ai_generateVideos (veo_request prompt) ;;
  operation <- poll_until_done fuel operation ;;
  match operation_videoUri operation with
  | Some videoUri =>
      if truthy videoUri then
        key <- read (fun w => API_KEY env (calls w)) ;;
        ret (Some (videoUri ++ "&key=" ++ key)%string)
      else ret None
  | None => ret None
  end.

Definition not_found_text : string := "Requested entity was not found".

(** [e.message?.includes(...)] *)
Definition message_includes (e : JsError) (pat : string) : bool :=
  match message e with
  | Some m => includes m pat
  | None => false
  end.

(** The expression of lines 179-182.  Its disjuncts are evaluated from
    left to right, up to the first one that holds; the second one can
    throw, and then the expression has no value ([inl]). *)
Definition isNotFound (e : JsError) : JsError + bool :=
  if message_includes e not_found_text then inr true
  else
    match json e with
    | JsonThrows why => inl (new_Error why)
    | JsonText s =>
        inr (includes s not_found_text
             || strict_eq (status e) (JString "NOT_FOUND")
             || strict_eq (code e) (JNumber 404))
    end.

Definition can_openSelectKey : bool :=
  match window_aistudio env with
  | Some aistudio => has_openSelectKey aistudio
  | None => false
  end.

Definition generateVideo (fuel : nat) (prompt : string) : Async (option string) :=
  try_catch
    (runGen fuel prompt)
    (fun e =>
     match isNotFound e with
     | inl typeError => throw typeError
     | inr true =>
         if can_openSelectKey then
           try_catch
             (ask_openSelectKey ;;
              runGen fuel prompt)
             (fun retryError => ret None)
         else ret None
     | inr false => ret None
     end).

End GeminiService.

(* ===================================================================== *)
(** ** The component ([src/App.tsx]) *)
(* ===================================================================== *)

Definition setState (v : AppState) (a : App) : App :=
  {| state := v; stream := stream a; mediaRecorder := mediaRecorder a;
     personality := personality a; assets := assets a; error := error a;
     statusMessage := statusMessage a; chunksRef := chunksRef a |}.

Definition setStream (v : option MediaStream) (a : App) : App :=
  {| state := state a; stream := v; mediaRecorder := mediaRecorder a;
     personality := personality a; assets := assets a; error := error a;
     statusMessage := statusMessage a; chunksRef := chunksRef a |}.

Definition setMediaRecorder (v : option MediaRecorder) (a : App) : App :=
  {| state := state a; stream := stream a; mediaRecorder := v;
     personality := personality a; assets := assets a; error := error a;
     statusMessage := statusMessage a; chunksRef := chunksRef a |}.

Definition setPersonality (v : option PersonalityVector) (a : App) : App :=
  {| state := state a; stream := stream a; mediaRecorder := mediaRecorder a;
     personality := v; assets := assets a; error := error a;
     statusMessage := statusMessage a; chunksRef := chunksRef a |}.

(** [setAssets] takes an updater, as in [setAssets(prev => ...)];
    [setAssets(v)] is [setAssets (fun _ => v)]. *)
Definition setAssets (f : option GeneratedAssets -> option GeneratedAssets)
    (a : App) : App :=
  {| state := state a; stream := stream a; mediaRecorder := mediaRecorder a;
     personality := personality a; assets := f (assets a); error := error a;
     statusMessage := statusMessage a; chunksRef := chunksRef a |}.

Definition setError (v : option string) (a : App) : App :=
  {| state := state a; stream := stream a; mediaRecorder := mediaRecorder a;
     personality := personality a; assets := assets a; error := v;
     statusMessage := statusMessage a; chunksRef := chunksRef a |}.

Definition setStatusMessage (v : string) (a : App) : App :=
  {| state := state a; stream := stream a; mediaRecorder := mediaRecorder a;
     personality := personality a; assets := assets a; error := error a;
     statusMessage := v; chunksRef := chunksRef a |}.

Definition set_chunksRef (v : list string) (a : App) : App :=
  {| state := state a; stream := stream a; mediaRecorder := mediaRecorder a;
     personality := personality a; assets := assets a; error := error a;
     statusMessage := statusMessage a; chunksRef := v |}.

Definition recording_error : string :=
  "Microphone access denied or API Key missing. Please check permissions.".

Definition generation_error : string :=
  "Something went wrong during generation.".

(** [{ ...prev, videoUri: uri }] *)
Definition with_videoUri (u : string) (prev : GeneratedAssets) : GeneratedAssets :=
  {| artPrompt := artPrompt prev; artBase64 := artBase64 prev;
     storyText := storyText prev; musicDescription := musicDescription prev;
     videoUri := Some u; audioBase64 := audioBase64 prev |}.

(** [prev => prev ? { ...prev, videoUri: uri } : null] *)
Definition patch_videoUri (u : string) (prev : option GeneratedAssets)
  : option GeneratedAssets :=
  match prev with
  | Some p => Some (with_videoUri u p)
  | None => None
  end.

(** The callback given to [generateVideo(...).then]. *)
Definition video_then (u : option string) (a : App) : App :=
  match u with
  | Some s => if truthy s then setAssets (patch_videoUri s) a else a
  | None => a
  end.

(** [generateVideo(prompt).then(callback)] without [await]: the promise
    runs, and its callback is left to run when the promise has settled. *)
Definition spawn_then (p : Async (option string)) : Async unit :=
  fun w =>
    let (o, w') := p w in
    (Resolved tt,
     with_inflight (inflight w' ++ [ {| spawned_in := session w';
                                        settles_with := o |} ]) w').

Section Handlers.

Variable env : Env.

(** Lines 26-43: the body of the [try]. *)
Definition start_attempt : Async unit :=
  checkApiKey env ;;
  audioStream <- request getUserMedia (on_getUserMedia env) ;;
  update (setStream (Some audioStream)) ;;
  request (new_MediaRecorder audioStream)
          (fun h => on_new_MediaRecorder env h audioStream) ;;
  update (set_chunksRef []) ;;
  request recorder_start (on_recorder_start env) ;;
  update (setMediaRecorder
            (Some {| recorder_stream := audioStream;
                     recorder_state := recording |})) ;;
  update (setState RECORDING) ;;
  update (setError None).

Definition startRecording : Async unit :=
  try_catch start_attempt
    (fun err => update (setError (Some recording_error))).

(** [stream?.getTracks().forEach(track => track.stop())] *)
Fixpoint stop_tracks (ts : list nat) : Async unit :=
  match ts with
  | [] => ret tt
  | t :: ts' => request (track_stop t) (fun _ => Resolved tt) ;; stop_tracks ts'
  end.

(** [mediaRecorder.stop()] makes the recorder inactive and queues its
    [stop] event, whose handler is [handleRecordingStop]. *)
Definition stopRecording : Async unit :=
  fun w =>
    match mediaRecorder (ui w) with
    | Some r =>
        match recorder_state r with
        | recording =>
            (request recorder_stop (fun _ => Resolved tt) ;;
             update (setMediaRecorder
                       (Some {| recorder_stream := recorder_stream r;
                                recorder_state := inactive |})) ;;
             (fun w1 => (Resolved tt, with_onstop true w1)) ;;
             stop_tracks (match stream (ui w) with
                          | Some s => tracks s
                          | None => []
                          end) ;;
             update (setStream None) ;;
             update (setState ANALYZING)) w
        | inactive => (Resolved tt, w)
        end
    | None => (Resolved tt, w)
    end.

(** Lines 61-65: the blob and the analysis call. *)
Definition analysis_step : Async AnalyzerResponse :=
  chunks <- read (fun w => chunksRef (ui w)) ;;
  let blob := {| blob_parts := chunks; blob_type := "audio/webm" |} in
  update (setStatusMessage "Extracting personality vector...") ;;
  analyzeAudioPersonality env blob.

(** Lines 66-70: what is published when the analysis is there. *)
Definition publish_analysis (analysis : AnalyzerResponse) : Async unit :=
  update (setPersonality (Some (Types.personality analysis))) ;;
  update (setState GENERATING_ASSETS) ;;
  update (setStatusMessage "Generating multimodal experience...").

(** Lines 73-77: art and speech, started together and awaited together. *)
Definition art_and_speech (analysis : AnalyzerResponse) : Async (string * string) :=
  Promise_all (first_rejects_first env)
    (generateArt env (art_prompt (art analysis)))
    (generateSpeech env (narrative (story analysis)) (voice_name (tts analysis))).

Definition initialAssets (analysis : AnalyzerResponse)
    (artBase64 audioBase64 : string) : GeneratedAssets :=
  {| artPrompt := art_prompt (art analysis);
     artBase64 := Some artBase64;
     storyText := narrative (story analysis);
     musicDescription := music analysis;
     videoUri := None;
     audioBase64 := Some audioBase64 |}.

(** Lines 80-98: the showcase, then the video in the background. *)
Definition showcase (fuel : nat) (analysis : AnalyzerResponse)
    (results : string * string) : Async unit :=
  let (artBase64, audioBase64) := results in
  update (setAssets (fun _ => Some (initialAssets analysis artBase64 audioBase64))) ;;
  update (setState SHOWCASE) ;;
  spawn_then (generateVideo env fuel (video_prompt (Types.video analysis))).

(** Lines 100-104: the [catch] block. *)
Definition generation_failed (err : JsError) : Async unit :=
  update (setError (Some (or_default (message err) generation_error))) ;;
  update (setState ERROR).

Definition handleRecordingStop (fuel : nat) : Async unit :=
  try_catch
    (analysis <- analysis_step ;;
     publish_analysis analysis ;;
     results <- art_and_speech analysis ;;
     showcase fuel analysis results)
    generation_failed.

End Handlers.

Definition reset : Async unit :=
  update (setState IDLE) ;;
  update (setPersonality None) ;;
  update (setAssets (fun _ => None)) ;;
  update (setError None).

(* ===================================================================== *)
(** ** The page as a transition system *)
(* ===================================================================== *)

(** What can happen to the page.  An event that calls the outside world
    carries the way the outside world answers. *)
Inductive Event :=
| click_mic (env : Env)                      (* the round button *)
| dataavailable (chunk : string)             (* [recorder.ondataavailable] *)
| recorder_onstop (env : Env) (fuel : nat)   (* [recorder.onstop] *)
| click_reset                                (* either reset button *)
| video_settled (i : nat).                   (* the i-th pending [.then] *)

(** [l] without its [i]-th element. *)
Fixpoint remove_nth {A} (i : nat) (l : list A) : list A :=
  match i, l with
  | _, [] => []
  | O, _ :: l' => l'
  | S i', x :: l' => x :: remove_nth i' l'
  end.

(** The recorder hands over audio while it records, and once more when
    it is stopped, before its [stop] event. *)
Definition recorder_delivers (w : World) : bool :=
  match mediaRecorder (ui w) with
  | Some r =>
      match recorder_state r with
      | recording => true
      | inactive => onstop_queued w
      end
  | None => false
  end.

(** The buttons are the ones the JSX renders in the current state: the
    round button in [IDLE] and [RECORDING] (it starts in [IDLE] and
    stops otherwise), a reset button in [SHOWCASE] and in [ERROR].

    A handler is taken as one step, from its call to its last setter:
    while [handleRecordingStop] waits, the page renders no button, and
    a video callback that runs meanwhile finds no assets, so it could as
    well run before the handler.  The callback of a video task is a
    step of its own, taken at any later time.

    The steps are those of a page that is used one handler at a time:
    a second click on the round button during the awaits of
    [startRecording] is not among them, and the [stop] event of the
    recorder is taken to follow [stopRecording] only (a recorder whose
    stream ends by itself fires it too).  What is stated for every
    component state, or for a handler run from any world, does not
    depend on this. *)
Definition step (ev : Event) (w : World) : option World :=
  match ev with
  | click_mic env =>
      match state (ui w) with
      | IDLE => Some (snd (startRecording env w))
      | RECORDING => Some (snd (stopRecording w))
      | _ => None
      end
  | dataavailable chunk =>
      if recorder_delivers w
      then Some (if truthy chunk
                 then with_ui (fun a => set_chunksRef (chunksRef a ++ [chunk]) a) w
                 else w)
      else None
  | recorder_onstop env fuel =>
      if onstop_queued w
      then Some (snd (handleRecordingStop env fuel (with_onstop false w)))
      else None
  | click_reset =>
      match state (ui w) with
      | SHOWCASE | ERROR => Some (next_session (snd (reset w)))
      | _ => None
      end
  | video_settled i =>
      match nth_error (inflight w) i with
      | Some t =>
          match settles_with t with
          | Resolved u =>
              Some (with_ui (video_then u)
                      (with_inflight (remove_nth i (inflight w)) w))
          | Rejected _ =>
              Some (with_inflight (remove_nth i (inflight w)) w)
          | Pending => None
          end
      | None => None
      end
  end.

Fixpoint run (evs : list Event) (w : World) : option World :=
  match evs with
  | [] => Some w
  | ev :: evs' =>
      match step ev w with
      | Some w' => run evs' w'
      | None => None
      end
  end.


(** The requests made between two worlds. *)
Definition new_calls (w w' : World) : list Call :=
  skipn (length (calls w)) (calls w').

Definition is_prompt (c : Call) : bool :=
  match c with openSelectKey => true | _ => false end.

Definition is_submission (c : Call) : bool :=
  match c with generateVideos _ => true | _ => false end.

Definition prompts (l : list Call) : nat := length (filter is_prompt l).

Definition submissions (l : list Call) : nat := length (filter is_submission l).

(** The sessions whose video task changed the assets, in the order in
    which they did, along an execution. *)
Definition patching_session (ev : Event) (w : World) : list nat :=
  match ev with
  | video_settled i =>
      match nth_error (inflight w) i, assets (ui w) with
      | Some t, Some _ =>
          match settles_with t with
          | Resolved (Some u) => if truthy u then [spawned_in t] else []
          | _ => []
          end
      | _, _ => []
      end
  | _ => []
  end.

Fixpoint patches (evs : list Event) (w : World) : list nat :=
  match evs with
  | [] => []
  | ev :: evs' =>
      match step ev w with
      | Some w' => patching_session ev w ++ patches evs' w'
      | None => []
      end
  end.

Definition is_onstop (ev : Event) : bool :=
  match ev with recorder_onstop _ _ => true | _ => false end.

(** How often the pipeline is run among the events. *)
Definition pipeline_runs (evs : list Event) : nat :=
  length (filter is_onstop evs).

(* ===================================================================== *)
(** ** Concrete outside worlds, used to run the code *)
(* ===================================================================== *)

(** An outside world that never answers anything. *)
Definition silent : Env :=
  {| window_aistudio := None;
     on_hasSelectedApiKey := fun _ => Pending;
     on_openSelectKey := fun _ => Pending;
     on_getUserMedia := fun _ => Pending;
     on_new_MediaRecorder := fun _ _ => Pending;
     on_recorder_start := fun _ => Pending;
     on_blobToBase64 := fun _ _ => Pending;
     on_generateContent := fun _ _ => Pending;
     on_generateVideos := fun _ _ => Pending;
     on_getVideosOperation := fun _ _ => Pending;
     JSON_parse := fun _ => inl (new_Error "Unexpected token");
     API_KEY := fun _ => "KEY";
     first_rejects_first := true |}.

(** The error of the Veo endpoint when the key has no access to it. *)
Definition entity_not_found : JsError :=
  {| message := Some "Requested entity was not found.";
     status := JString "NOT_FOUND";
     code := JNumber 404;
     json := JsonText "{}" |}.

Definition quota_exceeded : JsError :=
  {| message := Some "Quota exceeded";
     status := JString "RESOURCE_EXHAUSTED";
     code := JNumber 429;
     json := JsonText "{}" |}.

(** Outside AI Studio ([window.aistudio] undefined), with a key that has
    no access to Veo. *)
Definition no_aistudio_no_veo : Env :=
  {| window_aistudio := None;
     on_hasSelectedApiKey := on_hasSelectedApiKey silent;
     on_openSelectKey := on_openSelectKey silent;
     on_getUserMedia := on_getUserMedia silent;
     on_new_MediaRecorder := on_new_MediaRecorder silent;
     on_recorder_start := on_recorder_start silent;
     on_blobToBase64 := on_blobToBase64 silent;
     on_generateContent := on_generateContent silent;
     on_generateVideos := fun _ _ => Rejected entity_not_found;
     on_getVideosOperation := on_getVideosOperation silent;
     JSON_parse := JSON_parse silent;
     API_KEY := API_KEY silent;
     first_rejects_first := true |}.

(** Inside AI Studio, a key without Veo access, and the user picks a key
    without Veo access again. *)
Definition aistudio_no_veo : Env :=
  {| window_aistudio := Some {| has_hasSelectedApiKey := true;
                                has_openSelectKey := true |};
     on_hasSelectedApiKey := fun _ => Resolved true;
     on_openSelectKey := fun _ => Resolved tt;
     on_getUserMedia := on_getUserMedia silent;
     on_new_MediaRecorder := on_new_MediaRecorder silent;
     on_recorder_start := on_recorder_start silent;
     on_blobToBase64 := on_blobToBase64 silent;
     on_generateContent := on_generateContent silent;
     on_generateVideos := fun _ _ => Rejected entity_not_found;
     on_getVideosOperation := on_getVideosOperation silent;
     JSON_parse := JSON_parse silent;
     API_KEY := API_KEY silent;
     first_rejects_first := true |}.

(** The video quota is used up. *)
Definition no_quota : Env :=
  {| window_aistudio := Some {| has_hasSelectedApiKey := true;
                                has_openSelectKey := true |};
     on_hasSelectedApiKey := fun _ => Resolved true;
     on_openSelectKey := fun _ => Resolved tt;
     on_getUserMedia := on_getUserMedia silent;
     on_new_MediaRecorder := on_new_MediaRecorder silent;
     on_recorder_start := on_recorder_start silent;
     on_blobToBase64 := on_blobToBase64 silent;
     on_generateContent := on_generateContent silent;
     on_generateVideos := fun _ _ => Rejected quota_exceeded;
     on_getVideosOperation := on_getVideosOperation silent;
     JSON_parse := JSON_parse silent;
     API_KEY := API_KEY silent;
     first_rejects_first := true |}.

(** The three signals of a permission failure, as propositions. *)
Definition status_signal (e : JsError) : Prop := status e = JString "NOT_FOUND".

Definition code_signal (e : JsError) : Prop := code e = JNumber 404.

Definition text_signal (e : JsError) : Prop :=
  (exists m, message e = Some m /\ includes m not_found_text = true)
  \/ (exists s, json e = JsonText s /\ includes s not_found_text = true).

(** The expression of lines 179-182 has a value: its first disjunct
    holds, or [JSON.stringify(e)] gives a text to search. *)
Definition classifiable (e : JsError) : Prop :=
  (exists m, message e = Some m /\ includes m not_found_text = true)
  \/ (exists s, json e = JsonText s).

(** [keeps R m]: the world after [m] is related by [R] to the world
    before it.  For a preorder [R] it is enough that every request and
    every setter of [m] stays within [R]. *)
Definition keeps (R : World -> World -> Prop) {A} (m : Async A) : Prop :=
  forall w, R w (snd (m w)).

(** [m] leaves the component [f] of the world as it was. *)
Definition same {X} (f : World -> X) (w w' : World) : Prop := f w' = f w.

(** Everything but the call log, in one record. *)
Definition page (w : World) : App * list VideoTask * bool * nat :=
  (ui w, inflight w, onstop_queued w, session w).

(** A tier of the image generation failed: the call threw, or its
    response carries no image. *)
Definition tier_failed (r : Outcome GenerateContentResponse) : bool :=
  match r with
  | Rejected _ => true
  | Resolved resp =>
      match image_part resp with
      | Some _ => false
      | None => true
      end
  | Pending => false
  end.

(** What holds of the page whatever has happened so far. *)
Definition invariant (w : World) : Prop :=
  (assets (ui w) <> None -> state (ui w) = SHOWCASE)
  /\ (onstop_queued w = true -> state (ui w) = ANALYZING)
  /\ (forall t, In t (inflight w) -> spawned_in t <= session w).

(** The pending video tasks that session [n] started. *)
Definition tasks_of (n : nat) (ts : list VideoTask) : nat :=
  length (filter (fun t => Nat.eqb (spawned_in t) n) ts).

(** Whether session [n] can still start a video task: a later session
    can, and the current one can until its pipeline has run. *)
Definition may_still_spawn (n : nat) (w : World) : nat :=
  if Nat.ltb (session w) n then 1
  else if Nat.eqb n (session w) then
    match state (ui w) with
    | IDLE | RECORDING => 1
    | ANALYZING => if onstop_queued w then 1 else 0
    | _ => 0
    end
  else 0.

(** The parts of the page that starting a recording never touches. *)
Definition beyond_recording (w : World)
  : option GeneratedAssets * option PersonalityVector * string
    * list VideoTask * bool * nat :=
  (assets (ui w), personality (ui w), statusMessage (ui w),
   inflight w, onstop_queued w, session w).

Definition same_or (s : AppState) (w w' : World) : Prop :=
  state (ui w') = state (ui w) \/ state (ui w') = s.

(** The analysis of the spec's scenario A. *)
Definition calm : AnalyzerResponse :=
  {| Types.personality :=
       {| traits := ["Calm"]; energy := 2; mood := "Serene";
          colors := {| primary := "#aabbcc"; secondary := "#ddeeff";
                       accent := "#112233" |} |};
     music := {| genre := "ambient"; bpm := 70; instruments := ["piano"];
                 vibe := "soft" |};
     art := {| art_prompt := "A watercolor cottage in a misty forest";
               art_style := "watercolor" |};
     story := {| narrative := "You move through the day like still water." |};
     Types.video := {| video_prompt := "Slow pan over a misty lake" |};
     tts := {| voice_name := "Kore"; speaking_rate := 1; pitch := "low" |} |}.

(** Another speaker. *)
Definition lively : AnalyzerResponse :=
  {| Types.personality :=
       {| traits := ["Bold"; "Restless"]; energy := 9; mood := "Electric";
          colors := {| primary := "#ff0066"; secondary := "#00ffcc";
                       accent := "#ffee00" |} |};
     music := {| genre := "EDM"; bpm := 140; instruments := ["synth"; "drums"];
                 vibe := "neon" |};
     art := {| art_prompt := "A cyberpunk samurai in a neon rain";
               art_style := "digital" |};
     story := {| narrative := "You light up every room you enter." |};
     Types.video := {| video_prompt := "Fast dolly through a neon street" |};
     tts := {| voice_name := "Puck"; speaking_rate := 1; pitch := "high" |} |}.

Definition inline_response (d : string) : GenerateContentResponse :=
  {| text := None;
     candidates :=
       Some [ {| content :=
                   Some {| parts :=
                             Some [ {| part_text := None;
                                       inlineData := Some {| data := d |} |} ]
                        |} |} ] |}.

Definition text_response (t : string) : GenerateContentResponse :=
  {| text := Some t; candidates := None |}.

Definition finished_video (u : string) : Operation :=
  {| op_name := "operations/veo-1";
     done := true;
     response :=
       Some {| generatedVideos := Some [ {| video := Some {| uri := Some u |} |} ] |}
  |}.

Definition one_track : MediaStream := {| tracks := [0] |}.

(** A page inside AI Studio, with a microphone, whose model calls are
    answered by [content] and whose video submissions by [videos]. *)
Definition studio_of (analysis : AnalyzerResponse)
    (hasKey : bool) (mic : Outcome MediaStream)
    (content : ContentRequest -> Outcome GenerateContentResponse)
    (videos : Outcome Operation) : Env :=
  {| window_aistudio := Some {| has_hasSelectedApiKey := true;
                                has_openSelectKey := true |};
     on_hasSelectedApiKey := fun _ => Resolved hasKey;
     on_openSelectKey := fun _ => Resolved tt;
     on_getUserMedia := fun _ => mic;
     on_new_MediaRecorder := fun _ _ => Resolved tt;
     on_recorder_start := fun _ => Resolved tt;
     on_blobToBase64 := fun _ _ => Resolved "GkXfo59ChoEB";
     on_generateContent := fun _ => content;
     on_generateVideos := fun _ _ => videos;
     on_getVideosOperation := fun _ op => Resolved op;
     JSON_parse := fun _ => inr analysis;
     API_KEY := fun _ => "KEY";
     first_rejects_first := true |}.

Definition studio := studio_of calm.

Definition all_good (req : ContentRequest) : Outcome GenerateContentResponse :=
  match req with
  | AudioAnalysis _ _ _ => Resolved (text_response "{ personality: ... }")
  | ImageGeneration _ _ _ => Resolved (inline_response "iVBORw0KGgo=")
  | SpeechSynthesis _ _ _ => Resolved (inline_response "UklGRiQAAABXQVZF")
  end.

(** The high-fidelity image model is down; the flash model answers. *)
Definition primary_down (req : ContentRequest) : Outcome GenerateContentResponse :=
  match req with
  | ImageGeneration m _ _ =>
      if String.eqb m "gemini-3-pro-image-preview"
      then Rejected (new_Error "The model is overloaded.")
      else Resolved (inline_response "iVBORw0KGgo=")
  | _ => all_good req
  end.

(** The speech model throws. *)
Definition speech_down (req : ContentRequest) : Outcome GenerateContentResponse :=
  match req with
  | SpeechSynthesis _ _ _ => Rejected (new_Error "TTS quota exceeded")
  | _ => all_good req
  end.

Definition mic_denied : JsError :=
  {| message := Some "Permission denied"; status := JUndefined;
     code := JNumber 0; json := JsonText "{}" |}.

Definition first_video : string := "https://video.example/first?alt=media".

(** Everything works. *)
Definition happy : Env :=
  studio true (Resolved one_track) all_good (Resolved (finished_video first_video)).

(** Another speaker; everything works, but the video submission is not
    answered yet. *)
Definition no_video_yet : Env :=
  studio_of lively true (Resolved one_track) all_good Pending.

Definition speech_fails : Env :=
  studio true (Resolved one_track) speech_down (Resolved (finished_video first_video)).

Definition fallback_only : Env :=
  studio true (Resolved one_track) primary_down (Resolved (finished_video first_video)).

(** The user refuses the microphone. *)
Definition no_microphone : Env :=
  studio true (Rejected mic_denied) all_good Pending.


(** A video job that is still rendering. *)
Definition rendering : Operation :=
  {| op_name := "operations/veo-1"; done := false; response := None |}.

Definition is_poll (c : Call) : bool :=
  match c with getVideosOperation _ => true | _ => false end.

(** The video is ready at the second poll. *)
Definition slow_video : Env :=
  {| window_aistudio := window_aistudio happy;
     on_hasSelectedApiKey := on_hasSelectedApiKey happy;
     on_openSelectKey := on_openSelectKey happy;
     on_getUserMedia := on_getUserMedia happy;
     on_new_MediaRecorder := on_new_MediaRecorder happy;
     on_recorder_start := on_recorder_start happy;
     on_blobToBase64 := on_blobToBase64 happy;
     on_generateContent := on_generateContent happy;
     on_generateVideos := fun _ _ => Resolved rendering;
     on_getVideosOperation :=
       fun h _ =>
         match filter is_poll h with
         | [] => Resolved rendering
         | _ => Resolved (finished_video first_video)
         end;
     JSON_parse := JSON_parse happy;
     API_KEY := API_KEY happy;
     first_rejects_first := true |}.

(** Inside AI Studio, with a key that has no access to Veo, whatever
    the user selects. *)
Definition veo_denied : Env :=
  studio true (Resolved one_track) all_good (Rejected entity_not_found).

(** An error of the SDK that holds a reference to itself, as the errors
    of HTTP clients that carry their request and their response do. *)
Definition cyclic_why : string := "Converting circular structure to JSON".

Definition cyclic_error : JsError :=
  {| message := Some "fetch failed"; status := JUndefined;
     code := JUndefined; json := JsonThrows cyclic_why |}.

(** Everything works but the video submission, which fails with that
    error. *)
Definition video_throws_cyclic : Env :=
  studio true (Resolved one_track) all_good (Rejected cyclic_error).

(** Start, one chunk of audio, stop. *)
Definition record_and_stop (env : Env) : list Event :=
  [click_mic env; dataavailable "chunk-1"; click_mic env].

(** ... and the recorder's [stop] event. *)
Definition one_session (env : Env) : list Event :=
  record_and_stop env ++ [recorder_onstop env 3].

(** A session with a video on its way, a reset, and a second session. *)
Definition two_sessions : list Event :=
  one_session happy ++ [click_reset] ++ one_session no_video_yet.

Definition second_video : string := "https://video.example/second?alt=media".

(** Another speaker, for whom everything works, with a video of their
    own. *)
Definition lively_happy : Env :=
  studio_of lively true (Resolved one_track) all_good
    (Resolved (finished_video second_video)).

(** A session with a video on its way, a reset, and a second session
    with a video on its way too. *)
Definition two_showcases : list Event :=
  one_session happy ++ [click_reset] ++ one_session lively_happy.


(* ===================================================================== *)
(** ** What [App] renders ([src/App.tsx], lines 114-232) *)
(* ===================================================================== *)

(** [state === s] *)
Definition in_state (s : AppState) (a : App) : bool :=
  match state a, s with
  | IDLE, IDLE | RECORDING, RECORDING | ANALYZING, ANALYZING
  | GENERATING_ASSETS, GENERATING_ASSETS | SHOWCASE, SHOWCASE
  | ERROR, ERROR => true
  | _, _ => false
  end.

(** The handlers the JSX binds to [onClick]. *)
Inductive Handler := on_startRecording | on_stopRecording | on_reset.

(** The elements of the page that depend on the component state. *)
Inductive Element :=
| ResetExperience (onClick : Handler)
| SystemFailure (shown : option string) (onClick : Handler)
| RoundButton (onClick : Handler) (square : bool)
| VisualizerCanvas (input : MediaStream) (isRecording : bool) (color : string)
| WaitingForInput
| Spinner (title : string) (caption : string)
| VibeCardElement (shown_assets : GeneratedAssets)
                  (shown_personality : PersonalityVector).

(** The [style.background] of the outer [div]. *)
Definition background (a : App) : string :=
  match personality a with
  | Some p =>
      ("radial-gradient(circle at center, " ++ primary (colors p)
       ++ "20 0%, #000 70%)")%string
  | None => "radial-gradient(circle at center, #111 0%, #000 80%)"
  end.

(** The header: [state === SHOWCASE && <button onClick={reset}>]. *)
Definition header (a : App) : list Element :=
  if in_state SHOWCASE a then [ResetExperience on_reset] else [].

(** The four conditional blocks of [<main>], in their order. *)
Definition main (a : App) : list Element :=
  (if in_state ERROR a then [SystemFailure (error a) on_reset] else [])
  ++ (if in_state IDLE a || in_state RECORDING a
      then [RoundButton (if in_state IDLE a then on_startRecording
                         else on_stopRecording)
                        (in_state RECORDING a);
            match in_state RECORDING a, stream a with
            | true, Some s => VisualizerCanvas s true "#ef4444"
            | _, _ => WaitingForInput
            end]
      else [])
  ++ (if in_state ANALYZING a || in_state GENERATING_ASSETS a
      then [Spinner (statusMessage a)
                    (if in_state ANALYZING a then "DECODING AUDIO SIGNALS..."
                     else "SYNTHESIZING REALITY...")]
      else [])
  ++ (match in_state SHOWCASE a, assets a, personality a with
      | true, Some x, Some p => [VibeCardElement x p]
      | _, _, _ => []
      end).

Definition render (a : App) : list Element := header a ++ main a.

(** The handler of an element that can be clicked. *)
Definition onClick_of (e : Element) : option Handler :=
  match e with
  | ResetExperience h | SystemFailure _ h | RoundButton h _ => Some h
  | _ => None
  end.

(** The blocks of [<main>] that fill the page: one per phase. *)
Definition is_panel (e : Element) : bool :=
  match e with
  | SystemFailure _ _ | RoundButton _ _ | Spinner _ _ | VibeCardElement _ _ => true
  | _ => false
  end.

(** The order of the phases along a session. *)
Definition rank (s : AppState) : nat :=
  match s with
  | IDLE => 0
  | RECORDING => 1
  | ANALYZING => 2
  | GENERATING_ASSETS => 3
  | SHOWCASE | ERROR => 4
  end.

(** The requests of a run of polling: a timer of five seconds before
    each look at the job. *)
Definition polling (ops : list Operation) : list Call :=
  flat_map (fun op => [setTimeout 5000; getVideosOperation op]) ops.

(** The reply to the look number [i] of a run of polling over [ops]
    that starts in [w]: the reply to [getVideosOperation o] after the
    first [i] rounds and one more timer. *)
Definition poll_reply (env : Env) (w : World) (ops : list Operation)
    (i : nat) (o : Operation) : Outcome Operation :=
  on_getVideosOperation env
    (calls w ++ polling (firstn i ops) ++ [setTimeout 5000]) o.

(** The audio events of a run: the chunks handed over, in their order. *)
Definition chunks_delivered (chunks : list string) : list Event :=
  map dataavailable chunks.

Definition is_track_stop (c : Call) : bool :=
  match c with track_stop _ => true | _ => false end.

Definition is_content_call (c : Call) : bool :=
  match c with generateContent _ => true | _ => false end.

(** A request that belongs to the generation of assets: an image or a
    speech request, or anything of the video job. *)
Definition is_generation (c : Call) : bool :=
  match c with
  | generateContent (ImageGeneration _ _ _)
  | generateContent (SpeechSynthesis _ _ _)
  | generateVideos _ | getVideosOperation _ | setTimeout _ => true
  | _ => false
  end.

(** The call log only grows. *)
Definition extends (w w' : World) : Prop :=
  exists l, calls w' = calls w ++ l.

(** The blob that [handleRecordingStop] builds from the chunks. *)
Definition recorded_blob (chunks : list string) : Blob :=
  {| blob_parts := chunks; blob_type := "audio/webm" |}.

(** What the page shows rests on. *)
Definition page_invariant (w : World) : Prop :=
  (state (ui w) = RECORDING ->
   exists s, stream (ui w) = Some s
             /\ mediaRecorder (ui w)
                = Some {| recorder_stream := s; recorder_state := recording |})
  /\ (forall r, mediaRecorder (ui w) = Some r -> recorder_state r = recording ->
       state (ui w) = RECORDING)
  /\ (state (ui w) = SHOWCASE ->
       personality (ui w) <> None /\ assets (ui w) <> None)
  /\ (state (ui w) = GENERATING_ASSETS -> personality (ui w) <> None)
  /\ (state (ui w) = ERROR ->
       exists msg, error (ui w) = Some msg /\ truthy msg = true)
  /\ (rank (state (ui w)) <= 2 -> personality (ui w) = None)
  /\ (2 <= rank (state (ui w)) -> stream (ui w) = None).

(** The browser grants the microphone but cannot record from it. *)
Definition recorder_unsupported : Env :=
  {| window_aistudio := window_aistudio happy;
     on_hasSelectedApiKey := on_hasSelectedApiKey happy;
     on_openSelectKey := on_openSelectKey happy;
     on_getUserMedia := on_getUserMedia happy;
     on_new_MediaRecorder := fun _ _ => Rejected (new_Error "NotSupportedError");
     on_recorder_start := on_recorder_start happy;
     on_blobToBase64 := on_blobToBase64 happy;
     on_generateContent := on_generateContent happy;
     on_generateVideos := on_generateVideos happy;
     on_getVideosOperation := on_getVideosOperation happy;
     JSON_parse := JSON_parse happy;
     API_KEY := API_KEY happy;
     first_rejects_first := true |}.

(** The analysis model is down. *)
Definition analysis_down (req : ContentRequest) : Outcome GenerateContentResponse :=
  match req with
  | AudioAnalysis _ _ _ => Rejected (new_Error "")
  | _ => all_good req
  end.

Definition analysis_fails : Env :=
  studio true (Resolved one_track) analysis_down
    (Resolved (finished_video first_video)).

(* ===================================================================== *)
(** ** The card ([src/components/VibeCard.tsx]) *)
(* ===================================================================== *)

Module VibeCard.

(** The three [useState] cells of the card. *)
Record CardState := mkCardState {
  isPlaying : bool;
  showVideo : bool;
  videoError : bool
}.

(** What the card asks of its [<audio>] element. *)
Inductive AudioCall :=
| set_src (src : string)
| play
| pause.

Record Card := mkCard {
  props_assets : GeneratedAssets;
  props_personality : PersonalityVector;
  cells : CardState;
  audio_calls : list AudioCall;
  autoplay_pending : nat   (* [play()] promises of the effect, not settled yet *)
}.

Definition setIsPlaying (v : bool) (s : CardState) : CardState :=
  {| isPlaying := v; showVideo := showVideo s; videoError := videoError s |}.

Definition setShowVideo (v : bool) (s : CardState) : CardState :=
  {| isPlaying := isPlaying s; showVideo := v; videoError := videoError s |}.

Definition setVideoError (v : bool) (s : CardState) : CardState :=
  {| isPlaying := isPlaying s; showVideo := showVideo s; videoError := v |}.

Definition with_cells (f : CardState -> CardState) (c : Card) : Card :=
  {| props_assets := props_assets c; props_personality := props_personality c;
     cells := f (cells c); audio_calls := audio_calls c;
     autoplay_pending := autoplay_pending c |}.

Definition with_audio (a : AudioCall) (c : Card) : Card :=
  {| props_assets := props_assets c; props_personality := props_personality c;
     cells := cells c; audio_calls := audio_calls c ++ [a];
     autoplay_pending := autoplay_pending c |}.

Definition with_assets (x : GeneratedAssets) (c : Card) : Card :=
  {| props_assets := x; props_personality := props_personality c;
     cells := cells c; audio_calls := audio_calls c;
     autoplay_pending := autoplay_pending c |}.

Definition with_pending (n : nat) (c : Card) : Card :=
  {| props_assets := props_assets c; props_personality := props_personality c;
     cells := cells c; audio_calls := audio_calls c;
     autoplay_pending := n |}.

(** Truthiness of [string | null]. *)
Definition present (o : option string) : bool :=
  match o with
  | Some s => truthy s
  | None => false
  end.

(** The visual side (lines 49-71): the video, else the image, else
    nothing. *)
Inductive Visual :=
| VideoElement (src : string)
| ImageElement (src : string)
| NoVisual.

Definition image_of (x : GeneratedAssets) : Visual :=
  match artBase64 x with
  | Some d =>
      if truthy d then ImageElement ("data:image/png;base64," ++ d)%string
      else NoVisual
  | None => NoVisual
  end.

Definition visual (c : Card) : Visual :=
  match videoUri (props_assets c) with
  | Some u =>
      if showVideo (cells c) && truthy u && negb (videoError (cells c))
      then VideoElement u
      else image_of (props_assets c)
  | None => image_of (props_assets c)
  end.

(** The toggle button (lines 74-81) and its label, when it is there. *)
Definition motion_button (c : Card) : option string :=
  if present (videoUri (props_assets c)) && negb (videoError (cells c))
  then Some (if showVideo (cells c) then "Show Art" else "Show Motion")
  else None.

(** The header of the data side (lines 108-117): the mood with the
    first trait, then one chip for each further trait. *)
Definition title_trait (p : PersonalityVector) : option string := hd_error (traits p).

Definition chips (p : PersonalityVector) : list string := skipn 1 (traits p).

(** The effect of lines 17-23: the speech is loaded and asked to play;
    [isPlaying] follows later, when the promise of [play()] settles. *)
Definition audio_effect (c : Card) : Card :=
  match audioBase64 (props_assets c) with
  | Some d =>
      if truthy d then
        with_pending (S (autoplay_pending c))
          (with_audio play
             (with_audio (set_src ("data:audio/mp3;base64," ++ d)%string) c))
      else c
  | None => c
  end.

(** The dependency of the effect, [assets.audioBase64], has not
    changed. *)
Definition same_audio (a b : option string) : bool :=
  match a, b with
  | Some s, Some t => String.eqb s t
  | None, None => true
  | _, _ => false
  end.

(** The card when it is mounted: the effect runs once. *)
Definition mount (x : GeneratedAssets) (p : PersonalityVector) : Card :=
  audio_effect
    {| props_assets := x; props_personality := p;
       cells := {| isPlaying := false; showVideo := false;
                   videoError := false |};
       audio_calls := []; autoplay_pending := 0 |}.

(** [App] renders the card with new assets: the state cells stay, and
    the effect runs again if the speech has changed. *)
Definition rerender (x : GeneratedAssets) (c : Card) : Card :=
  if same_audio (audioBase64 (props_assets c)) (audioBase64 x)
  then with_assets x c
  else audio_effect (with_assets x c).

(** The promise of a [play()] of the effect settles: [setIsPlaying(true)]
    if the browser has let the speech start, a line on the console if
    not. *)
Definition autoplay_settles (allowed : bool) (c : Card) : Card :=
  with_pending (Nat.pred (autoplay_pending c))
    (if allowed then with_cells (setIsPlaying true) c else c).

(** [togglePlay] (lines 25-34); the [<audio>] element is always there
    once the card is mounted. *)
Definition togglePlay (c : Card) : Card :=
  with_cells (setIsPlaying (negb (isPlaying (cells c))))
    (with_audio (if isPlaying (cells c) then pause else play) c).

(** The [onError] of the video (lines 56-60). *)
Definition video_onError (c : Card) : Card :=
  with_cells (setShowVideo false) (with_cells (setVideoError true) c).

Inductive CardEvent :=
| click_motion               (* the toggle button *)
| video_failed               (* the video element reports an error *)
| click_play                 (* the round play button *)
| audio_ended                (* the [<audio>] element has played to its end *)
| autoplay_settled (allowed : bool)
                             (* a [play()] of the effect has settled *)
| props_changed (x : GeneratedAssets).
                             (* [App] renders new assets *)

(** An event can happen when its element is rendered. *)
Definition card_step (ev : CardEvent) (c : Card) : option Card :=
  match ev with
  | click_motion =>
      match motion_button c with
      | Some _ => Some (with_cells (setShowVideo (negb (showVideo (cells c)))) c)
      | None => None
      end
  | video_failed =>
      match visual c with
      | VideoElement _ => Some (video_onError c)
      | _ => None
      end
  | click_play => Some (togglePlay c)
  | audio_ended => Some (with_cells (setIsPlaying false) c)
  | autoplay_settled allowed =>
      match autoplay_pending c with
      | S _ => Some (autoplay_settles allowed c)
      | O => None
      end
  | props_changed x => Some (rerender x c)
  end.

Fixpoint card_run (evs : list CardEvent) (c : Card) : option Card :=
  match evs with
  | [] => Some c
  | ev :: evs' =>
      match card_step ev c with
      | Some c' => card_run evs' c'
      | None => None
      end
  end.

Definition is_click_motion (ev : CardEvent) : bool :=
  match ev with click_motion => true | _ => false end.

End VibeCard.

(** The card of a finished session whose video has arrived. *)
Definition calm_assets : GeneratedAssets :=
  with_videoUri first_video (initialAssets calm "art" "speech").

Definition calm_card : VibeCard.Card :=
  VibeCard.mount calm_assets (Types.personality calm).

(* ===================================================================== *)
(** ** The visualizer ([src/components/Visualizer.tsx]) *)
(* ===================================================================== *)

Module Visualizer.

Record Props := mkProps {
  props_stream : option MediaStream;
  props_isRecording : bool;
  props_color : string
}.

(** What the component finds in the browser.  The bars are drawn from
    the byte of each frequency bin, frame after frame. *)
Record Browser := mkBrowser {
  canvas_current : bool;            (* [canvasRef.current] is set *)
  getContext_2d : bool;             (* [canvas.getContext('2d')] is not null *)
  frequencyBinCount : nat;
  frequency_data : nat -> nat -> Z  (* the frame, the bin *)
}.

(** The calls of the component on the audio graph, the canvas and the
    frame scheduler.  A bar is recorded with its bin, its fill style
    and the byte it is drawn from; its rectangle is computed from the
    bin and the byte in floating point and is not modelled. *)
Inductive Call :=
| new_AudioContext
| createAnalyser
| createMediaStreamSource (s : MediaStream)
| connect
| set_fftSize (n : Z)
| getContext
| requestAnimationFrame (handle : nat)
| getByteFrequencyData
| clearRect
| fillRect (bin : nat) (fillStyle : string) (level : Z)
| cancelAnimationFrame (handle : nat)
| close.

Record Instance := mkInstance {
  log : list Call;
  pending : list nat;        (* frame callbacks requested, not run, not cancelled *)
  requestRef : option nat;
  last_handle : nat;         (* the last handle the browser has given *)
  frames_drawn : nat;
  cleanup : bool;            (* the effect has returned its cleanup function *)
  mounted : bool
}.

Definition setup (s : MediaStream) : list Call :=
  [new_AudioContext; createAnalyser; createMediaStreamSource s; connect;
   set_fftSize 256; getContext].

(** The [for] loop of [draw]: one bar per bin. *)
Definition bars (b : Browser) (p : Props) (frame : nat) : list Call :=
  map (fun i => fillRect i (props_color p) (frequency_data b frame i))
      (seq 0 (frequencyBinCount b)).

(** [draw] (lines 35-59).  The browser gives each request a fresh
    handle, which is never zero. *)
Definition draw (b : Browser) (p : Props) (v : Instance) : Instance :=
  if props_isRecording p then
    let handle := S (last_handle v) in
    {| log := log v ++ [requestAnimationFrame handle; getByteFrequencyData; clearRect]
                    ++ bars b p (frames_drawn v);
       pending := pending v ++ [handle];
       requestRef := Some handle;
       last_handle := handle;
       frames_drawn := S (frames_drawn v);
       cleanup := cleanup v;
       mounted := mounted v |}
  else v.

(** The effect (lines 15-67) when the component is mounted. *)
Definition effect (b : Browser) (p : Props) (handle : nat) : Instance :=
  let v0 := {| log := []; pending := []; requestRef := None;
               last_handle := handle; frames_drawn := 0;
               cleanup := false; mounted := true |} in
  match props_stream p with
  | Some s =>
      if props_isRecording p && canvas_current b then
        if getContext_2d b then
          draw b p {| log := setup s; pending := []; requestRef := None;
                      last_handle := handle; frames_drawn := 0;
                      cleanup := true; mounted := true |}
        else
          {| log := setup s; pending := []; requestRef := None;
             last_handle := handle; frames_drawn := 0;
             cleanup := false; mounted := true |}
      else v0
  | None => v0
  end.

(** The cleanup function (lines 63-66). *)
Definition run_cleanup (v : Instance) : Instance :=
  let cancelled :=
    match requestRef v with
    | Some handle =>
        if Nat.eqb handle 0 then (log v, pending v)
        else (log v ++ [cancelAnimationFrame handle],
              filter (fun h => negb (Nat.eqb h handle)) (pending v))
    | None => (log v, pending v)
    end in
  {| log := fst cancelled ++ [close];
     pending := snd cancelled;
     requestRef := requestRef v;
     last_handle := last_handle v;
     frames_drawn := frames_drawn v;
     cleanup := false;
     mounted := mounted v |}.

Inductive VisEvent :=
| animation_frame   (* the browser runs the oldest pending frame callback *)
| unmount.          (* React removes the component *)

Definition vis_step (b : Browser) (p : Props) (ev : VisEvent) (v : Instance)
  : option Instance :=
  match ev with
  | animation_frame =>
      match pending v with
      | _ :: rest =>
          Some (draw b p {| log := log v; pending := rest;
                            requestRef := requestRef v;
                            last_handle := last_handle v;
                            frames_drawn := frames_drawn v;
                            cleanup := cleanup v; mounted := mounted v |})
      | [] => None
      end
  | unmount =>
      if mounted v then
        let v1 := if cleanup v then run_cleanup v else v in
        Some {| log := log v1; pending := pending v1;
                requestRef := requestRef v1; last_handle := last_handle v1;
                frames_drawn := frames_drawn v1; cleanup := false;
                mounted := false |}
      else None
  end.

Fixpoint vis_run (b : Browser) (p : Props) (evs : list VisEvent) (v : Instance)
  : option Instance :=
  match evs with
  | [] => Some v
  | ev :: evs' =>
      match vis_step b p ev v with
      | Some v' => vis_run b p evs' v'
      | None => None
      end
  end.

(** The calls of the frame [k] of an instance mounted after [handle]. *)
Definition frame_calls (b : Browser) (p : Props) (handle k : nat) : list Call :=
  [requestAnimationFrame (handle + S k); getByteFrequencyData; clearRect]
  ++ bars b p k.

(** The instance after its frame [k]. *)
Definition after_frame (b : Browser) (p : Props) (s : MediaStream)
    (handle k : nat) : Instance :=
  {| log := setup s ++ concat (map (frame_calls b p handle) (seq 0 (S k)));
     pending := [handle + S k];
     requestRef := Some (handle + S k);
     last_handle := handle + S k;
     frames_drawn := S k;
     cleanup := true;
     mounted := true |}.

(** What [App] passes while it records. *)
Definition recording_props (s : MediaStream) : Props :=
  {| props_stream := Some s; props_isRecording := true; props_color := "#ef4444" |}.

(** A browser with two frequency bins. *)
Definition two_bins : Browser :=
  {| canvas_current := true; getContext_2d := true; frequencyBinCount := 2;
     frequency_data := fun frame bin => Z.of_nat (10 * frame + bin) |}.

(** A browser whose canvas gives no 2d context. *)
Definition no_2d : Browser :=
  {| canvas_current := true; getContext_2d := false; frequencyBinCount := 2;
     frequency_data := fun _ _ => 0%Z |}.

End Visualizer.

(* ===================================================================== *)
(** ** What a computation leaves alone *)
(* ===================================================================== *)

Unset Implicit Arguments.

Section Keeps.

Variable R : World -> World -> Prop.
Hypothesis R_refl : forall w, R w w.
Hypothesis R_trans : forall w1 w2 w3, R w1 w2 -> R w2 w3 -> R w1 w3.
Hypothesis R_call : forall c w, R w (with_call c w).
Variable env : Env.

Lemma keeps_ret {A} (a : A) : keeps R (ret a).
Proof. intro w; apply R_refl. Qed.

Lemma keeps_throw {A} (e : JsError) : keeps R (@throw A e).
Proof. intro w; apply R_refl. Qed.

Lemma keeps_never {A} : keeps R (@never A).
Proof. intro w; apply R_refl. Qed.

Lemma keeps_read {A} (g : World -> A) : keeps R (read g).
Proof. intro w; apply R_refl. Qed.

Lemma keeps_bind {A B} (m : Async A) (k : A -> Async B) :
  keeps R m -> (forall a, keeps R (k a)) -> keeps R (bind m k).
Proof.
  intros Hm Hk w. unfold bind.
  specialize (Hm w).
  destruct (m w) as [[a | e | ] w1]; simpl in *; auto.
  apply R_trans with w1; [assumption | apply Hk].
Qed.

Lemma keeps_try_catch {A} (m : Async A) (h : JsError -> Async A) :
  keeps R m -> (forall e, keeps R (h e)) -> keeps R (try_catch m h).
Proof.
  intros Hm Hh w. unfold try_catch.
  specialize (Hm w).
  destruct (m w) as [[a | e | ] w1]; simpl in *; auto.
  apply R_trans with w1; [assumption | apply Hh].
Qed.

Lemma keeps_Promise_all {A B} (b : bool) (m : Async A) (n : Async B) :
  keeps R m -> keeps R n -> keeps R (Promise_all b m n).
Proof.
  intros Hm Hn w. unfold Promise_all.
  specialize (Hm w).
  destruct (m w) as [oa w1]; simpl in *.
  specialize (Hn w1).
  destruct (n w1) as [ob w2]; simpl in *.
  apply R_trans with w1; assumption.
Qed.

Lemma keeps_update (g : App -> App) :
  (forall w, R w (with_ui g w)) -> keeps R (update g).
Proof. intros H w; apply H. Qed.

Lemma keeps_request {A} (c : Call) (r : list Call -> Outcome A) :
  keeps R (request c r).
Proof. intro w; apply R_call. Qed.

(** The services only add to the call log. *)

Ltac services :=
  repeat first
    [ apply keeps_bind; [ | intro ]
    | apply keeps_try_catch; [ | intro ]
    | apply keeps_request
    | apply keeps_ret
    | apply keeps_throw
    | apply keeps_never
    | apply keeps_read
    | match goal with
      | |- keeps _ (match ?x with _ => _ end) => destruct x
      | |- keeps _ (if ?x then _ else _) => destruct x
      end ].

Lemma keeps_checkApiKey : keeps R (checkApiKey env).
Proof. unfold checkApiKey, ask_hasSelectedApiKey, ask_openSelectKey. services. Qed.

Lemma keeps_analyzeAudioPersonality b : keeps R (analyzeAudioPersonality env b).
Proof. unfold analyzeAudioPersonality, ai_generateContent. services. Qed.

Lemma keeps_generateArt p : keeps R (generateArt env p).
Proof. unfold generateArt, ai_generateContent. services. Qed.

Lemma keeps_generateSpeech t v : keeps R (generateSpeech env t v).
Proof. unfold generateSpeech, ai_generateContent. services. Qed.

Lemma keeps_poll_until_done fuel :
  forall op, keeps R (poll_until_done env fuel op).
Proof.
  induction fuel as [ | fuel IH]; intro op; simpl.
  - services.
  - destruct (done op); [apply keeps_ret | ].
    unfold sleep, ai_getVideosOperation.
    apply keeps_bind; [apply keeps_request | intro].
    apply keeps_bind; [apply keeps_request | intro]. apply IH.
Qed.

Lemma keeps_runGen fuel p : keeps R (runGen env fuel p).
Proof.
  unfold runGen, ai_generateVideos.
  apply keeps_bind; [apply keeps_request | intro].
  apply keeps_bind; [apply keeps_poll_until_done | intro].
  services.
Qed.

Lemma keeps_generateVideo fuel p : keeps R (generateVideo env fuel p).
Proof.
  unfold generateVideo, ask_openSelectKey.
  apply keeps_try_catch; [apply keeps_runGen | intro].
  destruct (isNotFound e) as [typeError | [ | ]];
    [apply keeps_throw | | apply keeps_ret].
  destruct (can_openSelectKey env); [ | apply keeps_ret].
  apply keeps_try_catch; [ | intro; apply keeps_ret].
  apply keeps_bind; [apply keeps_request | intro; apply keeps_runGen].
Qed.

End Keeps.

Lemma same_refl {X} (f : World -> X) w : same f w w.
Proof. reflexivity. Qed.

Lemma same_trans {X} (f : World -> X) w1 w2 w3 :
  same f w1 w2 -> same f w2 w3 -> same f w1 w3.
Proof. unfold same; congruence. Qed.

Lemma generateArt_page env p w : page (snd (generateArt env p w)) = page w.
Proof.
  apply (keeps_generateArt (same page) (same_refl page) (same_trans page)).
  reflexivity.
Qed.

Lemma generateSpeech_page env t v w :
  page (snd (generateSpeech env t v w)) = page w.
Proof.
  apply (keeps_generateSpeech (same page) (same_refl page) (same_trans page)).
  reflexivity.
Qed.

Lemma analyzeAudioPersonality_page env b w :
  page (snd (analyzeAudioPersonality env b w)) = page w.
Proof.
  apply (keeps_analyzeAudioPersonality (same page) (same_refl page) (same_trans page)).
  reflexivity.
Qed.

Lemma generateVideo_page env fuel p w :
  page (snd (generateVideo env fuel p w)) = page w.
Proof.
  apply (keeps_generateVideo (same page) (same_refl page) (same_trans page)).
  reflexivity.
Qed.

Lemma checkApiKey_page env w : page (snd (checkApiKey env w)) = page w.
Proof.
  apply (keeps_checkApiKey (same page) (same_refl page) (same_trans page)).
  reflexivity.
Qed.

(* ===================================================================== *)
(** ** The code on a few runs *)
(* ===================================================================== *)

(** The classification of a few errors. *)
Example isNotFound_by_message :
  isNotFound (new_Error "404: Requested entity was not found.") = inr true.
Proof. reflexivity. Qed.

Example isNotFound_by_code :
  isNotFound {| message := None; status := JNumber 404; code := JNumber 404;
                json := JsonText "{}" |} = inr true.
Proof. reflexivity. Qed.

Example isNotFound_quota : isNotFound quota_exceeded = inr false.
Proof. reflexivity. Qed.

(** The message is looked at first: when it carries the text, the value
    is not serialised. *)
Example isNotFound_by_message_first :
  isNotFound {| message := Some "Requested entity was not found.";
                status := JUndefined; code := JUndefined;
                json := JsonThrows "cyclic object value" |} = inr true.
Proof. reflexivity. Qed.

(** A value that cannot be serialised has no classification, whatever
    its status and code. *)
Example isNotFound_throws :
  isNotFound {| message := Some "Quota exceeded";
                status := JString "NOT_FOUND"; code := JNumber 404;
                json := JsonThrows "cyclic object value" |}
  = inl (new_Error "cyclic object value").
Proof. reflexivity. Qed.

(** Two rounds of polling, then the reference with the key appended. *)
Example generateVideo_polls_twice :
  generateVideo slow_video 2 "neon rain" initial_World
  = (Resolved (Some "https://video.example/first?alt=media&key=KEY"),
     {| ui := initial_App;
        calls := [generateVideos (veo_request "neon rain");
                  setTimeout 5000; getVideosOperation rendering;
                  setTimeout 5000; getVideosOperation rendering];
        inflight := []; onstop_queued := false; session := 0 |}).
Proof. vm_compute. reflexivity. Qed.

(** With a budget of one round the loop is still going. *)
Example generateVideo_out_of_budget :
  fst (generateVideo slow_video 1 "neon rain" initial_World) = Pending.
Proof. vm_compute. reflexivity. Qed.

(** Scenario A of the design: art and speech succeed. *)
Example scenario_A :
  exists w a,
    run (one_session happy) initial_World = Some w
    /\ state (ui w) = SHOWCASE
    /\ personality (ui w) = Some (Types.personality calm)
    /\ assets (ui w) = Some a
    /\ artBase64 a = Some "iVBORw0KGgo="
    /\ audioBase64 a = Some "UklGRiQAAABXQVZF"
    /\ videoUri a = None.
Proof.
  do 2 eexists. split; [vm_compute; reflexivity | ].
  repeat split.
Qed.

(** Scenario C of the design: the video submission is refused for lack
    of permission, the key prompt is opened once, the submission is
    made once more and refused again; the page stays in the showcase,
    and the task settles with null. *)
Example scenario_C :
  exists w w' a,
    run (one_session veo_denied) initial_World = Some w
    /\ state (ui w) = SHOWCASE
    /\ inflight w = [ {| spawned_in := 0; settles_with := Resolved None |} ]
    /\ prompts (calls w) = 1
    /\ submissions (calls w) = 2
    /\ step (video_settled 0) w = Some w'
    /\ state (ui w') = SHOWCASE
    /\ assets (ui w') = Some a
    /\ videoUri a = None.
Proof.
  do 3 eexists. split; [vm_compute; reflexivity | ].
  split; [reflexivity | ].
  split; [reflexivity | ].
  split; [reflexivity | ].
  split; [reflexivity | ].
  split; [vm_compute; reflexivity | ].
  repeat split.
Qed.

(* ===================================================================== *)
(** ** The call log *)
(* ===================================================================== *)

Lemma new_calls_app (w w' : World) (l : list Call) :
  calls w' = calls w ++ l -> new_calls w w' = l.
Proof.
  intro H. unfold new_calls. rewrite H.
  rewrite skipn_app, skipn_all, Nat.sub_diag. reflexivity.
Qed.

Lemma new_calls_refl (w : World) : new_calls w w = [].
Proof. apply new_calls_app. rewrite app_nil_r. reflexivity. Qed.

Lemma prompts_app (l l' : list Call) : prompts (l ++ l') = prompts l + prompts l'.
Proof. unfold prompts. rewrite filter_app, length_app. reflexivity. Qed.

Lemma submissions_app (l l' : list Call) :
  submissions (l ++ l') = submissions l + submissions l'.
Proof. unfold submissions. rewrite filter_app, length_app. reflexivity. Qed.

(** A round of polling neither submits a job nor prompts for a key. *)
Lemma poll_until_done_calls env fuel :
  forall op w, exists l,
    calls (snd (poll_until_done env fuel op w)) = calls w ++ l
    /\ prompts l = 0 /\ submissions l = 0.
Proof.
  induction fuel as [ | fuel IH]; intros op w; simpl.
  - exists []. rewrite app_nil_r.
    destruct (done op); simpl; auto.
  - destruct (done op); simpl.
    + exists []. rewrite app_nil_r. auto.
    + unfold bind, sleep, ai_getVideosOperation, request; simpl.
      destruct (on_getVideosOperation env _ op) as [op' | e | ]; simpl.
      * destruct (IH op' (with_call (getVideosOperation op)
                            (with_call (setTimeout 5000) w))) as (l & Hl & Hp & Hs).
        exists (setTimeout 5000 :: getVideosOperation op :: l).
        rewrite Hl. simpl. rewrite <- !app_assoc. simpl.
        split; [reflexivity | ]. split; assumption.
      * exists [setTimeout 5000; getVideosOperation op].
        rewrite <- app_assoc. simpl. auto.
      * exists [setTimeout 5000; getVideosOperation op].
        rewrite <- app_assoc. simpl. auto.
Qed.

(** One run of the submission-and-poll sequence submits exactly once. *)
Lemma runGen_calls env fuel prompt w :
  exists l,
    calls (snd (runGen env fuel prompt w)) = calls w ++ l
    /\ prompts l = 0 /\ submissions l = 1.
Proof.
  unfold runGen, bind, ai_generateVideos, request; simpl.
  destruct (on_generateVideos env (calls w) (veo_request prompt))
    as [op | e | ]; simpl.
  - destruct (poll_until_done_calls env fuel op
                (with_call (generateVideos (veo_request prompt)) w))
      as (l & Hl & Hp & Hs).
    exists (generateVideos (veo_request prompt) :: l).
    assert (Hcalls : calls (with_call (generateVideos (veo_request prompt)) w) ++ l
                     = calls w ++ generateVideos (veo_request prompt) :: l).
    { simpl. rewrite <- app_assoc. reflexivity. }
    rewrite <- Hcalls, <- Hl.
    split; [ | split; [exact Hp | unfold submissions in *; simpl; lia]].
    destruct (poll_until_done env fuel op _) as [[op' | e | ] w1]; simpl;
      try reflexivity.
    destruct (operation_videoUri op') as [u | ]; simpl; try reflexivity.
    destruct (truthy u); reflexivity.
  - exists [generateVideos (veo_request prompt)]. auto.
  - exists [generateVideos (veo_request prompt)]. auto.
Qed.

(** [generateVideo], read off its two [try] blocks. *)
Lemma generateVideo_unfold env fuel prompt w :
  generateVideo env fuel prompt w =
  match runGen env fuel prompt w with
  | (Rejected e, w1) =>
      match isNotFound e with
      | inl typeError => (Rejected typeError, w1)
      | inr found =>
          if found && can_openSelectKey env then
            match on_openSelectKey env (calls w1) with
            | Resolved _ =>
                match runGen env fuel prompt (with_call openSelectKey w1) with
                | (Rejected _, w2) => (Resolved None, w2)
                | r => r
                end
            | Rejected _ => (Resolved None, with_call openSelectKey w1)
            | Pending => (Pending, with_call openSelectKey w1)
            end
          else (Resolved None, w1)
      end
  | r => r
  end.
Proof.
  unfold generateVideo, try_catch.
  destruct (runGen env fuel prompt w) as [[u | e | ] w1]; try reflexivity.
  destruct (isNotFound e) as [typeError | [ | ]]; simpl; try reflexivity.
  destruct (can_openSelectKey env); simpl; [ | reflexivity].
  unfold bind, ask_openSelectKey, request.
  destruct (on_openSelectKey env (calls w1)) as [[] | e' | ]; reflexivity.
Qed.

Lemma strict_eq_JString (v : JsVal) (s : string) :
  strict_eq v (JString s) = true <-> v = JString s.
Proof.
  destruct v as [ | t | n]; simpl; split; intro H; try discriminate.
  - apply String.eqb_eq in H. congruence.
  - inversion H. apply String.eqb_refl.
Qed.

Lemma strict_eq_JNumber (v : JsVal) (n : Z) :
  strict_eq v (JNumber n) = true <-> v = JNumber n.
Proof.
  destruct v as [ | t | m]; simpl; split; intro H; try discriminate.
  - apply Z.eqb_eq in H. congruence.
  - inversion H. apply Z.eqb_refl.
Qed.

Lemma message_includes_iff (e : JsError) :
  message_includes e not_found_text = true
  <-> exists m, message e = Some m /\ includes m not_found_text = true.
Proof.
  unfold message_includes. split.
  - destruct (message e) as [m | ]; [ | discriminate]. intro H. exists m. auto.
  - intros (m & Hm & Hi). rewrite Hm. exact Hi.
Qed.

(** The classification has a value exactly for the values whose message
    carries the text or which can be serialised. *)
Lemma isNotFound_classifiable (e : JsError) :
  (exists found, isNotFound e = inr found) <-> classifiable e.
Proof.
  unfold isNotFound, classifiable.
  rewrite <- message_includes_iff.
  destruct (message_includes e not_found_text).
  - split; [auto | ]. intros _. exists true. reflexivity.
  - destruct (json e) as [s | why].
    + split; [intros _; right; exists s; reflexivity | ].
      intros _. eexists. reflexivity.
    + split.
      * intros (found & H). discriminate.
      * intros [H | (s & H)]; discriminate.
Qed.

(** Where it has a value, the classification is the disjunction of the
    three signals. *)
Lemma isNotFound_signals (e : JsError) :
  isNotFound e = inr true
  <-> classifiable e /\ (status_signal e \/ code_signal e \/ text_signal e).
Proof.
  unfold isNotFound, classifiable, status_signal, code_signal, text_signal.
  rewrite <- message_includes_iff.
  destruct (message_includes e not_found_text).
  - split; [auto | reflexivity].
  - destruct (json e) as [s | why].
    + split.
      * intro H. injection H as H.
        rewrite !orb_true_iff, strict_eq_JString, strict_eq_JNumber in H.
        split; [right; exists s; reflexivity | ].
        destruct H as [[H | H] | H]; auto.
        right; right; right. exists s. auto.
      * intros (_ & H). f_equal.
        rewrite !orb_true_iff, strict_eq_JString, strict_eq_JNumber.
        destruct H as [H | [H | [H | (s' & Hs & H)]]]; auto;
          [discriminate | ].
        injection Hs as Hs. subst s'. auto.
    + split; [discriminate | ].
      intros ([H | (s & H)] & _); discriminate.
Qed.

(** It throws exactly when the message does not carry the text and the
    value cannot be serialised. *)
Lemma isNotFound_throws_iff (e thrown : JsError) :
  isNotFound e = inl thrown
  <-> message_includes e not_found_text = false
      /\ exists why, json e = JsonThrows why /\ thrown = new_Error why.
Proof.
  unfold isNotFound.
  destruct (message_includes e not_found_text).
  - split; [discriminate | intros (H & _); discriminate].
  - destruct (json e) as [s | why].
    + split; [discriminate | intros (_ & why & H & _); discriminate].
    + split.
      * intro H. injection H as H. split; [reflexivity | ].
        exists why. auto.
      * intros (_ & why' & Hw & Ht). injection Hw as Hw. subst. reflexivity.
Qed.

Section VideoRetry.

Variable env : Env.
Variables (fuel : nat) (prompt : string).

(** The log of a first attempt that was rejected. *)
Lemma first_attempt_log w e w1 :
  runGen env fuel prompt w = (Rejected e, w1) ->
  exists l, calls w1 = calls w ++ l /\ prompts l = 0 /\ submissions l = 1.
Proof.
  intro H. destruct (runGen_calls env fuel prompt w) as (l & Hl & Hp & Hs).
  rewrite H in Hl. exists l. auto.
Qed.

(** The log of a first attempt, a prompt and a second attempt. *)
Lemma retry_log w w1 l :
  calls w1 = calls w ++ l ->
  exists l2,
    calls (snd (runGen env fuel prompt (with_call openSelectKey w1)))
    = calls w ++ l ++ openSelectKey :: l2
    /\ prompts l2 = 0 /\ submissions l2 = 1.
Proof.
  intro Hl.
  destruct (runGen_calls env fuel prompt (with_call openSelectKey w1))
    as (l2 & Hl2 & Hp & Hs).
  exists l2. rewrite Hl2. simpl. rewrite Hl, <- !app_assoc. auto.
Qed.

End VideoRetry.

(** C3 (as stated): a permission failure is met by exactly one
    re-authorization prompt and exactly one retry.  Outside AI Studio
    there is no prompt to open: the first attempt fails with the
    permission error, and [generateVideo] gives up with no prompt and no
    retry. *)
Lemma C3_no_prompt_outside_aistudio :
  let w := initial_World in
  let r := generateVideo no_aistudio_no_veo 3 "neon rain" w in
  let log := new_calls w (snd r) in
  fst (runGen no_aistudio_no_veo 3 "neon rain" w) = Rejected entity_not_found
  /\ isNotFound entity_not_found = inr true
  /\ fst r = Resolved None
  /\ prompts log = 0
  /\ submissions log = 1
  /\ ~ (prompts log = 1 /\ submissions log = 2).
Proof.
  vm_compute. repeat split; try reflexivity.
  intros [H _]. discriminate H.
Qed.

(** C3 (amended): take a video error for which the expression of the
    classification has a value (its message carries the text, or
    [JSON.stringify] gives a text).  It is classified as
    permission-related exactly when one of the three signals matches.
    For any other such error the operation ends with null after the one
    submission, with no prompt.  For a permission-related error, when
    the page has no [openSelectKey] the same happens; when it has one,
    exactly one prompt is opened, and if the prompt resolves the whole
    submission-and-poll sequence is run exactly once more (a rejection
    of that second run gives null), while a rejected prompt gives null
    without a retry. *)
Theorem C3_permission_retry env fuel prompt w e w1 found :
  runGen env fuel prompt w = (Rejected e, w1) ->
  isNotFound e = inr found ->
  let r := generateVideo env fuel prompt w in
  let log := new_calls w (snd r) in
  classifiable e
  /\ (found = true <-> status_signal e \/ code_signal e \/ text_signal e)
  /\ (found = false ->
      r = (Resolved None, w1) /\ prompts log = 0 /\ submissions log = 1)
  /\ (found = true -> can_openSelectKey env = false ->
      r = (Resolved None, w1) /\ prompts log = 0 /\ submissions log = 1)
  /\ (found = true -> can_openSelectKey env = true ->
      prompts log = 1 /\
      match on_openSelectKey env (calls w1) with
      | Resolved _ =>
          submissions log = 2 /\
          r = match runGen env fuel prompt (with_call openSelectKey w1) with
              | (Rejected _, w2) => (Resolved None, w2)
              | r2 => r2
              end
      | Rejected _ => submissions log = 1 /\ r = (Resolved None, with_call openSelectKey w1)
      | Pending => submissions log = 1 /\ fst r = Pending
      end).
Proof.
  intros Hrun Hfound r log.
  destruct (first_attempt_log env fuel prompt w e w1 Hrun) as (l & Hl & Hp & Hs).
  assert (Hr : r = generateVideo env fuel prompt w) by reflexivity.
  rewrite generateVideo_unfold, Hrun, Hfound in Hr.
  assert (Hcl : classifiable e).
  { apply isNotFound_classifiable. exists found. exact Hfound. }
  split; [exact Hcl | ].
  split.
  { split.
    - intro H. subst found. apply isNotFound_signals in Hfound. tauto.
    - intro H. destruct found; [reflexivity | ].
      assert (Ht : isNotFound e = inr true) by (apply isNotFound_signals; auto).
      congruence. }
  split; [ | split].
  - intro Hn. rewrite Hn in Hr. simpl in Hr.
    unfold log. rewrite Hr. simpl.
    rewrite (new_calls_app w w1 l Hl). auto.
  - intros Hn Hc. rewrite Hn, Hc in Hr. simpl in Hr.
    unfold log. rewrite Hr. simpl.
    rewrite (new_calls_app w w1 l Hl). auto.
  - intros Hn Hc. rewrite Hn, Hc in Hr. simpl in Hr.
    unfold log.
    assert (Hone : calls (with_call openSelectKey w1)
                   = calls w ++ l ++ [openSelectKey]).
    { simpl. rewrite Hl, <- app_assoc. reflexivity. }
    destruct (on_openSelectKey env (calls w1)) as [[] | e' | ].
    + destruct (retry_log env fuel prompt w w1 l Hl) as (l2 & Hl2 & Hp2 & Hs2).
      assert (Hsnd : snd r = snd (runGen env fuel prompt (with_call openSelectKey w1))).
      { rewrite Hr.
        destruct (runGen env fuel prompt (with_call openSelectKey w1))
          as [[u | e' | ] w2]; reflexivity. }
      rewrite Hsnd, (new_calls_app w _ _ Hl2).
      rewrite prompts_app, submissions_app.
      change (openSelectKey :: l2) with ([openSelectKey] ++ l2).
      rewrite prompts_app, submissions_app, Hp, Hs, Hp2, Hs2.
      repeat split; try reflexivity. exact Hr.
    + rewrite Hr. simpl snd. rewrite (new_calls_app w _ _ Hone).
      rewrite prompts_app, submissions_app, Hp, Hs. auto.
    + rewrite Hr. simpl snd. rewrite (new_calls_app w _ _ Hone).
      rewrite prompts_app, submissions_app, Hp, Hs. auto.
Qed.

(** The retry of C3 on a run: inside AI Studio, a permission error, one
    prompt, one more submission, and null when that one fails too. *)
Lemma C3_permission_retry_witness :
  let w := initial_World in
  let r := generateVideo aistudio_no_veo 3 "neon rain" w in
  prompts (new_calls w (snd r)) = 1
  /\ submissions (new_calls w (snd r)) = 2
  /\ fst r = Resolved None.
Proof.
  pose proof (C3_permission_retry aistudio_no_veo 3 "neon rain" initial_World
                entity_not_found
                (with_call (generateVideos (veo_request "neon rain"))
                   initial_World)
                true eq_refl eq_refl) as H.
  destruct H as (_ & _ & _ & _ & H).
  destruct (H eq_refl eq_refl) as (Hp & Hs & Hr).
  split; [exact Hp | split; [exact Hs | ]].
  rewrite Hr. reflexivity.
Defined.

(* ===================================================================== *)
(** ** Image generation: the two tiers *)
(* ===================================================================== *)

(** [generateArt], read off its [try] and its [catch]. *)
Lemma generateArt_unfold env prompt w :
  let w1 := with_call (generateContent (high_quality_request prompt)) w in
  let w2 := with_call (generateContent (flash_image_request prompt)) w1 in
  let fallback :=
    match on_generateContent env (calls w1) (flash_image_request prompt) with
    | Resolved resp =>
        match image_part resp with
        | Some d => (Resolved (data d), w2)
        | None => (Rejected (new_Error "Image generation failed"), w2)
        end
    | Rejected e => (Rejected e, w2)
    | Pending => (Pending, w2)
    end in
  generateArt env prompt w =
  match on_generateContent env (calls w) (high_quality_request prompt) with
  | Resolved resp =>
      match image_part resp with
      | Some d => (Resolved (data d), w1)
      | None => fallback
      end
  | Rejected e => fallback
  | Pending => (Pending, w1)
  end.
Proof.
  unfold generateArt, try_catch, bind, ai_generateContent, request. simpl.
  destruct (on_generateContent env (calls w) (high_quality_request prompt))
    as [resp | e | ]; simpl; try reflexivity.
  - destruct (image_part resp) as [d | ]; simpl; try reflexivity.
    destruct (on_generateContent env _ (flash_image_request prompt))
      as [resp2 | e2 | ]; simpl; try reflexivity.
    destruct (image_part resp2); reflexivity.
  - destruct (on_generateContent env _ (flash_image_request prompt))
      as [resp2 | e2 | ]; simpl; try reflexivity.
    destruct (image_part resp2); reflexivity.
Qed.

(** The art call rejects only when both tiers failed. *)
Lemma generateArt_rejected env prompt w :
  is_rejected (fst (generateArt env prompt w)) = true ->
  tier_failed (on_generateContent env (calls w) (high_quality_request prompt)) = true
  /\ tier_failed (on_generateContent env
                    (calls (with_call (generateContent (high_quality_request prompt)) w))
                    (flash_image_request prompt)) = true.
Proof.
  rewrite generateArt_unfold. unfold tier_failed. simpl.
  destruct (on_generateContent env (calls w) (high_quality_request prompt))
    as [resp | e | ]; simpl; try discriminate.
  - destruct (image_part resp) as [d | ]; simpl; try discriminate.
    destruct (on_generateContent env _ (flash_image_request prompt))
      as [resp2 | e2 | ]; simpl; try discriminate; auto.
    destruct (image_part resp2); simpl; try discriminate; auto.
  - destruct (on_generateContent env _ (flash_image_request prompt))
      as [resp2 | e2 | ]; simpl; try discriminate; auto.
    destruct (image_part resp2); simpl; try discriminate; auto.
Qed.

(* ===================================================================== *)
(** ** The pipeline of [handleRecordingStop] *)
(* ===================================================================== *)

Lemma art_and_speech_unfold env a w :
  art_and_speech env a w =
  let (oa, w1) := generateArt env (art_prompt (art a)) w in
  let (os, w2) := generateSpeech env (narrative (story a)) (voice_name (tts a)) w1 in
  (match oa, os with
   | Rejected ea, Rejected eb =>
       Rejected (if first_rejects_first env then ea else eb)
   | Rejected ea, _ => Rejected ea
   | _, Rejected eb => Rejected eb
   | Resolved x, Resolved y => Resolved (x, y)
   | _, _ => Pending
   end, w2).
Proof. reflexivity. Qed.

Lemma art_and_speech_page env a w :
  page (snd (art_and_speech env a w)) = page w.
Proof.
  rewrite art_and_speech_unfold.
  pose proof (generateArt_page env (art_prompt (art a)) w) as H1.
  destruct (generateArt env (art_prompt (art a)) w) as [oa w1]. simpl in H1.
  pose proof (generateSpeech_page env (narrative (story a)) (voice_name (tts a)) w1) as H2.
  destruct (generateSpeech env _ _ w1) as [os w2]. simpl in *.
  congruence.
Qed.

Lemma analysis_step_page env w :
  page (snd (analysis_step env w))
  = page (with_ui (setStatusMessage "Extracting personality vector...") w).
Proof.
  unfold analysis_step, bind, read, update. simpl.
  apply analyzeAudioPersonality_page.
Qed.

Lemma showcase_unfold env fuel a art_data speech_data w :
  let w1 := with_ui (setState SHOWCASE)
              (with_ui (setAssets (fun _ => Some (initialAssets a art_data speech_data))) w) in
  let r := generateVideo env fuel (video_prompt (Types.video a)) w1 in
  showcase env fuel a (art_data, speech_data) w =
  (Resolved tt,
   with_inflight (inflight (snd r) ++ [ {| spawned_in := session (snd r);
                                           settles_with := fst r |} ]) (snd r)).
Proof.
  unfold showcase, bind, update, spawn_then. simpl.
  destruct (generateVideo env fuel (video_prompt (Types.video a)) _) as [o w']. reflexivity.
Qed.

(** [handleRecordingStop], stage by stage. *)
Lemma handleRecordingStop_unfold env fuel w :
  handleRecordingStop env fuel w =
  match analysis_step env w with
  | (Resolved a, wa) =>
      match art_and_speech env a (snd (publish_analysis a wa)) with
      | (Resolved results, ws) => showcase env fuel a results ws
      | (Rejected e, ws) => generation_failed e ws
      | (Pending, ws) => (Pending, ws)
      end
  | (Rejected e, wa) => generation_failed e wa
  | (Pending, wa) => (Pending, wa)
  end.
Proof.
  unfold handleRecordingStop, try_catch.
  unfold bind at 1.
  destruct (analysis_step env w) as [[a | e | ] wa]; try reflexivity.
  unfold bind at 1.
  assert (Hp : publish_analysis a wa = (Resolved tt, snd (publish_analysis a wa)))
    by reflexivity.
  destruct (publish_analysis a wa) as [o wp]. simpl in Hp.
  injection Hp as Ho. subst o. cbn [snd].
  unfold bind at 1.
  destruct (art_and_speech env a wp)
    as [[[art_data speech_data] | e | ] ws]; try reflexivity.
  rewrite showcase_unfold. reflexivity.
Qed.

(** The only exception that leaves [generateVideo] is one thrown by
    the classification of the error of the first attempt. *)
Lemma generateVideo_rejected env fuel prompt w thrown :
  fst (generateVideo env fuel prompt w) = Rejected thrown
  <-> exists e, fst (runGen env fuel prompt w) = Rejected e
                /\ isNotFound e = inl thrown.
Proof.
  rewrite generateVideo_unfold.
  destruct (runGen env fuel prompt w) as [[u | e1 | ] w1]; cbn [fst].
  - split; [discriminate | intros (e & H & _); discriminate].
  - destruct (isNotFound e1) as [t | found] eqn:Hc; cbn [fst].
    + split.
      * intro H. injection H as H. subst t. exists e1. auto.
      * intros (e & He & Ht). injection He as He. subst e. congruence.
    + assert (Hno : forall x : Outcome (option string) * World,
                 x = (if found && can_openSelectKey env then
                        match on_openSelectKey env (calls w1) with
                        | Resolved _ =>
                            match runGen env fuel prompt
                                    (with_call openSelectKey w1) with
                            | (Rejected _, w2) => (Resolved None, w2)
                            | r => r
                            end
                        | Rejected _ => (Resolved None, with_call openSelectKey w1)
                        | Pending => (Pending, with_call openSelectKey w1)
                        end
                      else (Resolved None, w1)) ->
                 fst x <> Rejected thrown).
      { intros x Hx. subst x.
        destruct (found && can_openSelectKey env); simpl; try discriminate.
        destruct (on_openSelectKey env (calls w1)) as [[] | e2 | ]; simpl;
          try discriminate.
        destruct (runGen env fuel prompt (with_call openSelectKey w1))
          as [[u | e3 | ] w2]; simpl; discriminate. }
      split.
      * intro H. exfalso. exact (Hno _ eq_refl H).
      * intros (e & He & Ht). injection He as He. subst e. congruence.
  - split; [discriminate | intros (e & H & _); discriminate].
Qed.

Lemma page_fields w w' :
  page w' = page w ->
  ui w' = ui w /\ inflight w' = inflight w
  /\ onstop_queued w' = onstop_queued w /\ session w' = session w.
Proof. unfold page. intro H. injection H as H1 H2 H3 H4. auto. Qed.

(** What one run of [handleRecordingStop] does to the page: either it
    spawns nothing and publishes no assets, or it ends in the showcase
    with fresh assets (no video yet) and one new video task. *)
Lemma handleRecordingStop_summary env fuel w :
  let w' := snd (handleRecordingStop env fuel w) in
  onstop_queued w' = onstop_queued w /\ session w' = session w /\
  ((inflight w' = inflight w /\ assets (ui w') = assets (ui w)
    /\ (state (ui w') = state (ui w)
        \/ state (ui w') = GENERATING_ASSETS
        \/ state (ui w') = ERROR))
   \/ (state (ui w') = SHOWCASE
       /\ (exists a, assets (ui w') = Some a /\ videoUri a = None)
       /\ exists o, inflight w' = inflight w ++ [ {| spawned_in := session w;
                                                     settles_with := o |} ])).
Proof.
  intro w'. subst w'. rewrite handleRecordingStop_unfold.
  pose proof (analysis_step_page env w) as Hpa.
  destruct (analysis_step env w) as [[a | e | ] wa]; cbn [snd] in Hpa;
    apply page_fields in Hpa; destruct Hpa as (Hu & Hi & Hq & Hs);
    cbn [with_ui ui inflight onstop_queued session] in Hu, Hi, Hq, Hs.
  - pose proof (art_and_speech_page env a (snd (publish_analysis a wa))) as Hpb.
    destruct (art_and_speech env a (snd (publish_analysis a wa)))
      as [[[art_data speech_data] | e | ] ws]; cbn [snd] in Hpb;
      apply page_fields in Hpb; destruct Hpb as (Hu' & Hi' & Hq' & Hs');
      cbn in Hu', Hi', Hq', Hs'.
    + rewrite showcase_unfold.
      match goal with
      | |- context [generateVideo env fuel ?p ?x] =>
          pose proof (generateVideo_page env fuel p x) as Hpv;
          destruct (generateVideo env fuel p x) as [o wv]
      end.
      cbn [snd] in Hpv. apply page_fields in Hpv.
      destruct Hpv as (Hu'' & Hi'' & Hq'' & Hs''). cbn in Hu'', Hi'', Hq'', Hs''.
      cbn. rewrite Hq'', Hq', Hq, Hs'', Hs', Hs, Hi'', Hi', Hi, Hu''. cbn.
      split; [reflexivity | split; [reflexivity | right]].
      split; [reflexivity | split].
      * eexists. split; reflexivity.
      * exists o. reflexivity.
    + cbn. rewrite Hq', Hq, Hs', Hs, Hi', Hi, Hu', Hu.
      split; [reflexivity | split; [reflexivity | left]]. auto.
    + cbn. rewrite Hq', Hq, Hs', Hs, Hi', Hi, Hu', Hu.
      split; [reflexivity | split; [reflexivity | left]]. auto.
  - cbn. rewrite Hq, Hs, Hi, Hu.
    split; [reflexivity | split; [reflexivity | left]]. auto.
  - cbn. rewrite Hq, Hs, Hi, Hu.
    split; [reflexivity | split; [reflexivity | left]]. auto.
Qed.

(* ===================================================================== *)
(** ** Starting and stopping a recording *)
(* ===================================================================== *)

Lemma same_or_refl s w : same_or s w w.
Proof. left; reflexivity. Qed.

Lemma same_or_trans s w1 w2 w3 :
  same_or s w1 w2 -> same_or s w2 w3 -> same_or s w1 w3.
Proof. unfold same_or. intros [H | H] [H' | H']; rewrite ?H', ?H; auto. Qed.

(** Proves [keeps R m] for a handler [m] written with the combinators,
    given that [R] is a preorder that every request stays within; the
    setters are checked by computation. *)
Ltac handler Rr Rt Rc :=
  repeat first
    [ apply keeps_bind; [exact Rt | | intro ]
    | apply keeps_try_catch; [exact Rt | | intro ]
    | apply keeps_request; exact Rc
    | apply keeps_checkApiKey; [exact Rr | exact Rt | exact Rc]
    | apply keeps_ret; exact Rr
    | apply keeps_update; intro; cbv; auto ].

Lemma startRecording_beyond env w :
  beyond_recording (snd (startRecording env w)) = beyond_recording w.
Proof.
  assert (H : keeps (same beyond_recording) (startRecording env)).
  { unfold startRecording, start_attempt.
    handler (same_refl beyond_recording) (same_trans beyond_recording)
            (fun (c : Call) (w : World) => eq_refl (beyond_recording w)). }
  apply H.
Qed.

Lemma startRecording_state env w :
  same_or RECORDING w (snd (startRecording env w)).
Proof.
  assert (H : keeps (same_or RECORDING) (startRecording env)).
  { unfold startRecording, start_attempt.
    handler (same_or_refl RECORDING) (same_or_trans RECORDING)
            (fun (c : Call) (w : World) => same_or_refl RECORDING w). }
  apply H.
Qed.

Lemma stop_tracks_page ts : forall w, page (snd (stop_tracks ts w)) = page w.
Proof.
  induction ts as [ | t ts IH]; intro w; simpl; [reflexivity | ].
  unfold bind, request. simpl. rewrite IH. reflexivity.
Qed.

Lemma stop_tracks_resolves ts : forall w, fst (stop_tracks ts w) = Resolved tt.
Proof.
  induction ts as [ | t ts IH]; intro w; simpl; [reflexivity | ].
  unfold bind, request. simpl. apply IH.
Qed.

Lemma stopRecording_unfold w :
  stopRecording w =
  match mediaRecorder (ui w) with
  | Some r =>
      match recorder_state r with
      | recording =>
          let w1 :=
            with_onstop true
              (with_ui (setMediaRecorder
                          (Some {| recorder_stream := recorder_stream r;
                                   recorder_state := inactive |}))
                 (with_call recorder_stop w)) in
          let ts := match stream (ui w) with
                    | Some s => tracks s
                    | None => []
                    end in
          (Resolved tt,
           with_ui (setState ANALYZING)
             (with_ui (setStream None) (snd (stop_tracks ts w1))))
      | inactive => (Resolved tt, w)
      end
  | None => (Resolved tt, w)
  end.
Proof.
  unfold stopRecording.
  destruct (mediaRecorder (ui w)) as [r | ]; [ | reflexivity].
  destruct (recorder_state r); [reflexivity | ].
  cbv zeta. unfold bind, request, update. cbn [fst snd].
  match goal with
  | |- context [stop_tracks ?ts ?x] =>
      pose proof (stop_tracks_resolves ts x) as Hr;
      destruct (stop_tracks ts x) as [o wt]
  end.
  cbn [fst snd] in *. subst o. reflexivity.
Qed.

(** A click on the stop button either does nothing (no active recorder)
    or queues the recorder's [stop] event and moves to [ANALYZING]. *)
Lemma stopRecording_summary w :
  let w' := snd (stopRecording w) in
  inflight w' = inflight w /\ session w' = session w
  /\ assets (ui w') = assets (ui w)
  /\ (w' = w \/ (state (ui w') = ANALYZING /\ onstop_queued w' = true)).
Proof.
  rewrite stopRecording_unfold.
  destruct (mediaRecorder (ui w)) as [r | ]; [ | simpl; auto].
  destruct (recorder_state r); [simpl; auto | ].
  cbv zeta.
  match goal with
  | |- context [stop_tracks ?ts ?x] =>
      pose proof (stop_tracks_page ts x) as Hp;
      destruct (stop_tracks ts x) as [o wt]
  end.
  cbn [fst snd] in Hp.
  apply page_fields in Hp. destruct Hp as (Hu & Hi & Hq & Hs).
  cbn in Hu, Hi, Hq, Hs.
  cbn. rewrite Hu, Hi, Hq, Hs. cbn. auto 6.
Qed.

(* ===================================================================== *)
(** ** Invariants of the page *)
(* ===================================================================== *)

Lemma In_remove_nth {A} (x : A) i : forall l, In x (remove_nth i l) -> In x l.
Proof.
  induction i as [ | i IH]; intros [ | y l]; simpl; auto.
  intros [H | H]; auto.
Qed.

Lemma video_then_state u a : state (video_then u a) = state a.
Proof.
  destruct u as [s | ]; simpl; [ | reflexivity].
  destruct (truthy s); reflexivity.
Qed.

Lemma video_then_error u a : error (video_then u a) = error a.
Proof.
  destruct u as [s | ]; simpl; [ | reflexivity].
  destruct (truthy s); reflexivity.
Qed.

(** The callback never publishes assets where there were none. *)
Lemma video_then_no_assets u a :
  assets a = None -> video_then u a = a.
Proof.
  intro H. destruct u as [s | ]; simpl; [ | reflexivity].
  destruct (truthy s); [ | reflexivity].
  destruct a; simpl in *. subst. reflexivity.
Qed.

Lemma initial_invariant : invariant initial_World.
Proof.
  repeat split; simpl; try congruence; try discriminate; contradiction.
Qed.

Lemma step_invariant ev w w' :
  invariant w -> step ev w = Some w' -> invariant w'.
Proof.
  intros Hinv Hstep. pose proof Hinv as (Ha & Hq & Ht).
  destruct ev as [env | chunk | env fuel | | i]; simpl in Hstep.
  - (* the round button *)
    destruct (state (ui w)) eqn:Hst; try discriminate;
      injection Hstep as Hw'; subst w'.
    + pose proof (startRecording_beyond env w) as Hb.
      pose proof (startRecording_state env w) as Hs.
      unfold beyond_recording in Hb. injection Hb as Hb1 Hb2 Hb3 Hb4 Hb5 Hb6.
      unfold invariant. rewrite Hb1, Hb4, Hb5, Hb6.
      split; [ | split; [ | exact Ht]].
      * intro H. apply Ha in H. discriminate.
      * intro H. apply Hq in H. discriminate.
    + destruct (stopRecording_summary w) as (Hi & Hs & Has & [Hsame | [Hst' Hq']]).
      * rewrite Hsame. exact Hinv.
      * unfold invariant. rewrite Hi, Hs, Has.
        split; [ | split; [ | exact Ht]]; auto.
        intro H. apply Ha in H. congruence.
  - (* a chunk of audio *)
    destruct (recorder_delivers w); [ | discriminate].
    injection Hstep as Hw'; subst w'.
    destruct (truthy chunk); repeat split; auto; apply Ht; assumption.
  - (* the recorder has stopped *)
    destruct (onstop_queued w) eqn:Hqueued; [ | discriminate].
    injection Hstep as Hw'; subst w'.
    specialize (Hq eq_refl).
    assert (Hnone : assets (ui w) = None).
    { destruct (assets (ui w)) eqn:E; [ | reflexivity].
      assert (state (ui w) = SHOWCASE) by (apply Ha; discriminate).
      congruence. }
    destruct (handleRecordingStop_summary env fuel (with_onstop false w))
      as (Hq' & Hs' & [(Hi & Has & _) | (Hst & _ & o & Hi)]);
      simpl in Hq', Hs', Hi; unfold invariant; rewrite Hq', Hs', Hi.
    + simpl in Has. rewrite Has, Hnone.
      split; [congruence | split; [discriminate | exact Ht]].
    + split; [auto | split; [discriminate | ]].
      intros t Hin. apply in_app_or in Hin.
      destruct Hin as [Hin | [Heq | []]]; [apply Ht; assumption | ].
      subst t. simpl. lia.
  - (* reset *)
    assert (Hnq : onstop_queued w = false).
    { destruct (onstop_queued w); [ | reflexivity].
      specialize (Hq eq_refl).
      destruct (state (ui w)); discriminate. }
    destruct (state (ui w)); try discriminate;
      injection Hstep as Hw'; subst w'; unfold invariant; simpl;
      rewrite Hnq;
      (split; [congruence | split; [discriminate | ]]);
      intros t Hin; specialize (Ht t Hin); lia.
  - (* a video task has settled *)
    destruct (nth_error (inflight w) i) as [t | ] eqn:Hnth; [ | discriminate].
    destruct (settles_with t) as [u | e | ] eqn:Hset; try discriminate;
      injection Hstep as Hw'; subst w'; unfold invariant; simpl.
    + rewrite video_then_state.
      split; [ | split; [exact Hq | ]].
      * intro H. apply Ha. intro Hn. apply H.
        rewrite (video_then_no_assets u (ui w) Hn). exact Hn.
      * intros t' Hin. apply Ht. eapply In_remove_nth; eassumption.
    + split; [exact Ha | split; [exact Hq | ]].
      intros t' Hin. apply Ht. eapply In_remove_nth; eassumption.
Qed.

Lemma run_invariant evs :
  forall w w', invariant w -> run evs w = Some w' -> invariant w'.
Proof.
  induction evs as [ | ev evs IH]; intros w w' Hinv Hrun; simpl in Hrun.
  - injection Hrun as Hw. subst. exact Hinv.
  - destruct (step ev w) as [w1 | ] eqn:Hstep; [ | discriminate].
    apply (IH w1 w'); [ | exact Hrun].
    eapply step_invariant; eassumption.
Qed.

Lemma reachable_invariant evs w :
  run evs initial_World = Some w -> invariant w.
Proof. apply run_invariant, initial_invariant. Qed.

(* ===================================================================== *)
(** ** Counting the patches of the video reference *)
(* ===================================================================== *)

Lemma tasks_of_app n l l' : tasks_of n (l ++ l') = tasks_of n l + tasks_of n l'.
Proof. unfold tasks_of. rewrite filter_app, length_app. reflexivity. Qed.

Lemma tasks_of_remove_nth n i :
  forall l t, nth_error l i = Some t ->
  tasks_of n l
  = tasks_of n (remove_nth i l) + (if Nat.eqb (spawned_in t) n then 1 else 0).
Proof.
  induction i as [ | i IH]; intros [ | x l] t H; simpl in H; try discriminate.
  - injection H as Hx. subst x. unfold tasks_of. simpl.
    destruct (Nat.eqb (spawned_in t) n); simpl; lia.
  - specialize (IH l t H). unfold tasks_of in *. simpl.
    destruct (Nat.eqb (spawned_in x) n); simpl; lia.
Qed.

Lemma may_still_spawn_le n w : may_still_spawn n w <= 1.
Proof.
  unfold may_still_spawn.
  destruct (Nat.ltb (session w) n); [lia | ].
  destruct (Nat.eqb n (session w)); [ | lia].
  destruct (state (ui w)); try lia.
  destruct (onstop_queued w); lia.
Qed.

(** Every step pays for the patch it makes: a session's pending tasks
    and its right to start one never grow beyond what a patch uses up. *)
Lemma step_budget n ev w w' :
  invariant w -> step ev w = Some w' ->
  count_occ Nat.eq_dec (patching_session ev w) n
  + tasks_of n (inflight w') + may_still_spawn n w'
  <= tasks_of n (inflight w) + may_still_spawn n w.
Proof.
  intros Hinv Hstep. pose proof Hinv as (Ha & Hq & Ht).
  destruct ev as [env | chunk | env fuel | | i]; simpl in Hstep.
  - destruct (state (ui w)) eqn:Hst; try discriminate;
      injection Hstep as Hw'; subst w'; simpl.
    + pose proof (startRecording_beyond env w) as Hb.
      pose proof (startRecording_state env w) as Hs.
      unfold beyond_recording in Hb. injection Hb as Hb1 Hb2 Hb3 Hb4 Hb5 Hb6.
      unfold may_still_spawn. rewrite Hb4, Hb5, Hb6, Hst.
      destruct (Nat.ltb (session w) n); [lia | ].
      destruct (Nat.eqb n (session w)); [ | lia].
      destruct Hs as [Hs | Hs]; rewrite Hs, ?Hst; lia.
    + destruct (stopRecording_summary w) as (Hi & Hs & Has & [Hsame | [Hst' Hq']]).
      * rewrite Hsame. lia.
      * unfold may_still_spawn. rewrite Hi, Hs, Hst', Hq', Hst.
        destruct (Nat.ltb (session w) n); [lia | ].
        destruct (Nat.eqb n (session w)); lia.
  - destruct (recorder_delivers w); [ | discriminate].
    injection Hstep as Hw'; subst w'; simpl.
    destruct (truthy chunk); unfold may_still_spawn; simpl; lia.
  - destruct (onstop_queued w) eqn:Hqueued; [ | discriminate].
    injection Hstep as Hw'; subst w'; simpl.
    specialize (Hq eq_refl).
    destruct (handleRecordingStop_summary env fuel (with_onstop false w))
      as (Hq' & Hs' & [(Hi & _ & Hst) | (Hst & _ & o & Hi)]);
      simpl in Hq', Hs', Hi, Hst; unfold may_still_spawn;
      rewrite Hq', Hs', Hi, Hq, Hqueued.
    + destruct (Nat.ltb (session w) n); [lia | ].
      destruct (Nat.eqb n (session w)); [ | lia].
      rewrite Hq in Hst.
      destruct Hst as [Hst | [Hst | Hst]]; rewrite Hst; lia.
    + rewrite tasks_of_app, Hst. unfold tasks_of at 2. simpl.
      rewrite (Nat.eqb_sym (session w) n).
      destruct (Nat.ltb_spec (session w) n) as [Hlt | Hge].
      * replace (Nat.eqb n (session w)) with false
          by (symmetry; apply Nat.eqb_neq; lia).
        simpl. lia.
      * destruct (Nat.eqb n (session w)); simpl; lia.
  - assert (Hnq : onstop_queued w = false).
    { destruct (onstop_queued w); [ | reflexivity].
      specialize (Hq eq_refl).
      destruct (state (ui w)); discriminate. }
    assert (Hmay : may_still_spawn n w = if Nat.ltb (session w) n then 1 else 0).
    { unfold may_still_spawn.
      destruct (Nat.ltb (session w) n); [reflexivity | ].
      destruct (Nat.eqb n (session w)); [ | reflexivity].
      destruct (state (ui w)); try discriminate; reflexivity. }
    assert (Hw' : w' = next_session (snd (reset w))).
    { destruct (state (ui w)); try discriminate;
        injection Hstep as Hw'; subst w'; reflexivity. }
    rewrite Hmay, Hw'. unfold may_still_spawn. simpl.
    destruct (Nat.ltb_spec (session w) n) as [Hlt | Hge].
    + destruct (Nat.ltb (S (session w)) n); [lia | ].
      destruct (Nat.eqb n (S (session w))); lia.
    + replace (Nat.ltb (S (session w)) n) with false
        by (symmetry; apply Nat.ltb_ge; lia).
      replace (Nat.eqb n (S (session w))) with false
        by (symmetry; apply Nat.eqb_neq; lia).
      lia.
  - destruct (nth_error (inflight w) i) as [t | ] eqn:Hnth; [ | discriminate].
    rewrite (tasks_of_remove_nth n i (inflight w) t Hnth).
    assert (Hcount :
      count_occ Nat.eq_dec
        (match assets (ui w) with
         | Some _ =>
             match settles_with t with
             | Resolved (Some u) => if truthy u then [spawned_in t] else []
             | _ => []
             end
         | None => []
         end) n
      <= if Nat.eqb (spawned_in t) n then 1 else 0).
    { destruct (assets (ui w)); [ | simpl; lia].
      destruct (settles_with t) as [[u | ] | e | ]; try (simpl; lia).
      destruct (truthy u); [ | simpl; lia].
      simpl. destruct (Nat.eq_dec (spawned_in t) n) as [Heq | Hne].
      - rewrite (proj2 (Nat.eqb_eq _ _) Heq). lia.
      - lia. }
    unfold patching_session. rewrite Hnth.
    assert (Hmay : may_still_spawn n w' = may_still_spawn n w).
    { destruct (settles_with t) as [u | e | ]; try discriminate;
        injection Hstep as Hw'; subst w'; unfold may_still_spawn; simpl;
        rewrite ?video_then_state; reflexivity. }
    assert (Hin : inflight w' = remove_nth i (inflight w)).
    { destruct (settles_with t) as [u | e | ]; try discriminate;
        injection Hstep as Hw'; subst w'; reflexivity. }
    rewrite Hmay, Hin. lia.
Qed.

Lemma patches_budget n evs :
  forall w, invariant w ->
  count_occ Nat.eq_dec (patches evs w) n
  <= tasks_of n (inflight w) + may_still_spawn n w.
Proof.
  induction evs as [ | ev evs IH]; intros w Hinv; simpl; [lia | ].
  destruct (step ev w) as [w' | ] eqn:Hstep; [ | simpl; lia].
  rewrite count_occ_app.
  pose proof (step_budget n ev w w' Hinv Hstep) as Hb.
  pose proof (IH w' (step_invariant ev w w' Hinv Hstep)) as Hrec.
  lia.
Qed.

(* ===================================================================== *)
(** ** The claims *)
(* ===================================================================== *)

(** C4: image generation asks the high-fidelity model first.  When that
    attempt succeeds nothing else is asked.  When it fails, by an
    exception or by a response without image data, the flash model is
    asked exactly once, with the same prompt and the same aspect ratio;
    the call rejects only when both tiers failed.  And a pipeline whose
    first tier fails while the fallback and the speech succeed ends in
    the showcase. *)
Theorem C4_art_two_tiers env prompt w :
  let hq := high_quality_request prompt in
  let fl := flash_image_request prompt in
  let r1 := on_generateContent env (calls w) hq in
  let w1 := with_call (generateContent hq) w in
  let r2 := on_generateContent env (calls w1) fl in
  let r := generateArt env prompt w in
  (exists l, new_calls w (snd r) = generateContent hq :: l)
  /\ (forall resp d, r1 = Resolved resp -> image_part resp = Some d ->
      r = (Resolved (data d), w1) /\ new_calls w (snd r) = [generateContent hq])
  /\ (tier_failed r1 = true ->
      new_calls w (snd r) = [generateContent hq; generateContent fl]
      /\ (forall resp d, r2 = Resolved resp -> image_part resp = Some d ->
          fst r = Resolved (data d))
      /\ (tier_failed r2 = true -> is_rejected (fst r) = true))
  /\ (exists c1 c2,
        hq = ImageGeneration "gemini-3-pro-image-preview" prompt c1
        /\ fl = ImageGeneration "gemini-2.5-flash-image" prompt c2
        /\ aspectRatio c1 = aspectRatio c2)
  /\ (is_rejected (fst r) = true ->
      tier_failed r1 = true /\ tier_failed r2 = true)
  /\ (forall fuel w0 a wa resp d speech ws,
        analysis_step env w0 = (Resolved a, wa) ->
        snd (publish_analysis a wa) = w ->
        art_prompt (art a) = prompt ->
        tier_failed r1 = true ->
        r2 = Resolved resp -> image_part resp = Some d ->
        generateSpeech env (narrative (story a)) (voice_name (tts a)) (snd r)
        = (Resolved speech, ws) ->
        state (ui (snd (handleRecordingStop env fuel w0))) = SHOWCASE).
Proof.
  intros hq fl r1 w1 r2 r.
  assert (Hr : r = generateArt env prompt w) by reflexivity.
  rewrite generateArt_unfold in Hr. cbv zeta in Hr.
  fold hq fl in Hr. fold w1 in Hr. fold r1 r2 in Hr.
  assert (Hw1 : new_calls w w1 = [generateContent hq]).
  { apply new_calls_app. reflexivity. }
  assert (Hw2 : new_calls w (with_call (generateContent fl) w1)
                = [generateContent hq; generateContent fl]).
  { apply new_calls_app. simpl. rewrite <- app_assoc. reflexivity. }
  assert (Hfallback :
    tier_failed r1 = true ->
    r = match r2 with
        | Resolved resp =>
            match image_part resp with
            | Some d => (Resolved (data d), with_call (generateContent fl) w1)
            | None => (Rejected (new_Error "Image generation failed"),
                       with_call (generateContent fl) w1)
            end
        | Rejected e => (Rejected e, with_call (generateContent fl) w1)
        | Pending => (Pending, with_call (generateContent fl) w1)
        end).
  { intro Hf. rewrite Hr. unfold tier_failed in Hf.
    destruct r1 as [resp | e | ]; try discriminate; try reflexivity.
    destruct (image_part resp); [discriminate | reflexivity]. }
  assert (Hsnd : tier_failed r1 = true ->
                 snd r = with_call (generateContent fl) w1).
  { intro Hf. rewrite (Hfallback Hf).
    destruct r2 as [resp | e | ]; try reflexivity.
    destruct (image_part resp); reflexivity. }
  split; [ | split; [ | split; [ | split; [ | split]]]].
  - destruct (tier_failed r1) eqn:Hf.
    + rewrite (Hsnd eq_refl), Hw2. eexists; reflexivity.
    + assert (Hs : snd r = w1).
      { rewrite Hr. unfold tier_failed in Hf.
        destruct r1 as [resp | e | ]; try discriminate; try reflexivity.
        destruct (image_part resp); [reflexivity | discriminate]. }
      rewrite Hs, Hw1. eexists; reflexivity.
  - intros resp d H1 Hd. rewrite Hr, H1, Hd. simpl. auto.
  - intro Hf. rewrite (Hsnd Hf), Hw2.
    split; [reflexivity | split].
    + intros resp d H2 Hd. rewrite (Hfallback Hf), H2, Hd. reflexivity.
    + intro Hf2. rewrite (Hfallback Hf). unfold tier_failed in Hf2.
      destruct r2 as [resp | e | ]; try discriminate; try reflexivity.
      destruct (image_part resp); [discriminate | reflexivity].
  - do 2 eexists. repeat split.
  - apply generateArt_rejected.
  - intros fuel w0 a wa resp d speech ws Han Hpub Hprompt Hf H2 Hd Hsp.
    rewrite handleRecordingStop_unfold, Han, Hpub, art_and_speech_unfold, Hprompt.
    fold r. rewrite (surjective_pairing r) at 1.
    rewrite Hsp.
    assert (Hfst : fst r = Resolved (data d)).
    { rewrite (Hfallback Hf), H2, Hd. reflexivity. }
    rewrite Hfst. rewrite showcase_unfold. cbn [snd].
    match goal with
    | |- context [generateVideo env fuel ?p ?x] =>
        pose proof (generateVideo_page env fuel p x) as Hpv;
        destruct (generateVideo env fuel p x) as [o wv]
    end.
    cbn [snd] in Hpv. apply page_fields in Hpv. destruct Hpv as (Hu & _).
    cbn. rewrite Hu. reflexivity.
Qed.

(** The pipeline once the analysis is there, by the outcomes of the art
    call and of the speech call. *)
Lemma pipeline_after_analysis env fuel w a wa oa wart os ws :
  analysis_step env w = (Resolved a, wa) ->
  generateArt env (art_prompt (art a)) (snd (publish_analysis a wa)) = (oa, wart) ->
  generateSpeech env (narrative (story a)) (voice_name (tts a)) wart = (os, ws) ->
  page ws = page (snd (publish_analysis a wa))
  /\ handleRecordingStop env fuel w =
     match oa, os with
     | Rejected ea, Rejected eb =>
         generation_failed (if first_rejects_first env then ea else eb) ws
     | Rejected ea, _ => generation_failed ea ws
     | _, Rejected eb => generation_failed eb ws
     | Resolved x, Resolved y => showcase env fuel a (x, y) ws
     | _, _ => (Pending, ws)
     end.
Proof.
  intros Han Hart Hsp. split.
  - pose proof (generateArt_page env (art_prompt (art a))
                  (snd (publish_analysis a wa))) as H1.
    pose proof (generateSpeech_page env (narrative (story a))
                  (voice_name (tts a)) wart) as H2.
    rewrite Hart in H1. rewrite Hsp in H2. cbn [snd] in H1, H2. congruence.
  - rewrite handleRecordingStop_unfold, Han, art_and_speech_unfold, Hart, Hsp.
    destruct oa as [x | ea | ], os as [y | eb | ]; reflexivity.
Qed.

(** The page when the fan-out starts: the personality of the analysis
    is published, nothing else of the session is. *)
Lemma publish_analysis_ui env w a wa :
  analysis_step env w = (Resolved a, wa) ->
  let wp := snd (publish_analysis a wa) in
  state (ui wp) = GENERATING_ASSETS
  /\ personality (ui wp) = Some (Types.personality a)
  /\ assets (ui wp) = assets (ui w)
  /\ error (ui wp) = error (ui w)
  /\ inflight wp = inflight w
  /\ onstop_queued wp = onstop_queued w
  /\ session wp = session w.
Proof.
  intros Han wp.
  pose proof (analysis_step_page env w) as Hp. rewrite Han in Hp.
  cbn [snd] in Hp. apply page_fields in Hp.
  destruct Hp as (Hu & Hi & Hq & Hs). cbn in Hu, Hi, Hq, Hs.
  subst wp. cbn. rewrite Hu, Hi, Hq, Hs. cbn. repeat split.
Qed.

Lemma showcase_ui env fuel a x y ws :
  let w' := snd (showcase env fuel a (x, y) ws) in
  ui w' = setState SHOWCASE (setAssets (fun _ => Some (initialAssets a x y)) (ui ws))
  /\ exists o, inflight w' = inflight ws ++ [ {| spawned_in := session ws;
                                                 settles_with := o |} ].
Proof.
  rewrite showcase_unfold. cbn [snd].
  match goal with
  | |- context [generateVideo env fuel ?p ?z] =>
      pose proof (generateVideo_page env fuel p z) as Hpv;
      destruct (generateVideo env fuel p z) as [o wv]
  end.
  cbn [snd] in Hpv. apply page_fields in Hpv.
  destruct Hpv as (Hu & Hi & Hq & Hs). cbn in Hu, Hi, Hq, Hs.
  cbn. rewrite Hu, Hi, Hs. split; [reflexivity | ]. exists o. reflexivity.
Qed.

(** A queued [stop] event is handled in [ANALYZING], with no assets. *)
Lemma onstop_precondition evs w env fuel w' :
  run evs initial_World = Some w ->
  step (recorder_onstop env fuel) w = Some w' ->
  w' = snd (handleRecordingStop env fuel (with_onstop false w))
  /\ state (ui w) = ANALYZING /\ assets (ui w) = None.
Proof.
  intros Hrun Hstep.
  destruct (reachable_invariant evs w Hrun) as (Ha & Hq & _).
  simpl in Hstep.
  destruct (onstop_queued w); [ | discriminate].
  injection Hstep as Hw'. specialize (Hq eq_refl).
  split; [congruence | split; [exact Hq | ]].
  destruct (assets (ui w)) eqn:E; [ | reflexivity].
  assert (state (ui w) = SHOWCASE) by (apply Ha; discriminate).
  congruence.
Qed.

(** C1: when the recorder's [stop] event is handled, the showcase is
    entered only if the analysis, the art call and the speech call all
    resolved, and then the assets are the complete record of their
    results.  If the art call rejects (which takes the failure of both
    tiers) or the speech call rejects, the phase is [ERROR], the assets
    are null and no video task is started. *)
Theorem C1_joint_barrier evs w env fuel w' :
  run evs initial_World = Some w ->
  step (recorder_onstop env fuel) w = Some w' ->
  (state (ui w') = SHOWCASE ->
   exists a wa art_data wart speech_data ws,
     analysis_step env (with_onstop false w) = (Resolved a, wa)
     /\ generateArt env (art_prompt (art a)) (snd (publish_analysis a wa))
        = (Resolved art_data, wart)
     /\ generateSpeech env (narrative (story a)) (voice_name (tts a)) wart
        = (Resolved speech_data, ws)
     /\ assets (ui w') = Some (initialAssets a art_data speech_data))
  /\ (forall a wa oa wart os ws,
      analysis_step env (with_onstop false w) = (Resolved a, wa) ->
      generateArt env (art_prompt (art a)) (snd (publish_analysis a wa))
      = (oa, wart) ->
      generateSpeech env (narrative (story a)) (voice_name (tts a)) wart
      = (os, ws) ->
      is_rejected oa = true \/ is_rejected os = true ->
      state (ui w') = ERROR /\ assets (ui w') = None
      /\ inflight w' = inflight w)
  /\ (forall a wa,
      analysis_step env (with_onstop false w) = (Resolved a, wa) ->
      let wp := snd (publish_analysis a wa) in
      let hq := high_quality_request (art_prompt (art a)) in
      is_rejected (fst (generateArt env (art_prompt (art a)) wp)) = true ->
      tier_failed (on_generateContent env (calls wp) hq) = true
      /\ tier_failed (on_generateContent env
                        (calls (with_call (generateContent hq) wp))
                        (flash_image_request (art_prompt (art a)))) = true).
Proof.
  intros Hrun Hstep.
  destruct (onstop_precondition evs w env fuel w' Hrun Hstep)
    as (Hw' & Hst & Hnone).
  set (w0 := with_onstop false w) in *.
  split; [ | split].
  - intro Hshow.
    pose proof (analysis_step_page env w0) as Hpa.
    destruct (analysis_step env w0) as [[a | e | ] wa] eqn:Han.
    + destruct (generateArt env (art_prompt (art a)) (snd (publish_analysis a wa)))
        as [oa wart] eqn:Hart.
      destruct (generateSpeech env (narrative (story a)) (voice_name (tts a)) wart)
        as [os ws] eqn:Hsp.
      destruct (pipeline_after_analysis env fuel w0 a wa oa wart os ws Han Hart Hsp)
        as (Hpage & Hrun').
      destruct (publish_analysis_ui env w0 a wa Han) as (Hg & _).
      apply page_fields in Hpage. destruct Hpage as (Hu & _).
      rewrite Hw', Hrun' in Hshow.
      destruct oa as [x | ea | ], os as [y | eb | ];
        try (cbn in Hshow; rewrite ?Hu, ?Hg in Hshow; discriminate).
      exists a, wa, x, wart, y, ws.
      split; [reflexivity | split; [exact Hart | split; [exact Hsp | ]]].
      rewrite Hw', Hrun'.
      destruct (showcase_ui env fuel a x y ws) as (Hui & _).
      rewrite Hui. reflexivity.
    + rewrite Hw', handleRecordingStop_unfold, Han in Hshow. discriminate.
    + rewrite Hw', handleRecordingStop_unfold, Han in Hshow.
      cbn [snd] in Hpa, Hshow. apply page_fields in Hpa.
      destruct Hpa as (Hu & _). rewrite Hu in Hshow. cbn in Hshow.
      congruence.
  - intros a wa oa wart os ws Han Hart Hsp Hrej.
    destruct (pipeline_after_analysis env fuel w0 a wa oa wart os ws Han Hart Hsp)
      as (Hpage & Hrun').
    destruct (publish_analysis_ui env w0 a wa Han)
      as (_ & _ & Has & _ & Hi & _).
    apply page_fields in Hpage. destruct Hpage as (Hu & Hi' & _).
    rewrite Hw', Hrun'.
    destruct oa as [x | ea | ], os as [y | eb | ];
      destruct Hrej as [Hrej | Hrej]; try discriminate;
      cbn; rewrite Hu, Hi', Has, Hi; auto.
  - intros a wa Han wp hq. apply generateArt_rejected.
Qed.

(** C9: when the analysis resolved and the speech call rejects, the
    page after the handler is the page as it was published for the
    fan-out, with only the error message and the phase changed: the
    phase is [ERROR], the personality is still the one of the analysis,
    the assets are still null, and no video task is started. *)
Theorem C9_speech_failure_frame evs w env fuel w' a wa e ws :
  run evs initial_World = Some w ->
  step (recorder_onstop env fuel) w = Some w' ->
  analysis_step env (with_onstop false w) = (Resolved a, wa) ->
  let wp := snd (publish_analysis a wa) in
  let art_result := generateArt env (art_prompt (art a)) wp in
  generateSpeech env (narrative (story a)) (voice_name (tts a)) (snd art_result)
  = (Rejected e, ws) ->
  (exists msg, ui w' = setState ERROR (setError (Some msg) (ui wp))
               /\ (is_rejected (fst art_result) = false ->
                   msg = or_default (message e) generation_error))
  /\ state (ui w') = ERROR
  /\ personality (ui wp) = Some (Types.personality a)
  /\ personality (ui w') = Some (Types.personality a)
  /\ assets (ui w') = None
  /\ statusMessage (ui w') = statusMessage (ui wp)
  /\ stream (ui w') = stream (ui wp)
  /\ mediaRecorder (ui w') = mediaRecorder (ui wp)
  /\ chunksRef (ui w') = chunksRef (ui wp)
  /\ inflight w' = inflight w.
Proof.
  intros Hrun Hstep Han wp art_result Hsp.
  destruct (onstop_precondition evs w env fuel w' Hrun Hstep)
    as (Hw' & Hst & Hnone).
  destruct art_result as [oa wart] eqn:Hart. cbn [fst snd] in *.
  destruct (pipeline_after_analysis env fuel (with_onstop false w)
              a wa oa wart (Rejected e) ws Han Hart Hsp) as (Hpage & Hrun').
  destruct (publish_analysis_ui env (with_onstop false w) a wa Han)
    as (_ & Hp & Has & _ & Hi & _).
  fold wp in Hpage, Hp, Has, Hi.
  apply page_fields in Hpage. destruct Hpage as (Hu & Hi' & _).
  clear Hart. clearbody wp.
  assert (Hui : exists msg,
            ui w' = setState ERROR (setError (Some msg) (ui wp))
            /\ inflight w' = inflight wp
            /\ (is_rejected oa = false ->
                msg = or_default (message e) generation_error)).
  { rewrite Hw', Hrun'.
    destruct oa as [x | ea | ]; cbn; rewrite Hu, Hi'; eexists;
      (split; [reflexivity | split; [reflexivity | ]]);
      intro H; try reflexivity; discriminate. }
  destruct Hui as (msg & Hui & Hinf & Hmsg).
  split; [exists msg; auto | ].
  rewrite Hui, Hinf. cbn. rewrite Hp, Has, Hi. cbn. auto 10.
Qed.

(* ===================================================================== *)
(** ** The first steps of [startRecording] *)
(* ===================================================================== *)

Lemma checkApiKey_unfold env w :
  checkApiKey env w =
  match window_aistudio env with
  | Some aistudio =>
      if has_hasSelectedApiKey aistudio then
        match on_hasSelectedApiKey env (calls w) with
        | Resolved hasKey =>
            if negb hasKey && has_openSelectKey aistudio
            then (on_openSelectKey env (calls w ++ [hasSelectedApiKey]),
                  with_call openSelectKey (with_call hasSelectedApiKey w))
            else (Resolved tt, with_call hasSelectedApiKey w)
        | Rejected e => (Rejected e, with_call hasSelectedApiKey w)
        | Pending => (Pending, with_call hasSelectedApiKey w)
        end
      else (Resolved tt, w)
  | None => (Resolved tt, w)
  end.
Proof.
  unfold checkApiKey.
  destruct (window_aistudio env) as [aistudio | ]; [ | reflexivity].
  destruct (has_hasSelectedApiKey aistudio); [ | reflexivity].
  unfold bind, ask_hasSelectedApiKey, ask_openSelectKey, request. simpl.
  destruct (on_hasSelectedApiKey env (calls w)) as [hasKey | e | ];
    try reflexivity.
  destruct (negb hasKey && has_openSelectKey aistudio); reflexivity.
Qed.

Lemma start_attempt_unfold env w :
  start_attempt env w =
  match checkApiKey env w with
  | (Resolved _, wc) =>
      match on_getUserMedia env (calls wc) with
      | Resolved audioStream =>
          let w1 := with_ui (setStream (Some audioStream))
                      (with_call getUserMedia wc) in
          match on_new_MediaRecorder env (calls w1) audioStream with
          | Resolved _ =>
              let w2 := with_ui (set_chunksRef [])
                          (with_call (new_MediaRecorder audioStream) w1) in
              match on_recorder_start env (calls w2) with
              | Resolved _ =>
                  (Resolved tt,
                   with_ui (setError None)
                     (with_ui (setState RECORDING)
                        (with_ui (setMediaRecorder
                                    (Some {| recorder_stream := audioStream;
                                             recorder_state := recording |}))
                           (with_call recorder_start w2))))
              | Rejected e => (Rejected e, with_call recorder_start w2)
              | Pending => (Pending, with_call recorder_start w2)
              end
          | Rejected e => (Rejected e, with_call (new_MediaRecorder audioStream) w1)
          | Pending => (Pending, with_call (new_MediaRecorder audioStream) w1)
          end
      | Rejected e => (Rejected e, with_call getUserMedia wc)
      | Pending => (Pending, with_call getUserMedia wc)
      end
  | (Rejected e, wc) => (Rejected e, wc)
  | (Pending, wc) => (Pending, wc)
  end.
Proof.
  unfold start_attempt. unfold bind at 1.
  destruct (checkApiKey env w) as [[[] | e | ] wc]; reflexivity.
Qed.

(** An attempt that throws has not touched the phase. *)
Lemma start_attempt_rejected env w e :
  fst (start_attempt env w) = Rejected e ->
  state (ui (snd (start_attempt env w))) = state (ui w).
Proof.
  rewrite start_attempt_unfold.
  pose proof (checkApiKey_page env w) as Hp.
  destruct (checkApiKey env w) as [[[] | e' | ] wc]; cbn [snd] in Hp;
    apply page_fields in Hp; destruct Hp as (Hu & _); intro H;
    try discriminate; try (cbn; rewrite Hu; reflexivity).
  destruct (on_getUserMedia env (calls wc)) as [audioStream | e' | ];
    try discriminate; try (cbn; rewrite Hu; reflexivity).
  cbv zeta in *.
  destruct (on_new_MediaRecorder env _ audioStream) as [[] | e' | ];
    try discriminate; try (cbn; rewrite Hu; reflexivity).
  destruct (on_recorder_start env _) as [[] | e' | ];
    try discriminate; cbn; rewrite Hu; reflexivity.
Qed.


(** When starting a recording throws -- the authorization check
    rejects, the microphone is refused, or any later step of the attempt
    throws -- the click leaves the phase at [IDLE] and sets the error
    message in the component state; personality and assets are not
    touched. *)
Lemma start_failure_stays_idle env w e :
  state (ui w) = IDLE ->
  fst (checkApiKey env w) = Rejected e
  \/ (fst (checkApiKey env w) = Resolved tt
      /\ on_getUserMedia env (calls (snd (checkApiKey env w))) = Rejected e)
  \/ fst (start_attempt env w) = Rejected e ->
  exists w',
    step (click_mic env) w = Some w'
    /\ fst (start_attempt env w) = Rejected e
    /\ state (ui w') = IDLE
    /\ error (ui w') = Some recording_error
    /\ assets (ui w') = assets (ui w)
    /\ personality (ui w') = personality (ui w).
Proof.
  intros Hidle Hcause.
  assert (Hrej : fst (start_attempt env w) = Rejected e).
  { destruct Hcause as [Hc | [[Hc Hm] | Hc]]; [ | | exact Hc];
      rewrite start_attempt_unfold;
      destruct (checkApiKey env w) as [[[] | e' | ] wc]; cbn [fst snd] in *;
      try discriminate; try assumption.
    rewrite Hm. reflexivity. }
  exists (snd (startRecording env w)).
  pose proof (startRecording_beyond env w) as Hb.
  unfold beyond_recording in Hb. injection Hb as Hb1 Hb2 _ _ _ _.
  split; [simpl; rewrite Hidle; reflexivity | ].
  split; [exact Hrej | ].
  pose proof (start_attempt_rejected env w e Hrej) as Hst.
  unfold startRecording, try_catch in *.
  destruct (start_attempt env w) as [[[] | e' | ] wf]; cbn [fst snd] in *;
    try discriminate.
  cbn. rewrite Hst, Hidle. cbn in Hb1, Hb2. auto.
Qed.

(** The JSX reads [error] in the block of the [ERROR] phase only: in
    [IDLE] the page is the round button and the waiting text, whatever
    the component state holds. *)
Lemma render_in_IDLE (a : App) :
  state a = IDLE ->
  render a = [RoundButton on_startRecording false; WaitingForInput].
Proof.
  intro H. unfold render, header, main, in_state. rewrite H. reflexivity.
Qed.

(** So a start that fails in [IDLE] leaves the page as it was
    rendered: the message that the [catch] block sets is not shown. *)
Lemma failed_start_not_rendered env w e :
  state (ui w) = IDLE ->
  fst (start_attempt env w) = Rejected e ->
  error (ui (snd (startRecording env w))) = Some recording_error
  /\ render (ui (snd (startRecording env w))) = render (ui w)
  /\ forall m h,
       ~ In (SystemFailure m h) (render (ui (snd (startRecording env w)))).
Proof.
  intros Hidle Hrej.
  destruct (start_failure_stays_idle env w e Hidle (or_intror (or_intror Hrej)))
    as (w' & Hstep & _ & Hst & Herr & _).
  simpl in Hstep. rewrite Hidle in Hstep. injection Hstep as Hw'. subst w'.
  split; [exact Herr | ].
  rewrite (render_in_IDLE _ Hst), (render_in_IDLE _ Hidle).
  split; [reflexivity | ].
  intros m h [H | [H | []]]; discriminate.
Qed.

(** C7 fails on the code: the user refuses the microphone on the first
    click.  The phase stays [IDLE] and the [catch] block of
    [startRecording] sets the error message in the component state, but
    the page rendered afterwards is the page rendered before -- the
    round button and the waiting text: [error] is read by the block of
    the [ERROR] phase only, which [IDLE] does not render, so the
    message is not shown to the user. *)
Theorem C7_start_failure_message_not_rendered :
  let w' := snd (startRecording no_microphone initial_World) in
  step (click_mic no_microphone) initial_World = Some w'
  /\ fst (start_attempt no_microphone initial_World) = Rejected mic_denied
  /\ state (ui w') = IDLE
  /\ error (ui w') = Some recording_error
  /\ render (ui w') = render (ui initial_World)
  /\ render (ui w') = [RoundButton on_startRecording false; WaitingForInput]
  /\ (forall m h, ~ In (SystemFailure m h) (render (ui w'))).
Proof.
  intro w'.
  destruct (failed_start_not_rendered no_microphone initial_World mic_denied
              eq_refl eq_refl) as (Herr & Hsame & Hnot).
  split; [reflexivity | ].
  split; [reflexivity | ].
  split; [reflexivity | ].
  split; [exact Herr | ].
  split; [exact Hsame | ].
  split; [reflexivity | exact Hnot].
Qed.



(** C6 (as stated): after a reset every field of the snapshot has its
    initial value.  The status message has not: after a session that
    reached the showcase, the reset page still carries the last progress
    text of the pipeline, not the initial one. *)
Lemma C6_reset_keeps_status_message :
  exists w w',
    run (one_session happy) initial_World = Some w
    /\ state (ui w) = SHOWCASE
    /\ step click_reset w = Some w'
    /\ statusMessage (ui w') = "Generating multimodal experience..."
    /\ statusMessage initial_App = "Ready to vibe"
    /\ ui w' <> initial_App.
Proof.
  eexists. eexists.
  split; [vm_compute; reflexivity | ].
  split; [reflexivity | ].
  split; [vm_compute; reflexivity | ].
  split; [reflexivity | ].
  split; [reflexivity | ].
  intro H. apply (f_equal statusMessage) in H. discriminate H.
Qed.

(** C6 (amended): a reset from [SHOWCASE] or [ERROR] restores the phase,
    the personality, the assets and the error message to their initial
    values; the status message is left as it was. *)
Theorem C6_reset_restores_session w :
  state (ui w) = SHOWCASE \/ state (ui w) = ERROR ->
  exists w',
    step click_reset w = Some w'
    /\ state (ui w') = state initial_App
    /\ personality (ui w') = personality initial_App
    /\ assets (ui w') = assets initial_App
    /\ error (ui w') = error initial_App
    /\ statusMessage (ui w') = statusMessage (ui w)
    /\ fst (reset w) = Resolved tt
    /\ ui (snd (reset (snd (reset w)))) = ui (snd (reset w)).
Proof.
  intro Hst. exists (next_session (snd (reset w))).
  split.
  - simpl. destruct Hst as [Hst | Hst]; rewrite Hst; reflexivity.
  - cbn. auto 10.
Qed.

(** C6 (amended) on a run: the reset of a failed session. *)
Lemma C6_reset_restores_session_witness :
  exists w w',
    run (one_session speech_fails) initial_World = Some w
    /\ state (ui w) = ERROR
    /\ step click_reset w = Some w'
    /\ state (ui w') = IDLE
    /\ personality (ui w') = None
    /\ assets (ui w') = None
    /\ error (ui w') = None.
Proof.
  exists (match run (one_session speech_fails) initial_World with
          | Some w => w
          | None => initial_World
          end).
  destruct (C6_reset_restores_session
              (match run (one_session speech_fails) initial_World with
               | Some w => w
               | None => initial_World
               end) (or_intror eq_refl))
    as (w' & Hstep & Hst & Hp & Ha & He & _).
  exists w'.
  split; [vm_compute; reflexivity | ].
  split; [reflexivity | ].
  split; [exact Hstep | ].
  split; [exact Hst | auto].
Defined.

Lemma step_session_le ev w w' :
  step ev w = Some w' -> session w <= session w'.
Proof.
  intro Hstep.
  destruct ev as [env | chunk | env fuel | | i]; simpl in Hstep.
  - destruct (state (ui w)); try discriminate;
      injection Hstep as Hw'; subst w'.
    + pose proof (startRecording_beyond env w) as Hb.
      unfold beyond_recording in Hb. injection Hb as _ _ _ _ _ Hs.
      rewrite Hs. lia.
    + destruct (stopRecording_summary w) as (_ & Hs & _). rewrite Hs. lia.
  - destruct (recorder_delivers w); [ | discriminate].
    injection Hstep as Hw'; subst w'. destruct (truthy chunk); simpl; lia.
  - destruct (onstop_queued w); [ | discriminate].
    injection Hstep as Hw'; subst w'.
    destruct (handleRecordingStop_summary env fuel (with_onstop false w))
      as (_ & Hs & _).
    rewrite Hs. simpl. lia.
  - destruct (state (ui w)); try discriminate;
      injection Hstep as Hw'; subst w'; simpl; lia.
  - destruct (nth_error (inflight w) i) as [t | ]; [ | discriminate].
    destruct (settles_with t); try discriminate;
      injection Hstep as Hw'; subst w'; simpl; lia.
Qed.

Lemma run_session_le evs :
  forall w w', run evs w = Some w' -> session w <= session w'.
Proof.
  induction evs as [ | ev evs IH]; intros w w' Hrun; simpl in Hrun.
  - injection Hrun as Hw. subst. lia.
  - destruct (step ev w) as [w1 | ] eqn:Hstep; [ | discriminate].
    pose proof (step_session_le ev w w1 Hstep).
    specialize (IH w1 w' Hrun). lia.
Qed.

(** A patch is made by a task of the session that is current, or of an
    earlier one. *)
Lemma patches_sessions evs :
  forall w w', invariant w -> run evs w = Some w' ->
  forall n, In n (patches evs w) -> n <= session w'.
Proof.
  induction evs as [ | ev evs IH]; intros w w' Hinv Hrun n Hin; simpl in *.
  - contradiction.
  - destruct (step ev w) as [w1 | ] eqn:Hstep; [ | discriminate].
    pose proof (run_session_le evs w1 w' Hrun) as Hmono.
    apply in_app_or in Hin. destruct Hin as [Hin | Hin].
    + pose proof (step_session_le ev w w1 Hstep) as Hle.
      destruct Hinv as (_ & _ & Ht).
      destruct ev as [env | chunk | env fuel | | i]; simpl in Hin;
        try contradiction.
      destruct (nth_error (inflight w) i) as [t | ] eqn:Hnth; [ | contradiction].
      destruct (assets (ui w)); [ | contradiction].
      destruct (settles_with t) as [[u | ] | e | ]; try contradiction.
      destruct (truthy u); [ | contradiction].
      destruct Hin as [Hin | []]. subst n.
      pose proof (Ht t (nth_error_In _ _ Hnth)) as Hle'. lia.
    + apply (IH w1 w' (step_invariant ev w w1 Hinv Hstep) Hrun n Hin).
Qed.

Lemma count_all_same (m : nat) (l : list nat) :
  (forall n, In n l -> n = m) -> length l = count_occ Nat.eq_dec l m.
Proof.
  induction l as [ | x l IH]; intro H; simpl; [reflexivity | ].
  assert (Hx : x = m) by (apply H; left; reflexivity).
  subst x. destruct (Nat.eq_dec m m) as [_ | Hne]; [ | contradiction].
  rewrite IH; [reflexivity | ].
  intros n Hn. apply H. right. exact Hn.
Qed.

(** What a session may still patch, in any state of a run. *)
Lemma run_budget n evs :
  forall w w', invariant w -> run evs w = Some w' ->
  tasks_of n (inflight w') + may_still_spawn n w'
  <= tasks_of n (inflight w) + may_still_spawn n w.
Proof.
  induction evs as [ | ev evs IH]; intros w w' Hinv Hrun; simpl in Hrun.
  - injection Hrun as Hw. subst. lia.
  - destruct (step ev w) as [w1 | ] eqn:Hstep; [ | discriminate].
    pose proof (step_budget n ev w w1 Hinv Hstep) as Hb.
    pose proof (IH w1 w' (step_invariant ev w w1 Hinv Hstep) Hrun) as Hrec.
    lia.
Qed.

(** While no reset happens, a page without tasks of earlier sessions
    stays without them. *)
Lemma step_no_stale ev w w' :
  step ev w = Some w' -> session w' = session w ->
  (forall t, In t (inflight w) -> spawned_in t = session w) ->
  forall t, In t (inflight w') -> spawned_in t = session w'.
Proof.
  intros Hstep Hs Hall t Hin. rewrite Hs.
  destruct ev as [env | chunk | env fuel | | i]; simpl in Hstep.
  - destruct (state (ui w)); try discriminate;
      injection Hstep as Hw'; subst w'.
    + pose proof (startRecording_beyond env w) as Hb.
      unfold beyond_recording in Hb. injection Hb as _ _ _ Hi _ _.
      rewrite Hi in Hin. auto.
    + destruct (stopRecording_summary w) as (Hi & _). rewrite Hi in Hin. auto.
  - destruct (recorder_delivers w); [ | discriminate].
    injection Hstep as Hw'; subst w'. destruct (truthy chunk); auto.
  - destruct (onstop_queued w); [ | discriminate].
    injection Hstep as Hw'; subst w'.
    destruct (handleRecordingStop_summary env fuel (with_onstop false w))
      as (_ & _ & [(Hi & _) | (_ & _ & o & Hi)]);
      rewrite Hi in Hin; simpl in Hin; auto.
    apply in_app_or in Hin. destruct Hin as [Hin | [Heq | []]]; auto.
    subst t. reflexivity.
  - destruct (state (ui w)); try discriminate;
      injection Hstep as Hw'; subst w'; simpl in Hs; lia.
  - destruct (nth_error (inflight w) i) as [t' | ]; [ | discriminate].
    destruct (settles_with t'); try discriminate;
      injection Hstep as Hw'; subst w'; simpl in Hin;
      apply Hall; eapply In_remove_nth; eassumption.
Qed.

Lemma patches_no_stale evs :
  forall w w', run evs w = Some w' -> session w' = session w ->
  (forall t, In t (inflight w) -> spawned_in t = session w) ->
  forall n, In n (patches evs w) -> n = session w.
Proof.
  induction evs as [ | ev evs IH]; intros w w' Hrun Hs Hall n Hin; simpl in *.
  - contradiction.
  - destruct (step ev w) as [w1 | ] eqn:Hstep; [ | discriminate].
    pose proof (step_session_le ev w w1 Hstep) as Hle1.
    pose proof (run_session_le evs w1 w' Hrun) as Hle2.
    assert (Hs1 : session w1 = session w) by lia.
    apply in_app_or in Hin. destruct Hin as [Hin | Hin].
    + destruct ev as [env | chunk | env fuel | | i]; simpl in Hin;
        try contradiction.
      destruct (nth_error (inflight w) i) as [t | ] eqn:Hnth; [ | contradiction].
      destruct (assets (ui w)); [ | contradiction].
      destruct (settles_with t) as [[u | ] | e | ]; try contradiction.
      destruct (truthy u); [ | contradiction].
      destruct Hin as [Hin | []]. subst n.
      apply Hall. eapply nth_error_In; eassumption.
    + rewrite <- Hs1. apply (IH w1 w' Hrun); [lia | | exact Hin].
      apply (step_no_stale ev w w1 Hstep Hs1 Hall).
Qed.

(** C2 (as stated): once the showcase is entered, the video reference
    of the published assets is patched at most once.  It can be patched
    twice: a first session reaches the showcase and starts its video
    task, the user resets and records a second session, which reaches
    the showcase and starts its own video task while the first one is
    still pending.  Then both tasks settle, and each writes its
    reference into the assets of the second session -- two patches of
    the same published assets, with no reset in between. *)
Lemma C2_assets_patched_twice :
  exists w w1 w2 a a1 a2,
    run two_showcases initial_World = Some w
    /\ state (ui w) = SHOWCASE
    /\ assets (ui w) = Some a /\ videoUri a = None
    /\ step (video_settled 0) w = Some w1
    /\ assets (ui w1) = Some a1
    /\ videoUri a1 = Some "https://video.example/first?alt=media&key=KEY"
    /\ step (video_settled 0) w1 = Some w2
    /\ assets (ui w2) = Some a2
    /\ videoUri a2 = Some "https://video.example/second?alt=media&key=KEY"
    /\ artPrompt a = art_prompt (art lively)
    /\ a1 = with_videoUri "https://video.example/first?alt=media&key=KEY" a
    /\ a2 = with_videoUri "https://video.example/second?alt=media&key=KEY" a
    /\ session w = 1 /\ session w2 = 1
    /\ state (ui w2) = SHOWCASE
    /\ patches [video_settled 0; video_settled 0] w = [0; 1]
    /\ ~ length (patches [video_settled 0; video_settled 0] w) <= 1.
Proof.
  do 6 eexists.
  split; [vm_compute; reflexivity | ].
  split; [reflexivity | ].
  split; [reflexivity | ].
  split; [reflexivity | ].
  split; [vm_compute; reflexivity | ].
  split; [reflexivity | ].
  split; [reflexivity | ].
  split; [vm_compute; reflexivity | ].
  split; [reflexivity | ].
  split; [reflexivity | ].
  split; [reflexivity | ].
  split; [reflexivity | ].
  split; [reflexivity | ].
  split; [reflexivity | ].
  split; [reflexivity | ].
  split; [reflexivity | ].
  split; [vm_compute; reflexivity | ].
  vm_compute. intro H. apply Nat.leb_le in H. discriminate H.
Qed.

(** On a page that is used one handler at a time, from its first
    rendering on:
    - the handler of the [stop] event enters the showcase from another
      phase and publishes assets whose video reference is null;
    - a settled video task never changes the phase or the error
      message, it changes the assets only when it yields a non-empty
      reference, and then only their video reference;
    - the video task of any one session has patched the assets at most
      once;
    - and from a page on which no video task of an earlier session is
      pending, the assets are patched at most once in all until the
      next reset. *)
Lemma sessions_patch_at_most_once evs w :
  run evs initial_World = Some w ->
  (forall env fuel w',
     step (recorder_onstop env fuel) w = Some w' ->
     state (ui w') = SHOWCASE ->
     state (ui w) <> SHOWCASE
     /\ exists a, assets (ui w') = Some a /\ videoUri a = None)
  /\ (forall i t w',
      nth_error (inflight w) i = Some t ->
      step (video_settled i) w = Some w' ->
      state (ui w') = state (ui w)
      /\ error (ui w') = error (ui w)
      /\ (assets (ui w') <> assets (ui w) ->
          exists u prev,
            settles_with t = Resolved (Some u) /\ truthy u = true
            /\ assets (ui w) = Some prev
            /\ assets (ui w') = Some (with_videoUri u prev))
      /\ (settles_with t = Resolved None -> ui w' = ui w)
      /\ inflight w' = remove_nth i (inflight w))
  /\ (forall n, count_occ Nat.eq_dec (patches evs initial_World) n <= 1)
  /\ (forall evs' w',
      (forall t, In t (inflight w) -> spawned_in t = session w) ->
      run evs' w = Some w' -> session w' = session w ->
      length (patches evs' w) <= 1).
Proof.
  intro Hrun.
  split; [ | split; [ | split]].
  - intros env fuel w' Hstep Hshow.
    destruct (onstop_precondition evs w env fuel w' Hrun Hstep)
      as (Hw' & Hst & Hnone).
    split; [congruence | ].
    destruct (handleRecordingStop_summary env fuel (with_onstop false w))
      as (_ & _ & [(_ & _ & Hstate) | (_ & Ha & _)]).
    + rewrite <- Hw' in Hstate. simpl in Hstate.
      destruct Hstate as [H | [H | H]]; congruence.
    + rewrite <- Hw' in Ha. exact Ha.
  - intros i t w' Hnth Hstep. simpl in Hstep. rewrite Hnth in Hstep.
    destruct (settles_with t) as [u | e | ] eqn:Hset; try discriminate;
      injection Hstep as Hw'; subst w'; cbn [ui with_ui with_inflight inflight].
    + rewrite video_then_state, video_then_error.
      split; [reflexivity | split; [reflexivity | ]].
      split; [ | split; [ | reflexivity]].
      * intro Hch. destruct u as [u | ]; [ | contradiction Hch; reflexivity].
        simpl in *. destruct (truthy u) eqn:Htr;
          [ | contradiction Hch; reflexivity].
        destruct (assets (ui w)) as [prev | ] eqn:Has.
        -- exists u, prev. cbn. rewrite Has. auto.
        -- contradiction Hch. cbn. rewrite Has. reflexivity.
      * intro Hnull. injection Hnull as Hu. subst u. reflexivity.
    + split; [reflexivity | split; [reflexivity | ]].
      split; [intro H; contradiction H; reflexivity | ].
      split; [discriminate | reflexivity].
  - intro n.
    pose proof (patches_budget n evs initial_World initial_invariant) as H.
    pose proof (may_still_spawn_le n initial_World) as H'.
    unfold tasks_of in H. simpl in H. lia.
  - intros evs' w' Hall Hrun' Hs.
    pose proof (reachable_invariant evs w Hrun) as Hinv.
    rewrite (count_all_same (session w)).
    + pose proof (patches_budget (session w) evs' w Hinv) as H.
      pose proof (run_budget (session w) evs initial_World w
                    initial_invariant Hrun) as Hb.
      pose proof (may_still_spawn_le (session w) initial_World) as H'.
      unfold tasks_of in Hb at 2. simpl in Hb. lia.
    + apply (patches_no_stale evs' w w' Hrun' Hs Hall).
Qed.

Lemma length_remove_nth {A} i :
  forall (l : list A) t, nth_error l i = Some t ->
  S (length (remove_nth i l)) = length l.
Proof.
  induction i as [ | i IH]; intros [ | x l] t H; simpl in H; try discriminate.
  - reflexivity.
  - simpl. rewrite (IH l t H). reflexivity.
Qed.

(** A step never makes more patches and pending tasks than there were
    pending tasks, but for the one task that a run of the pipeline may
    start. *)
Lemma step_tasks ev w w' :
  step ev w = Some w' ->
  length (patching_session ev w) + length (inflight w')
  <= length (inflight w) + (if is_onstop ev then 1 else 0).
Proof.
  intro Hstep.
  destruct ev as [env | chunk | env fuel | | i]; simpl in Hstep;
    cbn [patching_session is_onstop length].
  - destruct (state (ui w)); try discriminate;
      injection Hstep as Hw'; subst w'.
    + pose proof (startRecording_beyond env w) as Hb.
      unfold beyond_recording in Hb. injection Hb as _ _ _ Hi _ _.
      rewrite Hi. lia.
    + destruct (stopRecording_summary w) as (Hi & _). rewrite Hi. lia.
  - destruct (recorder_delivers w); [ | discriminate].
    injection Hstep as Hw'; subst w'. destruct (truthy chunk); simpl; lia.
  - destruct (onstop_queued w); [ | discriminate].
    injection Hstep as Hw'; subst w'.
    destruct (handleRecordingStop_summary env fuel (with_onstop false w))
      as (_ & _ & [(Hi & _) | (_ & _ & o & Hi)]);
      rewrite Hi; simpl; rewrite ?length_app; simpl; lia.
  - destruct (state (ui w)); try discriminate;
      injection Hstep as Hw'; subst w'; simpl; lia.
  - destruct (nth_error (inflight w) i) as [t | ] eqn:Hnth; [ | discriminate].
    pose proof (length_remove_nth i (inflight w) t Hnth) as Hlen.
    assert (Hin : inflight w' = remove_nth i (inflight w)).
    { destruct (settles_with t) as [u | e | ]; try discriminate;
        injection Hstep as Hw'; subst w'; reflexivity. }
    rewrite Hin.
    assert (Hone : length (match assets (ui w) with
                           | Some _ =>
                               match settles_with t with
                               | Resolved (Some u) =>
                                   if truthy u then [spawned_in t] else []
                               | _ => []
                               end
                           | None => []
                           end) <= 1).
    { destruct (assets (ui w)); [ | simpl; lia].
      destruct (settles_with t) as [[u | ] | e | ]; try (simpl; lia).
      destruct (truthy u); simpl; lia. }
    lia.
Qed.

Lemma run_tasks evs :
  forall w w', run evs w = Some w' ->
  length (patches evs w) + length (inflight w')
  <= length (inflight w) + pipeline_runs evs.
Proof.
  unfold pipeline_runs.
  induction evs as [ | ev evs IH]; intros w w' Hrun; simpl in Hrun |- *.
  - injection Hrun as Hw. subst. lia.
  - destruct (step ev w) as [w1 | ] eqn:Hstep; [ | discriminate].
    pose proof (step_tasks ev w w1 Hstep) as H1.
    pose proof (IH w1 w' Hrun) as H2.
    rewrite length_app.
    destruct (is_onstop ev); simpl; lia.
Qed.

(** C2 (amended), for every page, whatever has happened on it:
    - when the handler of the [stop] event enters the showcase from
      another phase, it publishes assets whose video reference is null
      and starts one video task; no run of the handler starts more
      than one;
    - a settled video task never changes the phase or the error
      message; it changes the assets only when it yields a non-empty
      reference, and then only their video reference; a task that
      yields null or that fails changes nothing; and a settled task is
      no longer pending, so that no task patches twice;
    - hence the patches made along any sequence of events are at most
      as many as the tasks that were pending plus the runs of the
      pipeline among the events; in particular, while the task of one
      run is the only one pending and the pipeline is not run again,
      the assets are patched at most once.
    A task that is still pending from an earlier session counts among
    the pending ones: it patches the assets of the current showcase as
    well. *)
Theorem C2_video_patched_at_most_once :
  (forall env fuel w,
     let w' := snd (handleRecordingStop env fuel w) in
     (state (ui w) <> SHOWCASE -> state (ui w') = SHOWCASE ->
      exists a t,
        assets (ui w') = Some a /\ videoUri a = None
        /\ inflight w' = inflight w ++ [t])
     /\ length (inflight w') <= S (length (inflight w)))
  /\ (forall w i t w',
      nth_error (inflight w) i = Some t ->
      step (video_settled i) w = Some w' ->
      state (ui w') = state (ui w)
      /\ error (ui w') = error (ui w)
      /\ (assets (ui w') <> assets (ui w) ->
          exists u prev,
            settles_with t = Resolved (Some u) /\ truthy u = true
            /\ assets (ui w) = Some prev
            /\ assets (ui w') = Some (with_videoUri u prev))
      /\ (settles_with t = Resolved None -> ui w' = ui w)
      /\ (forall e, settles_with t = Rejected e -> ui w' = ui w)
      /\ inflight w' = remove_nth i (inflight w)
      /\ S (length (inflight w')) = length (inflight w))
  /\ (forall evs w w',
      run evs w = Some w' ->
      length (patches evs w) + length (inflight w')
      <= length (inflight w) + pipeline_runs evs)
  /\ (forall evs w w',
      length (inflight w) <= 1 -> pipeline_runs evs = 0 ->
      run evs w = Some w' ->
      length (patches evs w) <= 1).
Proof.
  split; [ | split; [ | split]].
  - intros env fuel w w'. subst w'.
    destruct (handleRecordingStop_summary env fuel w)
      as (_ & _ & [(Hi & _ & Hstate) | (_ & (a & Ha & Hv) & o & Hi)]).
    + split; [ | rewrite Hi; lia].
      intros Hne Hshow. exfalso.
      destruct Hstate as [H | [H | H]]; congruence.
    + split; [ | rewrite Hi, length_app; simpl; lia].
      intros _ _. exists a. eexists. split; [exact Ha | split; [exact Hv | exact Hi]].
  - intros w i t w' Hnth Hstep.
    pose proof (length_remove_nth i (inflight w) t Hnth) as Hlen.
    simpl in Hstep. rewrite Hnth in Hstep.
    destruct (settles_with t) as [u | e | ] eqn:Hset; try discriminate;
      injection Hstep as Hw'; subst w'; cbn [ui with_ui with_inflight inflight].
    + rewrite video_then_state, video_then_error.
      split; [reflexivity | split; [reflexivity | ]].
      split; [ | split; [ | split; [discriminate | split; [reflexivity | exact Hlen]]]].
      * intro Hch. destruct u as [u | ]; [ | contradiction Hch; reflexivity].
        simpl in *. destruct (truthy u) eqn:Htr;
          [ | contradiction Hch; reflexivity].
        destruct (assets (ui w)) as [prev | ] eqn:Has.
        -- exists u, prev. cbn. rewrite Has. auto.
        -- contradiction Hch. cbn. rewrite Has. reflexivity.
      * intro Hnull. injection Hnull as Hu. subst u. reflexivity.
    + split; [reflexivity | split; [reflexivity | ]].
      split; [intro H; contradiction H; reflexivity | ].
      split; [discriminate | ].
      split; [reflexivity | split; [reflexivity | exact Hlen]].
  - apply run_tasks.
  - intros evs w w' Hone Hnone Hrun.
    pose proof (run_tasks evs w w' Hrun) as H. lia.
Qed.

(** C5 (as stated): a video result of an earlier session never patches
    the assets of a later one.  It does: the first session reaches the
    showcase and starts its video task, the user resets and records a
    second session, which reaches the showcase too; then the first
    session's task settles -- and its reference is written into the
    assets of the second session. *)
Lemma C5_stale_video_patches_next_session :
  exists w t w' a a',
    run two_sessions initial_World = Some w
    /\ nth_error (inflight w) 0 = Some t
    /\ spawned_in t = 0
    /\ session w = 1
    /\ state (ui w) = SHOWCASE
    /\ assets (ui w) = Some a
    /\ artPrompt a = art_prompt (art lively)
    /\ videoUri a = None
    /\ step (video_settled 0) w = Some w'
    /\ assets (ui w') = Some a'
    /\ artPrompt a' = art_prompt (art lively)
    /\ videoUri a' = Some "https://video.example/first?alt=media&key=KEY"
    /\ spawned_in t <> session w.
Proof.
  do 5 eexists.
  split; [vm_compute; reflexivity | ].
  split; [reflexivity | ].
  split; [reflexivity | ].
  split; [reflexivity | ].
  split; [reflexivity | ].
  split; [reflexivity | ].
  split; [reflexivity | ].
  split; [reflexivity | ].
  split; [vm_compute; reflexivity | ].
  split; [reflexivity | ].
  split; [reflexivity | ].
  split; [reflexivity | ].
  discriminate.
Qed.

(** C5 (amended): the callback of a settled video task looks at the
    current assets only, on whatever page it runs.  While they are null
    -- as they are after a reset, until assets are published again --
    it changes nothing.  When they are there and the task yields a
    non-empty reference, the reference is written into them, whichever
    session the task and the assets belong to: nothing of the session
    is compared.  A patch writes the video reference only; phase,
    error message and personality are as before. *)
Theorem C5_patch_needs_published_assets w i t w' :
  nth_error (inflight w) i = Some t ->
  step (video_settled i) w = Some w' ->
  (assets (ui w) = None -> ui w' = ui w)
  /\ (ui w' <> ui w ->
      exists u prev,
        settles_with t = Resolved (Some u) /\ truthy u = true
        /\ assets (ui w) = Some prev
        /\ ui w' = setAssets (fun _ => Some (with_videoUri u prev)) (ui w))
  /\ (forall u prev,
      settles_with t = Resolved (Some u) -> truthy u = true ->
      assets (ui w) = Some prev ->
      assets (ui w') = Some (with_videoUri u prev))
  /\ state (ui w') = state (ui w)
  /\ error (ui w') = error (ui w)
  /\ personality (ui w') = personality (ui w)
  /\ session w' = session w.
Proof.
  intros Hnth Hstep.
  simpl in Hstep. rewrite Hnth in Hstep.
  assert (Hnone : assets (ui w) = None -> ui w' = ui w).
  { intro Hn.
    destruct (settles_with t) as [u | e | ]; try discriminate;
      injection Hstep as Hw'; subst w'; cbn; [ | reflexivity].
    apply video_then_no_assets. exact Hn. }
  split; [exact Hnone | ].
  split; [ | split].
  - intro Hch.
    destruct (assets (ui w)) as [prev | ] eqn:Has;
      [ | contradiction Hch; apply Hnone; reflexivity].
    destruct (settles_with t) as [[u | ] | e | ]; try discriminate;
      injection Hstep as Hw'; subst w'; cbn in Hch |- *;
      try (contradiction Hch; reflexivity).
    destruct (truthy u) eqn:Htr; [ | contradiction Hch; reflexivity].
    exists u, prev.
    split; [reflexivity | split; [exact Htr | split; [reflexivity | ]]].
    unfold setAssets, patch_videoUri. rewrite Has. reflexivity.
  - intros u prev Hset Htr Has. rewrite Hset in Hstep.
    injection Hstep as Hw'. subst w'.
    cbn [ui with_ui with_inflight video_then]. rewrite Htr.
    unfold setAssets, patch_videoUri. cbn [assets]. rewrite Has. reflexivity.
  - destruct (settles_with t) as [u | e | ]; try discriminate;
      injection Hstep as Hw'; subst w'; cbn [ui with_ui with_inflight session];
      [ | auto].
    rewrite video_then_state, video_then_error.
    repeat split.
    destruct u as [u | ]; [ | reflexivity]. simpl.
    destruct (truthy u); reflexivity.
Qed.

(** C5 (amended) on a run: the video of a session settles after the
    reset; nothing is patched. *)
Lemma C5_patch_needs_published_assets_witness :
  exists w t w',
    run (one_session happy ++ [click_reset]) initial_World = Some w
    /\ nth_error (inflight w) 0 = Some t
    /\ settles_with t
       = Resolved (Some "https://video.example/first?alt=media&key=KEY")
    /\ step (video_settled 0) w = Some w'
    /\ ui w' = ui w
    /\ assets (ui w') = None.
Proof.
  do 3 eexists.
  split; [vm_compute; reflexivity | ].
  split; [reflexivity | ].
  split; [reflexivity | ].
  split; [vm_compute; reflexivity | ].
  match goal with
  | |- ui ?w' = ui ?w /\ _ =>
      destruct (C5_patch_needs_published_assets
                  w 0
                  {| spawned_in := 0;
                     settles_with :=
                       Resolved
                         (Some "https://video.example/first?alt=media&key=KEY") |}
                  w' eq_refl
                  ltac:(vm_compute; reflexivity))
        as (Hnone & _)
  end.
  split; [apply Hnone; reflexivity | reflexivity].
Defined.

(* ===================================================================== *)
(** ** More fuel changes nothing once the polling has ended *)
(* ===================================================================== *)

Lemma poll_until_done_S env fuel op :
  poll_until_done env (S fuel) op =
  if done op then ret op
  else bind (sleep 5000)
         (fun _ => bind (ai_getVideosOperation env op)
                     (fun op' => poll_until_done env fuel op')).
Proof. reflexivity. Qed.

Lemma poll_until_done_more_fuel env fuel :
  forall op w,
    fst (poll_until_done env fuel op w) <> Pending ->
    poll_until_done env (S fuel) op w = poll_until_done env fuel op w.
Proof.
  induction fuel as [ | fuel IH]; intros op w H.
  - rewrite poll_until_done_S. simpl in *.
    destruct (done op); [reflexivity | ].
    contradiction H. reflexivity.
  - rewrite (poll_until_done_S env (S fuel)), (poll_until_done_S env fuel) in *.
    destruct (done op); [reflexivity | ].
    unfold bind, sleep, ai_getVideosOperation, request in *. cbn [fst snd] in *.
    destruct (on_getVideosOperation env _ op) as [op' | e | ];
      try reflexivity.
    apply IH. exact H.
Qed.

Lemma runGen_more_fuel env fuel prompt w :
  fst (runGen env fuel prompt w) <> Pending ->
  runGen env (S fuel) prompt w = runGen env fuel prompt w.
Proof.
  unfold runGen, bind, ai_generateVideos, request. cbn [fst snd].
  destruct (on_generateVideos env (calls w) (veo_request prompt))
    as [op | e | ]; try reflexivity.
  intro H.
  rewrite poll_until_done_more_fuel; [reflexivity | ].
  intro Hp. apply H.
  destruct (poll_until_done env fuel op _) as [[op' | e | ] w1];
    cbn [fst] in Hp; try discriminate. reflexivity.
Qed.

Lemma generateVideo_more_fuel env fuel prompt w :
  fst (generateVideo env fuel prompt w) <> Pending ->
  generateVideo env (S fuel) prompt w = generateVideo env fuel prompt w.
Proof.
  rewrite !generateVideo_unfold. intro H.
  assert (H1 : fst (runGen env fuel prompt w) <> Pending).
  { intro Hp. apply H.
    destruct (runGen env fuel prompt w) as [[u | e | ] w1];
      cbn [fst] in Hp; try discriminate. reflexivity. }
  rewrite (runGen_more_fuel env fuel prompt w H1).
  destruct (runGen env fuel prompt w) as [[u | e | ] w1]; try reflexivity.
  destruct (isNotFound e) as [typeError | found]; [reflexivity | ].
  destruct (found && can_openSelectKey env); [ | reflexivity].
  destruct (on_openSelectKey env (calls w1)) as [[] | e' | ]; try reflexivity.
  assert (H2 : fst (runGen env fuel prompt (with_call openSelectKey w1)) <> Pending).
  { intro Hp. apply H.
    destruct (runGen env fuel prompt (with_call openSelectKey w1))
      as [[u | e' | ] w2]; cbn [fst] in Hp; try discriminate. reflexivity. }
  rewrite (runGen_more_fuel env fuel prompt _ H2). reflexivity.
Qed.

(* ===================================================================== *)
(** ** The failures of [generateVideo] *)
(* ===================================================================== *)

(** Every failure that the classification can look at ends in null:
    whenever the first submission-and-poll sequence throws and the
    classification of the error has a value, the result is null if the
    error is not permission-related or the page has no key prompt; it is
    null if the prompt rejects; and it is null if the retry throws as
    well.  A rejection of [generateVideo] is a throw of the
    classification itself. *)
Lemma generateVideo_failures env fuel prompt w :
  (forall e w1 found,
      runGen env fuel prompt w = (Rejected e, w1) ->
      isNotFound e = inr found ->
      (found && can_openSelectKey env = false ->
       generateVideo env fuel prompt w = (Resolved None, w1))
      /\ (found && can_openSelectKey env = true ->
          (forall e', on_openSelectKey env (calls w1) = Rejected e' ->
           generateVideo env fuel prompt w
           = (Resolved None, with_call openSelectKey w1))
          /\ (forall e' w2,
              on_openSelectKey env (calls w1) = Resolved tt ->
              runGen env fuel prompt (with_call openSelectKey w1)
              = (Rejected e', w2) ->
              generateVideo env fuel prompt w = (Resolved None, w2))))
  /\ (forall thrown,
      fst (generateVideo env fuel prompt w) = Rejected thrown ->
      exists e why,
        fst (runGen env fuel prompt w) = Rejected e
        /\ message_includes e not_found_text = false
        /\ json e = JsonThrows why
        /\ thrown = new_Error why).
Proof.
  split.
  - intros e w1 found Hrun Hfound.
    rewrite generateVideo_unfold, Hrun, Hfound.
    split.
    + intro H. rewrite H. reflexivity.
    + intro H. rewrite H. split.
      * intros e' Hp. rewrite Hp. reflexivity.
      * intros e' w2 Hp Hretry. rewrite Hp, Hretry. reflexivity.
  - intros thrown H. apply generateVideo_rejected in H.
    destruct H as (e & He & Ht). apply isNotFound_throws_iff in Ht.
    destruct Ht as (Hm & why & Hj & Hthrown).
    exists e, why. auto.
Qed.

(** C10 fails on the code: the first submission is rejected with an
    error that cannot be serialised (it holds a reference to itself)
    and whose message does not carry the text.  [JSON.stringify] throws
    inside the [catch] block, outside any [try]: [generateVideo]
    rejects instead of resolving to null.  In [App] the [.then] of line
    94 has no rejection handler: the session is in the showcase, the
    task it holds settles with the rejection, and its callback is
    skipped. *)
Theorem C10_unserialisable_error_rejects :
  let r := generateVideo video_throws_cyclic 3 "neon rain" initial_World in
  fst (runGen video_throws_cyclic 3 "neon rain" initial_World)
  = Rejected cyclic_error
  /\ isNotFound cyclic_error = inl (new_Error cyclic_why)
  /\ fst r = Rejected (new_Error cyclic_why)
  /\ fst r <> Resolved None
  /\ submissions (new_calls initial_World (snd r)) = 1
  /\ prompts (new_calls initial_World (snd r)) = 0
  /\ exists w t w',
       run (one_session video_throws_cyclic) initial_World = Some w
       /\ state (ui w) = SHOWCASE
       /\ inflight w = [t]
       /\ settles_with t = Rejected (new_Error cyclic_why)
       /\ step (video_settled 0) w = Some w'
       /\ ui w' = ui w
       /\ inflight w' = [].
Proof.
  split; [reflexivity | ].
  split; [reflexivity | ].
  split; [reflexivity | ].
  split; [discriminate | ].
  split; [reflexivity | ].
  split; [reflexivity | ].
  do 3 eexists.
  split; [vm_compute; reflexivity | ].
  split; [reflexivity | ].
  split; [reflexivity | ].
  split; [reflexivity | ].
  split; [vm_compute; reflexivity | ].
  split; reflexivity.
Qed.

(** C1 on a run: the speech model throws; the session fails, without
    assets and without a video task. *)
Lemma C1_joint_barrier_witness :
  exists w w',
    run (record_and_stop speech_fails) initial_World = Some w
    /\ step (recorder_onstop speech_fails 3) w = Some w'
    /\ state (ui w') = ERROR
    /\ assets (ui w') = None
    /\ inflight w' = [].
Proof.
  do 2 eexists.
  split; [vm_compute; reflexivity | ].
  split; [vm_compute; reflexivity | ].
  match goal with
  | |- state (ui ?w') = _ /\ _ =>
      destruct (C1_joint_barrier (record_and_stop speech_fails) _
                  speech_fails 3 w' eq_refl eq_refl) as (_ & H & _)
  end.
  edestruct H as (H1 & H2 & H3);
    [cbv; reflexivity | cbv; reflexivity | cbv; reflexivity
    | right; reflexivity | ].
  split; [exact H1 | split; [exact H2 | exact H3]].
Defined.

(** C9 on a run: the speech model throws after the analysis; the
    personality of the analysis stays published. *)
Lemma C9_speech_failure_frame_witness :
  exists w w',
    run (record_and_stop speech_fails) initial_World = Some w
    /\ step (recorder_onstop speech_fails 3) w = Some w'
    /\ state (ui w') = ERROR
    /\ personality (ui w') = Some (Types.personality calm)
    /\ assets (ui w') = None
    /\ error (ui w') = Some "TTS quota exceeded".
Proof.
  do 2 eexists.
  split; [vm_compute; reflexivity | ].
  split; [vm_compute; reflexivity | ].
  match goal with
  | |- state (ui ?x) = _ /\ _ =>
      edestruct C9_speech_failure_frame
        with (evs := record_and_stop speech_fails) (env := speech_fails)
             (fuel := 3) (w' := x) (a := calm)
        as (_ & H1 & _ & H2 & H3 & _);
        [reflexivity | reflexivity | cbv; reflexivity | cbv; reflexivity | ]
  end.
  split; [exact H1 | split; [exact H2 | split; [exact H3 | reflexivity]]].
Defined.

(** C2 on a run: a session in the showcase with its video pending; the
    video arrives; one patch. *)
Lemma C2_video_patched_at_most_once_witness :
  exists w,
    run (one_session happy) initial_World = Some w
    /\ patches [video_settled 0] w = [0]
    /\ length (patches [video_settled 0] w) <= 1.
Proof.
  eexists.
  split; [vm_compute; reflexivity | ].
  split; [vm_compute; reflexivity | ].
  destruct C2_video_patched_at_most_once as (_ & _ & _ & H).
  eapply (H [video_settled 0]).
  - vm_compute. lia.
  - reflexivity.
  - vm_compute. reflexivity.
Defined.

(** C4 on a run: the high-fidelity model is down, the flash model
    answers, and the session reaches the showcase. *)
Lemma C4_art_two_tiers_witness :
  let prompt := art_prompt (art calm) in
  let w := snd (publish_analysis calm
                  (snd (analysis_step fallback_only initial_World))) in
  new_calls w (snd (generateArt fallback_only prompt w))
  = [generateContent (high_quality_request prompt);
     generateContent (flash_image_request prompt)]
  /\ fst (generateArt fallback_only prompt w) = Resolved "iVBORw0KGgo="
  /\ state (ui (snd (handleRecordingStop fallback_only 3 initial_World)))
     = SHOWCASE.
Proof.
  intros prompt w.
  destruct (C4_art_two_tiers fallback_only prompt w)
    as (_ & _ & Hfallback & _ & _ & Hsession).
  destruct (Hfallback eq_refl) as (Hlog & Hdata & _).
  split; [exact Hlog | ].
  split; [apply (Hdata (inline_response "iVBORw0KGgo=") {| data := "iVBORw0KGgo=" |});
          reflexivity | ].
  eapply (Hsession 3 initial_World calm); cbv; reflexivity.
Defined.

(* ===================================================================== *)
(** ** Further properties of the services *)
(* ===================================================================== *)

Lemma new_calls_one c w : new_calls w (with_call c w) = [c].
Proof. apply new_calls_app. reflexivity. Qed.

Lemma new_calls_two c d w :
  new_calls w (with_call d (with_call c w)) = [c; d].
Proof. apply new_calls_app. simpl. rewrite <- app_assoc. reflexivity. Qed.

Lemma new_calls_three c d e w :
  new_calls w (with_call e (with_call d (with_call c w))) = [c; d; e].
Proof. apply new_calls_app. simpl. rewrite <- !app_assoc. reflexivity. Qed.

(** X1: [checkApiKey] opens the key prompt exactly when AI Studio offers
    the check, the check answers that no key is selected, and AI Studio
    offers the prompt; it never opens it twice.  Outside AI Studio, or
    without the check, it resolves at once without any request; with a
    key selected it resolves without a prompt.  It touches nothing of
    the page. *)
Theorem X1_checkApiKey_prompts_when_no_key env w :
  let r := checkApiKey env w in
  let log := new_calls w (snd r) in
  (In openSelectKey log <->
   exists aistudio,
     window_aistudio env = Some aistudio
     /\ has_hasSelectedApiKey aistudio = true
     /\ on_hasSelectedApiKey env (calls w) = Resolved false
     /\ has_openSelectKey aistudio = true)
  /\ prompts log <= 1
  /\ (window_aistudio env = None -> r = (Resolved tt, w))
  /\ (forall aistudio, window_aistudio env = Some aistudio ->
      has_hasSelectedApiKey aistudio = false -> r = (Resolved tt, w))
  /\ (on_hasSelectedApiKey env (calls w) = Resolved true ->
      fst r = Resolved tt /\ prompts log = 0)
  /\ page (snd r) = page w.
Proof.
  intros r log. subst log r.
  split; [ | split; [ | split; [ | split; [ | split]]]];
    try apply checkApiKey_page.
  - rewrite checkApiKey_unfold.
    destruct (window_aistudio env) as [ai | ] eqn:Hai.
    + destruct (has_hasSelectedApiKey ai) eqn:Hhas.
      * destruct (on_hasSelectedApiKey env (calls w)) as [[ | ] | e | ] eqn:Hk;
          cbn [negb andb].
        -- cbn [snd]. rewrite new_calls_one.
           split; [intros [H | []]; discriminate | ].
           intros (ai' & _ & _ & H & _). discriminate H.
        -- destruct (has_openSelectKey ai) eqn:Hopen; cbn [snd].
           ++ rewrite new_calls_two.
              split; [ | intros _; right; left; reflexivity].
              intros _. exists ai. auto.
           ++ rewrite new_calls_one.
              split; [intros [H | []]; discriminate | ].
              intros (ai' & Hai' & _ & _ & H).
              injection Hai' as Hai'. subst ai'. congruence.
        -- cbn [snd]. rewrite new_calls_one.
           split; [intros [H | []]; discriminate | ].
           intros (ai' & _ & _ & H & _). discriminate H.
        -- cbn [snd]. rewrite new_calls_one.
           split; [intros [H | []]; discriminate | ].
           intros (ai' & _ & _ & H & _). discriminate H.
      * cbn [snd]. rewrite new_calls_refl.
        split; [intros [] | ].
        intros (ai' & Hai' & H & _).
        injection Hai' as Hai'. subst ai'. congruence.
    + cbn [snd]. rewrite new_calls_refl.
      split; [intros [] | ]. intros (ai' & H & _). discriminate H.
  - rewrite checkApiKey_unfold.
    destruct (window_aistudio env) as [ai | ];
      [ | cbn [snd]; rewrite new_calls_refl; unfold prompts; simpl; lia].
    destruct (has_hasSelectedApiKey ai);
      [ | cbn [snd]; rewrite new_calls_refl; unfold prompts; simpl; lia].
    destruct (on_hasSelectedApiKey env (calls w)) as [hasKey | e | ];
      try (cbn [snd]; rewrite new_calls_one; unfold prompts; simpl; lia).
    destruct (negb hasKey && has_openSelectKey ai); cbn [snd].
    + rewrite new_calls_two. unfold prompts; simpl; lia.
    + rewrite new_calls_one. unfold prompts; simpl; lia.
  - intro Hnone. rewrite checkApiKey_unfold, Hnone. reflexivity.
  - intros ai Hai Hhas. rewrite checkApiKey_unfold, Hai, Hhas. reflexivity.
  - intro Hk. rewrite checkApiKey_unfold.
    destruct (window_aistudio env) as [ai | ];
      [ | cbn [fst snd]; rewrite new_calls_refl; auto].
    destruct (has_hasSelectedApiKey ai);
      [ | cbn [fst snd]; rewrite new_calls_refl; auto].
    rewrite Hk. cbn [negb andb fst snd].
    rewrite new_calls_one. auto.
Qed.

(** The log of the analysis call. *)
Lemma analyzeAudioPersonality_unfold env blob w :
  let w1 := with_call (blobToBase64 blob) w in
  analyzeAudioPersonality env blob w =
  match on_blobToBase64 env (calls w) blob with
  | Resolved base64Audio =>
      let req := AudioAnalysis "gemini-2.5-flash" "audio/wav" base64Audio in
      let w2 := with_call (generateContent req) w1 in
      match on_generateContent env (calls w1) req with
      | Resolved response =>
          match text response with
          | Some t =>
              if truthy t then
                match JSON_parse env t with
                | inr analysis => (Resolved analysis, w2)
                | inl e => (Rejected e, w2)
                end
              else (Rejected (new_Error "No analysis generated"), w2)
          | None => (Rejected (new_Error "No analysis generated"), w2)
          end
      | Rejected e => (Rejected e, w2)
      | Pending => (Pending, w2)
      end
  | Rejected e => (Rejected e, w1)
  | Pending => (Pending, w1)
  end.
Proof.
  unfold analyzeAudioPersonality, bind, ai_generateContent, request. cbn [fst snd].
  destruct (on_blobToBase64 env (calls w) blob) as [b | e | ]; try reflexivity.
  cbv zeta.
  destruct (on_generateContent env _ _) as [resp | e | ]; try reflexivity.
  destruct (text resp) as [t | ]; try reflexivity.
  destruct (truthy t); try reflexivity.
  destruct (JSON_parse env t); reflexivity.
Qed.

(** X2: [analyzeAudioPersonality] converts the blob, then asks
    gemini-2.5-flash once, declaring the audio as [audio/wav].  It
    resolves only with what [JSON.parse] makes of a non-empty response
    text; a response whose text is missing or empty is rejected with
    "No analysis generated"; a parse error and a failure of either
    request are passed on as they are.  There is no second attempt. *)
Theorem X2_analysis_needs_response_text env blob w :
  let r := analyzeAudioPersonality env blob w in
  let log := new_calls w (snd r) in
  (forall analysis, fst r = Resolved analysis ->
   exists base64Audio response t,
     on_blobToBase64 env (calls w) blob = Resolved base64Audio
     /\ log = [blobToBase64 blob;
               generateContent
                 (AudioAnalysis "gemini-2.5-flash" "audio/wav" base64Audio)]
     /\ on_generateContent env (calls w ++ [blobToBase64 blob])
          (AudioAnalysis "gemini-2.5-flash" "audio/wav" base64Audio)
        = Resolved response
     /\ text response = Some t /\ truthy t = true
     /\ JSON_parse env t = inr analysis)
  /\ (forall base64Audio response,
      on_blobToBase64 env (calls w) blob = Resolved base64Audio ->
      on_generateContent env (calls w ++ [blobToBase64 blob])
        (AudioAnalysis "gemini-2.5-flash" "audio/wav" base64Audio)
      = Resolved response ->
      text response = None \/ text response = Some "" ->
      fst r = Rejected (new_Error "No analysis generated"))
  /\ (forall e, on_blobToBase64 env (calls w) blob = Rejected e ->
      fst r = Rejected e /\ log = [blobToBase64 blob])
  /\ length log <= 2
  /\ (forall c, In c log -> c = blobToBase64 blob \/ is_content_call c = true).
Proof.
  intros r log. subst log r. rewrite analyzeAudioPersonality_unfold. cbv zeta.
  pose proof (new_calls_one (blobToBase64 blob) w) as H1.
  assert (H2 : forall req,
            new_calls w (with_call (generateContent req)
                           (with_call (blobToBase64 blob) w))
            = [blobToBase64 blob; generateContent req])
    by (intro req; apply new_calls_two).
  assert (Hsnd : forall (o : Outcome GenerateContentResponse) b,
    snd (match o with
         | Resolved response =>
             match text response with
             | Some t =>
                 if truthy t then
                   match JSON_parse env t with
                   | inr analysis =>
                       (Resolved analysis,
                        with_call (generateContent
                                     (AudioAnalysis "gemini-2.5-flash" "audio/wav" b))
                          (with_call (blobToBase64 blob) w))
                   | inl e =>
                       (Rejected e,
                        with_call (generateContent
                                     (AudioAnalysis "gemini-2.5-flash" "audio/wav" b))
                          (with_call (blobToBase64 blob) w))
                   end
                 else (Rejected (new_Error "No analysis generated"),
                       with_call (generateContent
                                    (AudioAnalysis "gemini-2.5-flash" "audio/wav" b))
                         (with_call (blobToBase64 blob) w))
             | None => (Rejected (new_Error "No analysis generated"),
                        with_call (generateContent
                                     (AudioAnalysis "gemini-2.5-flash" "audio/wav" b))
                          (with_call (blobToBase64 blob) w))
             end
         | Rejected e =>
             (Rejected e,
              with_call (generateContent
                           (AudioAnalysis "gemini-2.5-flash" "audio/wav" b))
                (with_call (blobToBase64 blob) w))
         | Pending =>
             (Pending,
              with_call (generateContent
                           (AudioAnalysis "gemini-2.5-flash" "audio/wav" b))
                (with_call (blobToBase64 blob) w))
         end)
    = with_call (generateContent
                   (AudioAnalysis "gemini-2.5-flash" "audio/wav" b))
        (with_call (blobToBase64 blob) w)).
  { intros [resp | e | ] b; try reflexivity.
    destruct (text resp) as [t | ]; try reflexivity.
    destruct (truthy t); try reflexivity.
    destruct (JSON_parse env t); reflexivity. }
  change (calls (with_call (blobToBase64 blob) w))
    with (calls w ++ [blobToBase64 blob]).
  destruct (on_blobToBase64 env (calls w) blob) as [b | e | ].
  - rewrite Hsnd, H2.
    split; [ | split; [ | split; [ | split]]].
    + intros analysis Hres. exists b.
      destruct (on_generateContent env (calls w ++ [blobToBase64 blob]) _)
        as [resp | e | ]; try discriminate.
      destruct (text resp) as [t | ] eqn:Ht; try discriminate.
      destruct (truthy t) eqn:Htr; try discriminate.
      destruct (JSON_parse env t) as [e | a] eqn:Hp; try discriminate.
      injection Hres as Ha. subst a.
      exists resp, t. repeat split; auto.
    + intros b' resp Hb Hc Ht. injection Hb as Hb. subst b'.
      rewrite Hc. destruct Ht as [Ht | Ht]; rewrite Ht; reflexivity.
    + intros e H. discriminate H.
    + simpl. lia.
    + intros c [Hc | [Hc | []]]; subst c; auto.
  - cbn [fst snd]. rewrite H1.
    split; [intros a H; discriminate H | ].
    split; [intros b resp H; discriminate H | ].
    split; [intros e' H; injection H as H; subst e'; auto | ].
    split; [simpl; lia | ].
    intros c [Hc | []]. auto.
  - cbn [fst snd]. rewrite H1.
    split; [intros a H; discriminate H | ].
    split; [intros b resp H; discriminate H | ].
    split; [intros e' H; discriminate H | ].
    split; [simpl; lia | ].
    intros c [Hc | []]. auto.
Qed.

Lemma generateSpeech_unfold env text voiceName w :
  let req := SpeechSynthesis "gemini-2.5-flash-preview-tts" text
               (if truthy voiceName then voiceName else "Puck") in
  let w1 := with_call (generateContent req) w in
  generateSpeech env text voiceName w =
  match on_generateContent env (calls w) req with
  | Resolved response =>
      match first_part_data response with
      | Some base64 =>
          if truthy base64 then (Resolved base64, w1)
          else (Rejected (new_Error "TTS generation failed"), w1)
      | None => (Rejected (new_Error "TTS generation failed"), w1)
      end
  | Rejected e => (Rejected e, w1)
  | Pending => (Pending, w1)
  end.
Proof.
  unfold generateSpeech, bind, ai_generateContent, request. cbn [fst snd].
  destruct (on_generateContent env (calls w) _) as [resp | e | ];
    try reflexivity.
  destruct (first_part_data resp) as [d | ]; try reflexivity.
  destruct (truthy d); reflexivity.
Qed.

(** X3: [generateSpeech] makes exactly one request, whatever comes
    back: to the TTS model, with the text, and with the voice given or
    "Puck" when the voice name is empty.  It resolves exactly when the
    first part of the first candidate carries non-empty inline data,
    and then with that data.  A response without it -- also one whose
    audio sits in a later part -- is rejected with "TTS generation
    failed"; a failure of the request is passed on as it is. *)
Theorem X3_speech_one_request_first_part env text voiceName w :
  let req := SpeechSynthesis "gemini-2.5-flash-preview-tts" text
               (if truthy voiceName then voiceName else "Puck") in
  let reply := on_generateContent env (calls w) req in
  let r := generateSpeech env text voiceName w in
  new_calls w (snd r) = [generateContent req]
  /\ (voiceName = "" ->
      req = SpeechSynthesis "gemini-2.5-flash-preview-tts" text "Puck")
  /\ (truthy voiceName = true ->
      req = SpeechSynthesis "gemini-2.5-flash-preview-tts" text voiceName)
  /\ (forall d, fst r = Resolved d <->
      exists response,
        reply = Resolved response
        /\ first_part_data response = Some d /\ truthy d = true)
  /\ (forall response, reply = Resolved response ->
      first_part_data response = None \/ first_part_data response = Some "" ->
      fst r = Rejected (new_Error "TTS generation failed"))
  /\ (forall response p ps, reply = Resolved response ->
      first_candidate_parts response = Some (p :: ps) ->
      inlineData p = None ->
      fst r = Rejected (new_Error "TTS generation failed"))
  /\ (forall e, reply = Rejected e -> fst r = Rejected e).
Proof.
  intros req reply r.
  assert (Hr : r = generateSpeech env text voiceName w) by reflexivity.
  rewrite generateSpeech_unfold in Hr. cbv zeta in Hr.
  fold req in Hr. fold reply in Hr.
  assert (Hsnd : snd r = with_call (generateContent req) w).
  { rewrite Hr. destruct reply as [resp | e | ]; try reflexivity.
    destruct (first_part_data resp) as [d | ]; try reflexivity.
    destruct (truthy d); reflexivity. }
  split; [rewrite Hsnd; apply new_calls_one | ].
  split; [intro H; subst req; rewrite H; reflexivity | ].
  split; [intro H; subst req; rewrite H; reflexivity | ].
  split; [ | split; [ | split]].
  - intro d. rewrite Hr. split.
    + destruct reply as [resp | e | ]; try discriminate.
      destruct (first_part_data resp) as [d' | ] eqn:Hd; try discriminate.
      destruct (truthy d') eqn:Ht; try discriminate.
      cbn [fst]. intro H. injection H as H. subst d'.
      exists resp. auto.
    + intros (resp & Hreply & Hd & Ht). rewrite Hreply, Hd, Ht. reflexivity.
  - intros resp Hreply Hd. rewrite Hr, Hreply.
    destruct Hd as [Hd | Hd]; rewrite Hd; reflexivity.
  - intros resp p ps Hreply Hparts Hp. rewrite Hr, Hreply.
    unfold first_part_data. rewrite Hparts, Hp. reflexivity.
  - intros e Hreply. rewrite Hr, Hreply. reflexivity.
Qed.

Lemma polling_cons op ops :
  polling (op :: ops) = [setTimeout 5000; getVideosOperation op] ++ polling ops.
Proof. reflexivity. Qed.

Lemma poll_reply_cons env w op ops i o :
  poll_reply env w (op :: ops) (S i) o
  = poll_reply env
      (with_call (getVideosOperation op) (with_call (setTimeout 5000) w))
      ops i o.
Proof.
  unfold poll_reply. cbn [firstn calls with_call].
  rewrite polling_cons, <- !app_assoc. reflexivity.
Qed.

Lemma poll_reply_first env w ops o :
  poll_reply env w ops 0 o
  = on_getVideosOperation env (calls (with_call (setTimeout 5000) w)) o.
Proof. reflexivity. Qed.

Lemma poll_until_done_shape env fuel :
  forall op w, exists ops,
    calls (snd (poll_until_done env fuel op w)) = calls w ++ polling ops
    /\ length ops <= fuel
    /\ (forall o, In o ops -> done o = false)
    /\ (ops = [] \/ hd_error ops = Some op)
    /\ (forall i o o',
        nth_error ops i = Some o -> nth_error ops (S i) = Some o' ->
        poll_reply env w ops i o = Resolved o')
    /\ (ops = [] ->
        (done op = true /\ poll_until_done env fuel op w = (Resolved op, w))
        \/ (done op = false /\ fuel = 0
            /\ fst (poll_until_done env fuel op w) = Pending))
    /\ (forall o,
        nth_error ops (pred (length ops)) = Some o ->
        match poll_reply env w ops (pred (length ops)) o with
        | Resolved o' =>
            if done o' then fst (poll_until_done env fuel op w) = Resolved o'
            else fst (poll_until_done env fuel op w) = Pending
                 /\ length ops = fuel
        | Rejected e => fst (poll_until_done env fuel op w) = Rejected e
        | Pending => fst (poll_until_done env fuel op w) = Pending
        end)
    /\ (forall op', fst (poll_until_done env fuel op w) = Resolved op' ->
        done op' = true)
    /\ (done op = true -> poll_until_done env fuel op w = (Resolved op, w)).
Proof.
  assert (Hnil : forall op w fuel',
            done op = true \/ fuel' = 0 ->
            exists ops,
              calls (snd (poll_until_done env fuel' op w)) = calls w ++ polling ops
              /\ length ops <= fuel'
              /\ (forall o, In o ops -> done o = false)
              /\ (ops = [] \/ hd_error ops = Some op)
              /\ (forall i o o',
                  nth_error ops i = Some o -> nth_error ops (S i) = Some o' ->
                  poll_reply env w ops i o = Resolved o')
              /\ (ops = [] ->
                  (done op = true
                   /\ poll_until_done env fuel' op w = (Resolved op, w))
                  \/ (done op = false /\ fuel' = 0
                      /\ fst (poll_until_done env fuel' op w) = Pending))
              /\ (forall o,
                  nth_error ops (pred (length ops)) = Some o ->
                  match poll_reply env w ops (pred (length ops)) o with
                  | Resolved o' =>
                      if done o'
                      then fst (poll_until_done env fuel' op w) = Resolved o'
                      else fst (poll_until_done env fuel' op w) = Pending
                           /\ length ops = fuel'
                  | Rejected e => fst (poll_until_done env fuel' op w) = Rejected e
                  | Pending => fst (poll_until_done env fuel' op w) = Pending
                  end)
              /\ (forall op', fst (poll_until_done env fuel' op w) = Resolved op' ->
                  done op' = true)
              /\ (done op = true ->
                  poll_until_done env fuel' op w = (Resolved op, w))).
  { intros op w fuel' Hcase. exists [].
    assert (Hr : (done op = true
                  /\ poll_until_done env fuel' op w = (Resolved op, w))
                 \/ (done op = false /\ fuel' = 0
                     /\ poll_until_done env fuel' op w = (Pending, w))).
    { destruct (done op) eqn:Hd.
      - left. split; [reflexivity | ].
        destruct fuel'; simpl; rewrite Hd; reflexivity.
      - right. destruct Hcase as [H | H]; [discriminate | ]. subst fuel'.
        simpl. rewrite Hd. auto. }
    split.
    { simpl. rewrite app_nil_r.
      destruct Hr as [(_ & Hr) | (_ & _ & Hr)]; rewrite Hr; reflexivity. }
    split; [simpl; lia | ].
    split; [intros o []| ].
    split; [left; reflexivity | ].
    split; [intros [ | i] o o' H; discriminate | ].
    split.
    { intros _. destruct Hr as [(Hd & Hr) | (Hd & Hf & Hr)]; [left | right]; auto.
      rewrite Hr. auto. }
    split; [intros o H; discriminate | ].
    split.
    { intros op' H. destruct Hr as [(Hd & Hr) | (_ & _ & Hr)]; rewrite Hr in H.
      - injection H as H. subst. exact Hd.
      - discriminate. }
    intro Hd. destruct Hr as [(_ & Hr) | (Hd' & _)]; [exact Hr | congruence]. }
  induction fuel as [ | fuel IH]; intros op w.
  - apply Hnil. right. reflexivity.
  - destruct (Bool.bool_dec (done op) true) as [Hd | Hd];
      [apply Hnil; left; exact Hd | ].
    apply not_true_is_false in Hd.
    rewrite poll_until_done_S, Hd.
    unfold bind, sleep, ai_getVideosOperation, request. cbn [fst snd].
    pose proof (poll_reply_first env w) as Hfirst.
    destruct (on_getVideosOperation env (calls (with_call (setTimeout 5000) w)) op)
      as [op' | e | ] eqn:Hreply.
    + destruct (IH op' (with_call (getVideosOperation op)
                          (with_call (setTimeout 5000) w)))
        as (ops & Hc & Hl & Hn & Hh & Hchain & Hempty & Hlast & Hres & _).
      exists (op :: ops).
      split; [rewrite Hc; simpl; rewrite <- !app_assoc; reflexivity | ].
      split; [simpl; lia | ].
      split; [intros o [Ho | Ho]; [subst; exact Hd | auto] | ].
      split; [right; reflexivity | ].
      split.
      { intros [ | i] o o' Ho Ho'.
        - simpl in Ho. injection Ho as Ho. subst o.
          rewrite Hfirst, Hreply. f_equal.
          simpl in Ho'. destruct Hh as [Hh | Hh].
          + subst ops. discriminate.
          + destruct ops as [ | o1 ops1]; [discriminate | ].
            simpl in Hh, Ho'. congruence.
        - rewrite poll_reply_cons. apply Hchain; assumption. }
      split; [discriminate | ].
      split.
      { intros o Ho. destruct ops as [ | o1 ops1].
        - simpl in Ho. injection Ho as Ho. subst o.
          simpl pred. rewrite Hfirst, Hreply.
          destruct (Hempty eq_refl) as [(Hd' & Hr) | (Hd' & Hf & Hr)];
            rewrite Hd'.
          + rewrite Hr. reflexivity.
          + split; [exact Hr | simpl; lia].
        - change (pred (length (op :: o1 :: ops1)))
            with (S (pred (length (o1 :: ops1)))) in *.
          rewrite poll_reply_cons.
          change (nth_error (op :: o1 :: ops1) (S (pred (length (o1 :: ops1)))))
            with (nth_error (o1 :: ops1) (pred (length (o1 :: ops1)))) in Ho.
          specialize (Hlast o Ho).
          destruct (poll_reply env _ (o1 :: ops1) _ o) as [o' | e | ]; auto.
          destruct (done o'); auto.
          destruct Hlast as (Hp & Hlen). split; [exact Hp | simpl in *; lia]. }
      split; [exact Hres | discriminate].
    + exists [op]. cbn [fst snd].
      split; [simpl; rewrite <- !app_assoc; reflexivity | ].
      split; [simpl; lia | ].
      split; [intros o [Ho | []]; subst; exact Hd | ].
      split; [right; reflexivity | ].
      split; [intros [ | [ | i]] o o' Ho Ho'; discriminate | ].
      split; [discriminate | ].
      split.
      { intros o Ho. simpl in Ho. injection Ho as Ho. subst o.
        simpl pred. rewrite Hfirst, Hreply. reflexivity. }
      split; [discriminate | discriminate].
    + exists [op]. cbn [fst snd].
      split; [simpl; rewrite <- !app_assoc; reflexivity | ].
      split; [simpl; lia | ].
      split; [intros o [Ho | []]; subst; exact Hd | ].
      split; [right; reflexivity | ].
      split; [intros [ | [ | i]] o o' Ho Ho'; discriminate | ].
      split; [discriminate | ].
      split.
      { intros o Ho. simpl in Ho. injection Ho as Ho. subst o.
        simpl pred. rewrite Hfirst, Hreply. reflexivity. }
      split; [discriminate | discriminate].
Qed.

(** X4: the polling loop waits five seconds before every look at the
    job and does nothing else.  Its first look is at the job it was
    given, and every further look is at the job that the look before
    it returned; it never looks at a job that is done, and it makes no
    more rounds than its budget.  It ends as its last look does: with
    the job returned if that job is done (and only a job that is done
    is ever returned), with the error if the look failed.  A job that
    is done already is returned without a timer and without a
    request. *)
Theorem X4_polling_every_five_seconds env fuel op w :
  let r := poll_until_done env fuel op w in
  exists ops,
    new_calls w (snd r) = polling ops
    /\ length ops <= fuel
    /\ (forall o, In o ops -> done o = false)
    /\ (ops = [] \/ hd_error ops = Some op)
    /\ (forall i o o',
        nth_error ops i = Some o -> nth_error ops (S i) = Some o' ->
        poll_reply env w ops i o = Resolved o')
    /\ (ops = [] ->
        (done op = true /\ r = (Resolved op, w))
        \/ (done op = false /\ fuel = 0 /\ fst r = Pending))
    /\ (forall o,
        nth_error ops (pred (length ops)) = Some o ->
        match poll_reply env w ops (pred (length ops)) o with
        | Resolved o' =>
            if done o' then fst r = Resolved o'
            else fst r = Pending /\ length ops = fuel
        | Rejected e => fst r = Rejected e
        | Pending => fst r = Pending
        end)
    /\ (forall op', fst r = Resolved op' -> done op' = true)
    /\ (done op = true -> r = (Resolved op, w)).
Proof.
  intro r. subst r.
  destruct (poll_until_done_shape env fuel op w)
    as (ops & Hc & Hrest).
  exists ops. split; [apply new_calls_app; exact Hc | exact Hrest].
Qed.

Lemma truthy_app (s t : string) : truthy s = true -> truthy (s ++ t)%string = true.
Proof. destruct s; simpl; [discriminate | reflexivity]. Qed.

(** Where a reference returned by one submission-and-poll sequence
    comes from. *)
Lemma runGen_reference env fuel prompt w u :
  fst (runGen env fuel prompt w) = Resolved (Some u) ->
  exists submitted finished videoUri,
    on_generateVideos env (calls w) (veo_request prompt) = Resolved submitted
    /\ poll_until_done env fuel submitted
         (with_call (generateVideos (veo_request prompt)) w)
       = (Resolved finished, snd (runGen env fuel prompt w))
    /\ done finished = true
    /\ operation_videoUri finished = Some videoUri
    /\ truthy videoUri = true
    /\ u = (videoUri ++ "&key="
            ++ API_KEY env (calls (snd (runGen env fuel prompt w))))%string.
Proof.
  unfold runGen, bind, ai_generateVideos, request, read, ret. cbn [fst snd].
  destruct (on_generateVideos env (calls w) (veo_request prompt))
    as [op | e | ]; try discriminate.
  destruct (poll_until_done_shape env fuel op
              (with_call (generateVideos (veo_request prompt)) w))
    as (_ & _ & _ & _ & _ & _ & _ & _ & Hdone & _).
  destruct (poll_until_done env fuel op
              (with_call (generateVideos (veo_request prompt)) w))
    as [[op' | e | ] w1] eqn:Hpoll; try discriminate.
  specialize (Hdone op' eq_refl).
  destruct (operation_videoUri op') as [v | ] eqn:Huri; try discriminate.
  destruct (truthy v) eqn:Hv; try discriminate.
  cbn [fst snd]. intro H. injection H as H. subst u.
  exists op, op', v. repeat split; auto.
Qed.

(** X5: a reference that [generateVideo] resolves with is never empty,
    and it is made of the job: the attempt that produced it -- the
    first one, or the retry after a permission error and a prompt that
    resolved -- submitted the job, polled it until a look returned it as
    done, and read the reference of the first generated video of that
    last reply; the result is this non-empty reference, followed by
    [&key=] and the API key as it is when that attempt ends. *)
Theorem X5_video_reference_carries_key env fuel prompt w u :
  fst (generateVideo env fuel prompt w) = Resolved (Some u) ->
  exists w0 submitted finished videoUri,
    (w0 = w
     \/ exists e wf,
          runGen env fuel prompt w = (Rejected e, wf)
          /\ isNotFound e = inr true
          /\ on_openSelectKey env (calls wf) = Resolved tt
          /\ w0 = with_call openSelectKey wf)
    /\ on_generateVideos env (calls w0) (veo_request prompt) = Resolved submitted
    /\ poll_until_done env fuel submitted
         (with_call (generateVideos (veo_request prompt)) w0)
       = (Resolved finished, snd (generateVideo env fuel prompt w))
    /\ done finished = true
    /\ operation_videoUri finished = Some videoUri
    /\ truthy videoUri = true
    /\ u = (videoUri ++ "&key="
            ++ API_KEY env (calls (snd (generateVideo env fuel prompt w))))%string
    /\ truthy u = true.
Proof.
  rewrite generateVideo_unfold.
  pose proof (runGen_reference env fuel prompt w u) as H1.
  destruct (runGen env fuel prompt w) as [[u1 | e | ] w1] eqn:Hrun;
    cbn [fst snd] in *; try discriminate.
  - intro H. destruct (H1 H) as (op & op' & v & Hsub & Hpoll & Hd & Huri & Hv & Hu).
    exists w, op, op', v.
    split; [left; reflexivity | ].
    repeat (split; [assumption | ]).
    rewrite Hu. apply truthy_app. exact Hv.
  - destruct (isNotFound e) as [typeError | [ | ]] eqn:Hfound;
      cbn [fst snd]; try discriminate.
    destruct (can_openSelectKey env); cbn [andb fst snd]; try discriminate.
    destruct (on_openSelectKey env (calls w1)) as [[] | e' | ] eqn:Hprompt;
      try discriminate.
    pose proof (runGen_reference env fuel prompt (with_call openSelectKey w1) u)
      as H2.
    destruct (runGen env fuel prompt (with_call openSelectKey w1))
      as [[u2 | e2 | ] w2]; cbn [fst snd] in *; try discriminate.
    intro H. destruct (H2 H) as (op & op' & v & Hsub & Hpoll & Hd & Huri & Hv & Hu).
    exists (with_call openSelectKey w1), op, op', v.
    split; [right; exists e, w1; auto | ].
    repeat (split; [assumption | ]).
    rewrite Hu. apply truthy_app. exact Hv.
Qed.

(** X5 on a run: the job is submitted and is done at once. *)
Lemma X5_video_reference_carries_key_witness :
  exists videoUri,
    operation_videoUri (finished_video first_video) = Some videoUri
    /\ "https://video.example/first?alt=media&key=KEY"
       = (videoUri ++ "&key="
          ++ API_KEY happy
               (calls (snd (generateVideo happy 3 "neon rain" initial_World))))%string.
Proof.
  destruct (X5_video_reference_carries_key happy 3 "neon rain" initial_World
              "https://video.example/first?alt=media&key=KEY" eq_refl)
    as (w0 & submitted & finished & videoUri
        & Hw0 & Hsub & Hpoll & Hd & Huri & Hv & Hu & _).
  exists videoUri. split; [ | exact Hu].
  destruct Hw0 as [Hw0 | (e & wf & Hr & _)]; [ | discriminate Hr].
  subst w0. injection Hsub as Hsub. subst submitted.
  injection Hpoll as Hpoll. subst finished. exact Huri.
Defined.

(** One submission-and-poll sequence starts with its submission, and
    makes no other submission and no prompt. *)
Lemma runGen_log env fuel prompt w :
  exists l,
    calls (snd (runGen env fuel prompt w))
    = calls w ++ generateVideos (veo_request prompt) :: l
    /\ prompts l = 0 /\ submissions l = 0.
Proof.
  unfold runGen, bind, ai_generateVideos, request; simpl.
  destruct (on_generateVideos env (calls w) (veo_request prompt))
    as [op | e | ]; simpl.
  - destruct (poll_until_done_calls env fuel op
                (with_call (generateVideos (veo_request prompt)) w))
      as (l & Hl & Hp & Hs).
    exists l.
    assert (Hcalls : calls (with_call (generateVideos (veo_request prompt)) w) ++ l
                     = calls w ++ generateVideos (veo_request prompt) :: l).
    { simpl. rewrite <- app_assoc. reflexivity. }
    rewrite <- Hcalls, <- Hl.
    split; [ | split; [exact Hp | exact Hs]].
    destruct (poll_until_done env fuel op _) as [[op' | e | ] w1]; simpl;
      try reflexivity.
    destruct (operation_videoUri op') as [u | ]; simpl; try reflexivity.
    destruct (truthy u); reflexivity.
  - exists []. auto.
  - exists []. auto.
Qed.

(** X6: whatever happens, the requests of [generateVideo] are those of
    a first submission-and-poll sequence, then possibly the key prompt,
    then possibly a second sequence.  Each sequence starts with its
    submission and makes no other, and neither contains a prompt: so
    the job is submitted once or twice, the prompt is opened at most
    once, and a second submission comes right after the prompt.  When
    the first sequence does not throw, [generateVideo] is that sequence
    and nothing more. *)
Theorem X6_video_attempts_bounded env fuel prompt w :
  let log := new_calls w (snd (generateVideo env fuel prompt w)) in
  (exists first,
     (log = generateVideos (veo_request prompt) :: first
      \/ log = generateVideos (veo_request prompt) :: first ++ [openSelectKey]
      \/ exists second,
           log = generateVideos (veo_request prompt) :: first
                 ++ openSelectKey
                 :: generateVideos (veo_request prompt) :: second
           /\ submissions second = 0 /\ prompts second = 0)
     /\ submissions first = 0 /\ prompts first = 0)
  /\ prompts log <= 1
  /\ 1 <= submissions log <= 2
  /\ (submissions log = 2 -> prompts log = 1)
  /\ ((forall e, fst (runGen env fuel prompt w) <> Rejected e) ->
      generateVideo env fuel prompt w = runGen env fuel prompt w
      /\ prompts log = 0 /\ submissions log = 1).
Proof.
  intro log.
  assert (Hshape :
    (exists first,
       (log = generateVideos (veo_request prompt) :: first
        \/ log = generateVideos (veo_request prompt) :: first ++ [openSelectKey]
        \/ exists second,
             log = generateVideos (veo_request prompt) :: first
                   ++ openSelectKey
                   :: generateVideos (veo_request prompt) :: second
             /\ submissions second = 0 /\ prompts second = 0)
       /\ submissions first = 0 /\ prompts first = 0)
    /\ ((forall e, fst (runGen env fuel prompt w) <> Rejected e) ->
        generateVideo env fuel prompt w = runGen env fuel prompt w
        /\ log = new_calls w (snd (runGen env fuel prompt w)))).
  { subst log. rewrite generateVideo_unfold.
    destruct (runGen_log env fuel prompt w) as (l & Hl & Hp & Hs).
    destruct (runGen env fuel prompt w) as [[u | e | ] w1] eqn:Hrun;
      cbn [fst snd] in *.
    - split; [ | auto].
      exists l. rewrite (new_calls_app w w1 _ Hl). auto.
    - assert (Hno : (forall e0 : JsError,
                       @Rejected (option string) e <> Rejected e0) -> False).
      { intro H. apply (H e). reflexivity. }
      split; [ | intro H; contradiction (Hno H)].
      exists l. split; [ | auto].
      assert (Hone : calls (with_call openSelectKey w1)
                     = calls w ++ (generateVideos (veo_request prompt) :: l)
                       ++ [openSelectKey]).
      { simpl. rewrite Hl, <- app_assoc. reflexivity. }
      destruct (isNotFound e) as [typeError | found]; cbn [snd];
        [left; apply (new_calls_app w w1 _ Hl) | ].
      destruct (found && can_openSelectKey env); cbn [snd];
        [ | left; apply (new_calls_app w w1 _ Hl)].
      destruct (on_openSelectKey env (calls w1)) as [[] | e' | ]; cbn [snd];
        [ | right; left; apply (new_calls_app w _ _ Hone)
          | right; left; apply (new_calls_app w _ _ Hone)].
      right; right.
      destruct (runGen_log env fuel prompt (with_call openSelectKey w1))
        as (l2 & Hl2 & Hp2 & Hs2).
      exists l2. split; [ | auto].
      assert (Hsnd :
        snd (match runGen env fuel prompt (with_call openSelectKey w1) with
             | (Rejected _, w2) => (Resolved None, w2)
             | r2 => r2
             end)
        = snd (runGen env fuel prompt (with_call openSelectKey w1))).
      { destruct (runGen env fuel prompt (with_call openSelectKey w1))
          as [[u | e' | ] w2]; reflexivity. }
      rewrite Hsnd. apply new_calls_app.
      rewrite Hl2, Hone, <- !app_assoc. reflexivity.
    - split; [ | auto].
      exists l. rewrite (new_calls_app w w1 _ Hl). auto. }
  destruct Hshape as ((first & Hlog & Hsf & Hpf) & Hplain).
  split; [exists first; auto | ].
  assert (Hcount : forall l, submissions (generateVideos (veo_request prompt) :: l)
                             = S (submissions l)
                             /\ prompts (generateVideos (veo_request prompt) :: l)
                                = prompts l).
  { intro l. unfold submissions, prompts. simpl. auto. }
  assert (Hkey : forall l, submissions (openSelectKey :: l) = submissions l
                           /\ prompts (openSelectKey :: l) = S (prompts l)).
  { intro l. unfold submissions, prompts. simpl. auto. }
  assert (Hall : prompts log <= 1 /\ 1 <= submissions log <= 2
                 /\ (submissions log = 2 -> prompts log = 1)
                 /\ (log = generateVideos (veo_request prompt) :: first ->
                     prompts log = 0 /\ submissions log = 1)).
  { destruct (Hcount first) as (N1 & N2).
    destruct (Hcount (first ++ [openSelectKey])) as (N3 & N4).
    destruct (Hkey (@nil Call)) as (K1 & K2).
    destruct Hlog as [Hlog | [Hlog | (second & Hlog & Hs2 & Hp2)]];
      rewrite Hlog.
    - rewrite N1, N2, Hsf, Hpf. repeat split; lia.
    - rewrite N3, N4, submissions_app, prompts_app, K1, K2, Hsf, Hpf.
      unfold submissions, prompts. simpl.
      repeat split; try lia.
      all: exfalso;
        match goal with
        | Heq : _ :: _ = _ :: _ |- _ =>
            injection Heq as Heq; apply (f_equal (@length Call)) in Heq;
            rewrite length_app in Heq; simpl in Heq; lia
        end.
    - destruct (Hcount (first ++ openSelectKey
                        :: generateVideos (veo_request prompt) :: second))
        as (N5 & N6).
      destruct (Hkey (generateVideos (veo_request prompt) :: second))
        as (K3 & K4).
      destruct (Hcount second) as (N7 & N8).
      rewrite N5, N6, submissions_app, prompts_app, K3, K4, N7, N8,
        Hsf, Hpf, Hs2, Hp2.
      repeat split; try lia.
      all: exfalso;
        match goal with
        | Heq : _ :: _ = _ :: _ |- _ =>
            injection Heq as Heq; apply (f_equal (@length Call)) in Heq;
            rewrite length_app in Heq; simpl in Heq; lia
        end. }
  destruct Hall as (A1 & A2 & A3 & A4).
  split; [exact A1 | split; [exact A2 | split; [exact A3 | ]]].
  intro Hnr. destruct (Hplain Hnr) as (Hg & Hlog').
  split; [exact Hg | ].
  destruct (runGen_log env fuel prompt w) as (l & Hl & Hp & Hs).
  rewrite Hlog', (new_calls_app w _ _ Hl).
  destruct (Hcount l) as (N1 & N2). rewrite N1, N2. lia.
Qed.

(* ===================================================================== *)
(** ** Further properties of the recording handlers *)
(* ===================================================================== *)

Lemma checkApiKey_calls env w :
  exists la, calls (snd (checkApiKey env w)) = calls w ++ la
             /\ forall t, ~ In (track_stop t) la.
Proof.
  rewrite checkApiKey_unfold.
  destruct (window_aistudio env) as [ai | ];
    [ | exists []; simpl; rewrite app_nil_r; auto].
  destruct (has_hasSelectedApiKey ai);
    [ | exists []; simpl; rewrite app_nil_r; auto].
  destruct (on_hasSelectedApiKey env (calls w)) as [hasKey | e | ];
    try (exists [hasSelectedApiKey]; split; [reflexivity | ];
         intros t [H | []]; discriminate).
  destruct (negb hasKey && has_openSelectKey ai).
  - exists [hasSelectedApiKey; openSelectKey].
    split; [simpl; rewrite <- app_assoc; reflexivity | ].
    intros t [H | [H | []]]; discriminate.
  - exists [hasSelectedApiKey]. split; [reflexivity | ].
    intros t [H | []]; discriminate.
Qed.

(** A start that goes through. *)
Lemma startRecording_success env w :
  fst (start_attempt env w) = Resolved tt ->
  exists audioStream,
    on_getUserMedia env (calls (snd (checkApiKey env w))) = Resolved audioStream
    /\ startRecording env w = start_attempt env w
    /\ ui (snd (startRecording env w))
       = setError None
           (setState RECORDING
              (setMediaRecorder
                 (Some {| recorder_stream := audioStream;
                          recorder_state := recording |})
                 (set_chunksRef [] (setStream (Some audioStream) (ui w)))))
    /\ new_calls w (snd (startRecording env w))
       = new_calls w (snd (checkApiKey env w))
         ++ [getUserMedia; new_MediaRecorder audioStream; recorder_start].
Proof.
  intro Hok.
  assert (Hsame : startRecording env w = start_attempt env w).
  { unfold startRecording, try_catch.
    destruct (start_attempt env w) as [[[] | e | ] w']; try discriminate.
    reflexivity. }
  rewrite Hsame. revert Hok. rewrite start_attempt_unfold.
  pose proof (checkApiKey_page env w) as Hp.
  destruct (checkApiKey_calls env w) as (la & Hla & _).
  destruct (checkApiKey env w) as [[[] | e | ] wc]; cbn [fst snd] in *;
    try discriminate.
  apply page_fields in Hp. destruct Hp as (Hu & _).
  destruct (on_getUserMedia env (calls wc)) as [s | e | ]; try discriminate.
  cbv zeta.
  destruct (on_new_MediaRecorder env _ s) as [[] | e | ]; try discriminate.
  destruct (on_recorder_start env _) as [[] | e | ]; try discriminate.
  intros _. exists s.
  split; [reflexivity | split; [reflexivity | split]].
  - cbn. rewrite Hu. reflexivity.
  - rewrite (new_calls_app w wc la Hla).
    apply new_calls_app. cbn. rewrite Hla, <- !app_assoc. reflexivity.
Qed.

(** X7: a start that goes through ends in [RECORDING] with the granted
    stream and a recorder on it, the chunks emptied and the error
    message cleared -- also one left by an earlier failure; everything
    else of the page is as before.  Its requests are those of the
    authorization check, then the microphone, the recorder and its
    start, in this order. *)
Theorem X7_start_success_clears_error env w :
  fst (start_attempt env w) = Resolved tt ->
  exists audioStream,
    on_getUserMedia env (calls (snd (checkApiKey env w))) = Resolved audioStream
    /\ startRecording env w = start_attempt env w
    /\ ui (snd (startRecording env w))
       = setError None
           (setState RECORDING
              (setMediaRecorder
                 (Some {| recorder_stream := audioStream;
                          recorder_state := recording |})
                 (set_chunksRef [] (setStream (Some audioStream) (ui w)))))
    /\ page (snd (startRecording env w))
       = (ui (snd (startRecording env w)), inflight w, onstop_queued w, session w)
    /\ new_calls w (snd (startRecording env w))
       = new_calls w (snd (checkApiKey env w))
         ++ [getUserMedia; new_MediaRecorder audioStream; recorder_start].
Proof.
  intro Hok.
  destruct (startRecording_success env w Hok) as (s & H1 & H2 & H3 & H4).
  exists s. split; [exact H1 | split; [exact H2 | split; [exact H3 | ]]].
  split; [ | exact H4].
  pose proof (startRecording_beyond env w) as Hb.
  unfold beyond_recording in Hb. injection Hb as _ _ _ Hi Hq Hs.
  unfold page. rewrite Hi, Hq, Hs. reflexivity.
Qed.

(** X7 on a run: a start after a refused microphone. *)
Lemma X7_start_success_clears_error_witness :
  let w := snd (startRecording no_microphone initial_World) in
  error (ui w) = Some recording_error
  /\ state (ui (snd (startRecording happy w))) = RECORDING
  /\ error (ui (snd (startRecording happy w))) = None
  /\ chunksRef (ui (snd (startRecording happy w))) = [].
Proof.
  intro w.
  destruct (X7_start_success_clears_error happy w eq_refl)
    as (s & _ & _ & Hui & _ & _).
  rewrite Hui. repeat split.
Defined.

(** X8: when the microphone was granted and the recorder cannot be
    constructed or started, the failed start leaves the granted stream
    in the component state and stops none of its tracks; the phase and
    the recorder of the state are as before, and the error message is
    set. *)
Theorem X8_failed_start_keeps_the_stream env w wc audioStream e :
  checkApiKey env w = (Resolved tt, wc) ->
  on_getUserMedia env (calls wc) = Resolved audioStream ->
  on_new_MediaRecorder env (calls wc ++ [getUserMedia]) audioStream = Rejected e
  \/ (on_new_MediaRecorder env (calls wc ++ [getUserMedia]) audioStream
      = Resolved tt
      /\ on_recorder_start env
           (calls wc ++ [getUserMedia] ++ [new_MediaRecorder audioStream])
         = Rejected e) ->
  let w' := snd (startRecording env w) in
  stream (ui w') = Some audioStream
  /\ state (ui w') = state (ui w)
  /\ mediaRecorder (ui w') = mediaRecorder (ui w)
  /\ error (ui w') = Some recording_error
  /\ forall t, ~ In (track_stop t) (new_calls w w').
Proof.
  intros Hcheck Hmic Hfail w'. subst w'.
  pose proof (checkApiKey_page env w) as Hp.
  destruct (checkApiKey_calls env w) as (la & Hla & Hnt).
  rewrite Hcheck in Hp, Hla. cbn [snd] in Hp, Hla.
  apply page_fields in Hp. destruct Hp as (Hu & _).
  unfold startRecording, try_catch.
  rewrite start_attempt_unfold, Hcheck, Hmic. cbv zeta.
  change (calls (with_ui (setStream (Some audioStream)) (with_call getUserMedia wc)))
    with (calls wc ++ [getUserMedia]).
  destruct Hfail as [Hctor | [Hctor Hstart]]; rewrite Hctor.
  - cbn. rewrite Hu.
    repeat split.
    intros t Hin.
    rewrite (new_calls_app w _ (la ++ [getUserMedia; new_MediaRecorder audioStream]))
      in Hin; [ | cbn; rewrite Hla, <- !app_assoc; reflexivity].
    apply in_app_or in Hin. destruct Hin as [Hin | [Hin | [Hin | []]]];
      try discriminate. exact (Hnt t Hin).
  - change (calls (with_ui (set_chunksRef [])
                     (with_call (new_MediaRecorder audioStream)
                        (with_ui (setStream (Some audioStream))
                           (with_call getUserMedia wc)))))
      with ((calls wc ++ [getUserMedia]) ++ [new_MediaRecorder audioStream]).
    rewrite <- app_assoc, Hstart.
    cbn. rewrite Hu.
    repeat split.
    intros t Hin.
    rewrite (new_calls_app w _
               (la ++ [getUserMedia; new_MediaRecorder audioStream; recorder_start]))
      in Hin; [ | cbn; rewrite Hla, <- !app_assoc; reflexivity].
    apply in_app_or in Hin. destruct Hin as [Hin | [Hin | [Hin | [Hin | []]]]];
      try discriminate. exact (Hnt t Hin).
Qed.

(** X8 on a run: the browser cannot record from the granted stream. *)
Lemma X8_failed_start_keeps_the_stream_witness :
  let w' := snd (startRecording recorder_unsupported initial_World) in
  stream (ui w') = Some one_track
  /\ state (ui w') = IDLE
  /\ error (ui w') = Some recording_error
  /\ ~ In (track_stop 0) (new_calls initial_World w').
Proof.
  intro w'.
  destruct (X8_failed_start_keeps_the_stream recorder_unsupported initial_World
              (with_call hasSelectedApiKey initial_World) one_track
              (new_Error "NotSupportedError") eq_refl eq_refl
              (or_introl eq_refl))
    as (H1 & H2 & _ & H3 & H4).
  split; [exact H1 | split; [exact H2 | split; [exact H3 | apply H4]]].
Defined.

Lemma stop_tracks_calls ts :
  forall w, calls (snd (stop_tracks ts w)) = calls w ++ map track_stop ts.
Proof.
  induction ts as [ | t ts IH]; intro w; simpl.
  - rewrite app_nil_r. reflexivity.
  - unfold bind, request. cbn [fst snd]. rewrite IH. simpl.
    rewrite <- app_assoc. reflexivity.
Qed.

(** The world after an effective stop. *)
Lemma stopRecording_recording w r :
  mediaRecorder (ui w) = Some r -> recorder_state r = recording ->
  let ts := match stream (ui w) with
            | Some s => tracks s
            | None => []
            end in
  snd (stopRecording w)
  = {| ui := setState ANALYZING
               (setStream None
                  (setMediaRecorder
                     (Some {| recorder_stream := recorder_stream r;
                              recorder_state := inactive |}) (ui w)));
       calls := calls w ++ recorder_stop :: map track_stop ts;
       inflight := inflight w;
       onstop_queued := true;
       session := session w |}.
Proof.
  intros Hr Hs ts. rewrite stopRecording_unfold, Hr, Hs. cbv zeta. fold ts.
  match goal with
  | |- context [stop_tracks ts ?x] =>
      pose proof (stop_tracks_page ts x) as Hp;
      pose proof (stop_tracks_calls ts x) as Hc;
      destruct (stop_tracks ts x) as [o wt]
  end.
  cbn [fst snd] in *. apply page_fields in Hp.
  destruct Hp as (Hu & Hi & Hq & Hse). cbn in Hu, Hi, Hq, Hse, Hc.
  unfold with_ui. cbn. rewrite Hu, Hi, Hq, Hse, Hc, <- app_assoc. reflexivity.
Qed.

(** X9: [stopRecording] does nothing without a recorder that records.
    Otherwise it stops the recorder, then every track of the stream in
    the state, in their order, and nothing else; the stream is dropped
    from the state, the phase is [ANALYZING] and the recorder's [stop]
    event is due.  A second call right after changes nothing. *)
Theorem X9_stop_releases_every_track w :
  (forall r, mediaRecorder (ui w) = Some r -> recorder_state r = recording ->
   let w' := snd (stopRecording w) in
   new_calls w w'
   = recorder_stop :: map track_stop (match stream (ui w) with
                                      | Some s => tracks s
                                      | None => []
                                      end)
   /\ state (ui w') = ANALYZING
   /\ stream (ui w') = None
   /\ onstop_queued w' = true)
  /\ (mediaRecorder (ui w) = None
      \/ (exists r, mediaRecorder (ui w) = Some r /\ recorder_state r = inactive) ->
      stopRecording w = (Resolved tt, w))
  /\ stopRecording (snd (stopRecording w)) = (Resolved tt, snd (stopRecording w)).
Proof.
  split; [ | split].
  - intros r Hr Hs w'. subst w'.
    rewrite (stopRecording_recording w r Hr Hs). cbn.
    split; [ | auto].
    apply new_calls_app. reflexivity.
  - intros [Hnone | (r & Hr & Hs)]; rewrite stopRecording_unfold.
    + rewrite Hnone. reflexivity.
    + rewrite Hr, Hs. reflexivity.
  - destruct (mediaRecorder (ui w)) as [r | ] eqn:Hr.
    + destruct (recorder_state r) eqn:Hs.
      * assert (H : stopRecording w = (Resolved tt, w))
          by (rewrite stopRecording_unfold, Hr, Hs; reflexivity).
        rewrite H. cbn [snd]. exact H.
      * rewrite (stopRecording_recording w r Hr Hs).
        rewrite stopRecording_unfold. reflexivity.
    + assert (H : stopRecording w = (Resolved tt, w))
        by (rewrite stopRecording_unfold, Hr; reflexivity).
      rewrite H. cbn [snd]. exact H.
Qed.

(** X10: a recording that was started can be stopped.  After a start
    that went through, on whatever page, a call of [stopRecording]
    stops the recorder that the start created and then every track of
    the stream that the start was granted, and nothing else; the stream
    is dropped from the state, the recorder of the state is inactive,
    the phase is [ANALYZING] and the [stop] event is due.  A further
    call does nothing. *)
Theorem X10_started_recording_can_be_stopped env w :
  fst (start_attempt env w) = Resolved tt ->
  let w1 := snd (startRecording env w) in
  let w2 := snd (stopRecording w1) in
  exists audioStream,
    on_getUserMedia env (calls (snd (checkApiKey env w))) = Resolved audioStream
    /\ stream (ui w1) = Some audioStream
    /\ mediaRecorder (ui w1)
       = Some {| recorder_stream := audioStream; recorder_state := recording |}
    /\ new_calls w1 w2 = recorder_stop :: map track_stop (tracks audioStream)
    /\ state (ui w2) = ANALYZING
    /\ stream (ui w2) = None
    /\ mediaRecorder (ui w2)
       = Some {| recorder_stream := audioStream; recorder_state := inactive |}
    /\ onstop_queued w2 = true
    /\ stopRecording w2 = (Resolved tt, w2).
Proof.
  intros Hok w1 w2.
  destruct (startRecording_success env w Hok) as (s & Hmic & _ & Hui & _).
  exists s.
  assert (Hs : stream (ui w1) = Some s) by (unfold w1; rewrite Hui; reflexivity).
  assert (Hr : mediaRecorder (ui w1)
               = Some {| recorder_stream := s; recorder_state := recording |})
    by (unfold w1; rewrite Hui; reflexivity).
  pose proof (stopRecording_recording w1 _ Hr eq_refl) as Hstop.
  cbv zeta in Hstop. rewrite Hs in Hstop. fold w2 in Hstop.
  split; [exact Hmic | split; [exact Hs | split; [exact Hr | ]]].
  split; [apply new_calls_app; rewrite Hstop; reflexivity | ].
  rewrite Hstop.
  do 4 (split; [reflexivity | ]).
  rewrite stopRecording_unfold. reflexivity.
Qed.

(** X10 on a run: start, then stop. *)
Lemma X10_started_recording_can_be_stopped_witness :
  new_calls (snd (startRecording happy initial_World))
    (snd (stopRecording (snd (startRecording happy initial_World))))
  = [recorder_stop; track_stop 0].
Proof.
  destruct (X10_started_recording_can_be_stopped happy initial_World eq_refl)
    as (s & Hmic & _ & _ & Hcalls & _).
  injection Hmic as Hmic. subst s. exact Hcalls.
Defined.

(* ===================================================================== *)
(** ** What the page shows *)
(* ===================================================================== *)

Lemma or_default_truthy m : truthy (or_default m generation_error) = true.
Proof.
  unfold or_default. destruct m as [s | ]; [ | reflexivity].
  destruct (truthy s) eqn:H; [exact H | reflexivity].
Qed.

(** The component state after [startRecording]. *)
Lemma startRecording_ui env w :
  let a' := ui (snd (startRecording env w)) in
  (exists s,
     a' = setError None
            (setState RECORDING
               (setMediaRecorder
                  (Some {| recorder_stream := s; recorder_state := recording |})
                  (set_chunksRef [] (setStream (Some s) (ui w))))))
  \/ (state a' = state (ui w)
      /\ mediaRecorder a' = mediaRecorder (ui w)
      /\ personality a' = personality (ui w)
      /\ assets a' = assets (ui w)).
Proof.
  unfold startRecording, try_catch. rewrite start_attempt_unfold.
  pose proof (checkApiKey_page env w) as Hp.
  destruct (checkApiKey env w) as [[[] | e | ] wc]; cbn [fst snd] in *;
    apply page_fields in Hp; destruct Hp as (Hu & _);
    try (right; cbn; rewrite Hu; auto; fail).
  destruct (on_getUserMedia env (calls wc)) as [s | e | ];
    try (right; cbn; rewrite Hu; auto; fail).
  cbv zeta.
  destruct (on_new_MediaRecorder env _ s) as [[] | e | ];
    try (right; cbn; rewrite Hu; auto; fail).
  destruct (on_recorder_start env _) as [[] | e | ];
    try (right; cbn; rewrite Hu; auto; fail).
  left. exists s. cbn. rewrite Hu. reflexivity.
Qed.

(** The component state after [handleRecordingStop]. *)
Lemma handleRecordingStop_ui env fuel w :
  let a' := ui (snd (handleRecordingStop env fuel w)) in
  let a0 := setStatusMessage "Extracting personality vector..." (ui w) in
  let published an :=
    setStatusMessage "Generating multimodal experience..."
      (setState GENERATING_ASSETS
         (setPersonality (Some (Types.personality an)) a0)) in
  (a' = a0 /\ fst (analysis_step env w) = Pending)
  \/ (exists e, fst (analysis_step env w) = Rejected e
                /\ a' = setState ERROR
                          (setError (Some (or_default (message e) generation_error))
                             a0))
  \/ (exists an, fst (analysis_step env w) = Resolved an
       /\ (a' = published an
           \/ (exists e, a' = setState ERROR
                               (setError
                                  (Some (or_default (message e) generation_error))
                                  (published an)))
           \/ (exists x y, a' = setState SHOWCASE
                                  (setAssets
                                     (fun _ => Some (initialAssets an x y))
                                     (published an))))).
Proof.
  cbv zeta. rewrite handleRecordingStop_unfold.
  pose proof (analysis_step_page env w) as Hpa.
  destruct (analysis_step env w) as [[an | e | ] wa]; cbn [fst snd] in *;
    apply page_fields in Hpa; destruct Hpa as (Hu & _); cbn in Hu.
  - right. right. exists an. split; [reflexivity | ].
    pose proof (art_and_speech_page env an (snd (publish_analysis an wa))) as Hpb.
    destruct (art_and_speech env an (snd (publish_analysis an wa)))
      as [[[x y] | e | ] ws]; cbn [snd] in Hpb;
      apply page_fields in Hpb; destruct Hpb as (Hu' & _); cbn in Hu'.
    + right. right. exists x, y.
      destruct (showcase_ui env fuel an x y ws) as (Hs & _).
      rewrite Hs, Hu', Hu. reflexivity.
    + right. left. exists e. cbn. rewrite Hu', Hu. reflexivity.
    + left. cbn. rewrite Hu', Hu. reflexivity.
  - right. left. exists e. split; [reflexivity | ].
    cbn. rewrite Hu. reflexivity.
  - left. split; [exact Hu | reflexivity].
Qed.

Lemma video_then_cases u a :
  video_then u a = a
  \/ exists s, truthy s = true /\ u = Some s
               /\ video_then u a = setAssets (patch_videoUri s) a.
Proof.
  destruct u as [s | ]; [ | left; reflexivity].
  simpl. destruct (truthy s) eqn:H; [ | left; reflexivity].
  right. exists s. auto.
Qed.

Lemma initial_page_invariant : page_invariant initial_World.
Proof.
  unfold page_invariant. simpl.
  repeat split; try discriminate; try reflexivity; try (intros; lia).
Qed.

(** Closes the conjuncts of [page_invariant] that follow from the
    hypotheses at hand. *)
Ltac page_facts :=
  repeat split; intros;
  try congruence;
  try (simpl in *; lia);
  try (exfalso; eauto; fail);
  try (match goal with
       | H : Some _ = Some ?r, H' : recorder_state ?r = recording |- _ =>
           injection H as H; subst r; discriminate H'
       end);
  try (eexists; split; [reflexivity | apply or_default_truthy]);
  try (eexists; split; reflexivity);
  eauto.

Lemma step_page_invariant ev w w' :
  invariant w -> page_invariant w -> step ev w = Some w' -> page_invariant w'.
Proof.
  intros Hinv Hpage Hstep.
  pose proof Hinv as (Ha & Hq & _).
  pose proof Hpage as (Prec & Pmr & Pshow & Pgen & Perr & Ppers & Pstream).
  assert (Hmr : state (ui w) <> RECORDING ->
                forall r, mediaRecorder (ui w) = Some r ->
                          recorder_state r = recording -> False).
  { intros Hn r H1 H2. apply Hn. exact (Pmr r H1 H2). }
  destruct ev as [env | chunk | env fuel | | i]; simpl in Hstep.
  - destruct (state (ui w)) eqn:Hst; try discriminate;
      injection Hstep as Hw'; subst w'.
    + (* start *)
      assert (Hp : personality (ui w) = None) by (apply Ppers; simpl; lia).
      specialize (Hmr ltac:(discriminate)).
      destruct (startRecording_ui env w) as [(s & Hui) | (H1 & H2 & H3 & H4)].
      * unfold page_invariant. rewrite Hui. cbn. rewrite Hp. page_facts.
      * unfold page_invariant. rewrite H1, H2, H3, H4, Hst, Hp. page_facts.
    + (* stop *)
      assert (Hp : personality (ui w) = None) by (apply Ppers; simpl; lia).
      destruct (Prec eq_refl) as (s & Hs & Hr).
      rewrite (stopRecording_recording w _ Hr eq_refl).
      unfold page_invariant. cbn. rewrite Hp. page_facts.
  - (* a chunk *)
    destruct (recorder_delivers w); [ | discriminate].
    injection Hstep as Hw'; subst w'.
    destruct (truthy chunk); exact Hpage.
  - (* the pipeline *)
    destruct (onstop_queued w) eqn:Hqueued; [ | discriminate].
    injection Hstep as Hw'; subst w'.
    specialize (Hq eq_refl).
    assert (Hs : stream (ui w) = None) by (apply Pstream; rewrite Hq; simpl; lia).
    assert (Hp : personality (ui w) = None) by (apply Ppers; rewrite Hq; simpl; lia).
    specialize (Hmr ltac:(congruence)).
    destruct (handleRecordingStop_ui env fuel (with_onstop false w))
      as [[Hui _] | [(e & _ & Hui) | (an & _ & [Hui | [(e & Hui) | (x & y & Hui)]])]];
      unfold page_invariant; rewrite Hui; cbn; rewrite ?Hq, ?Hs, ?Hp;
      page_facts.
  - (* reset *)
    assert (Hn : state (ui w) <> RECORDING)
      by (destruct (state (ui w)); discriminate).
    specialize (Hmr Hn).
    destruct (state (ui w)); try discriminate;
      injection Hstep as Hw'; subst w'; unfold page_invariant; cbn;
      page_facts.
  - (* a video task *)
    destruct (nth_error (inflight w) i) as [t | ]; [ | discriminate].
    destruct (settles_with t) as [u | e | ]; try discriminate;
      injection Hstep as Hw'; subst w'; [ | exact Hpage].
    destruct (video_then_cases u (ui w)) as [Hsame | (s & _ & _ & Hpatch)];
      unfold page_invariant; cbn; [rewrite Hsame; exact Hpage | ].
    rewrite Hpatch. cbn.
    split; [exact Prec | split; [exact Pmr | split; [ | split; [exact Pgen | ]]]].
    + intro Hst. destruct (Pshow Hst) as (Hp & Has).
      split; [exact Hp | ].
      destruct (assets (ui w)); [discriminate | contradiction].
    + split; [exact Perr | split; [exact Ppers | exact Pstream]].
Qed.

Lemma run_page_invariant evs :
  forall w w', invariant w -> page_invariant w -> run evs w = Some w' ->
               page_invariant w'.
Proof.
  induction evs as [ | ev evs IH]; intros w w' Hinv Hpage Hrun; simpl in Hrun.
  - injection Hrun as Hw. subst. exact Hpage.
  - destruct (step ev w) as [w1 | ] eqn:Hstep; [ | discriminate].
    apply (IH w1 w'); [ | | exact Hrun].
    + eapply step_invariant; eassumption.
    + eapply step_page_invariant; eassumption.
Qed.

Lemma reachable_page_invariant evs w :
  run evs initial_World = Some w -> page_invariant w.
Proof.
  apply run_page_invariant; [apply initial_invariant | apply initial_page_invariant].
Qed.

Lemma startRecording_phase env w :
  (fst (start_attempt env w) = Resolved tt ->
   state (ui (snd (startRecording env w))) = RECORDING)
  /\ (fst (start_attempt env w) <> Resolved tt ->
      state (ui (snd (startRecording env w))) = state (ui w)).
Proof.
  unfold startRecording, try_catch. rewrite start_attempt_unfold.
  pose proof (checkApiKey_page env w) as Hp.
  destruct (checkApiKey env w) as [[[] | e | ] wc]; cbn [fst snd] in *;
    apply page_fields in Hp; destruct Hp as (Hu & _);
    try (split; [discriminate | intros _; cbn; rewrite Hu; reflexivity]).
  destruct (on_getUserMedia env (calls wc)) as [s | e | ];
    try (split; [discriminate | intros _; cbn; rewrite Hu; reflexivity]).
  cbv zeta.
  destruct (on_new_MediaRecorder env _ s) as [[] | e | ];
    try (split; [discriminate | intros _; cbn; rewrite Hu; reflexivity]).
  destruct (on_recorder_start env _) as [[] | e | ];
    try (split; [discriminate | intros _; cbn; rewrite Hu; reflexivity]).
  split; [intros _; reflexivity | intro H; contradiction H; reflexivity].
Qed.

(** X11: which handler writes which phase, on whatever page it runs.
    [startRecording] sets [RECORDING] when its attempt goes through and
    leaves the phase alone when it throws or does not settle.
    [stopRecording] sets [ANALYZING] when the state holds a recorder
    that records, and does nothing otherwise.  [handleRecordingStop]
    leaves the phase alone while the analysis is pending, sets [ERROR]
    when the analysis throws, and after the analysis it ends in
    [GENERATING_ASSETS], [SHOWCASE] or [ERROR].  [reset] sets [IDLE].
    The callback of a video task writes no phase.  So [IDLE] is written
    by [reset] only, [RECORDING] by [startRecording] only, [ANALYZING]
    by [stopRecording] only, and the other three by the pipeline
    only. *)
Theorem X11_phases_written_by_the_handlers env fuel w :
  (fst (start_attempt env w) = Resolved tt ->
   state (ui (snd (startRecording env w))) = RECORDING)
  /\ (fst (start_attempt env w) <> Resolved tt ->
      state (ui (snd (startRecording env w))) = state (ui w))
  /\ (forall r, mediaRecorder (ui w) = Some r -> recorder_state r = recording ->
      state (ui (snd (stopRecording w))) = ANALYZING)
  /\ (mediaRecorder (ui w) = None
      \/ (exists r, mediaRecorder (ui w) = Some r /\ recorder_state r = inactive) ->
      snd (stopRecording w) = w)
  /\ (fst (analysis_step env w) = Pending ->
      state (ui (snd (handleRecordingStop env fuel w))) = state (ui w))
  /\ (forall e, fst (analysis_step env w) = Rejected e ->
      state (ui (snd (handleRecordingStop env fuel w))) = ERROR)
  /\ (forall an, fst (analysis_step env w) = Resolved an ->
      state (ui (snd (handleRecordingStop env fuel w))) = GENERATING_ASSETS
      \/ state (ui (snd (handleRecordingStop env fuel w))) = SHOWCASE
      \/ state (ui (snd (handleRecordingStop env fuel w))) = ERROR)
  /\ state (ui (snd (reset w))) = IDLE
  /\ (forall u, state (video_then u (ui w)) = state (ui w)).
Proof.
  destruct (startRecording_phase env w) as (S1 & S2).
  split; [exact S1 | split; [exact S2 | ]].
  split.
  { intros r Hr Hrec. rewrite (stopRecording_recording w r Hr Hrec). reflexivity. }
  split.
  { intro H. rewrite stopRecording_unfold.
    destruct H as [H | (r & H & Hin)]; rewrite H; [reflexivity | ].
    rewrite Hin. reflexivity. }
  pose proof (handleRecordingStop_ui env fuel w) as Hui. cbv zeta in Hui.
  split; [ | split; [ | split; [ | split; [reflexivity | ]]]].
  - intro Hp.
    destruct Hui as [(Ha & _) | [(e & He & _) | (an & Han & _)]];
      [rewrite Ha; reflexivity | congruence | congruence].
  - intros e He.
    destruct Hui as [(_ & Hp) | [(e' & _ & Ha) | (an & Han & _)]];
      [congruence | rewrite Ha; reflexivity | congruence].
  - intros an Han.
    destruct Hui as [(_ & Hp) | [(e' & He & _) | (an' & _ & Ha)]];
      [congruence | congruence | ].
    destruct Ha as [Ha | [(e & Ha) | (x & y & Ha)]]; rewrite Ha; auto.
  - intro u. apply video_then_state.
Qed.

(** X12: whatever the component state holds, [<main>] shows at most
    one of its four blocks, and it shows none exactly in [SHOWCASE]
    without assets or without a personality.  In [ERROR] the block is
    the failure panel with the error message of the state; in
    [SHOWCASE] with assets and a personality it is the card, with
    these.  The handlers are bound by the phase alone: an element that
    calls [reset] is rendered in [SHOWCASE] and in [ERROR] only, the
    round button calls [startRecording] exactly in [IDLE] and
    [stopRecording] exactly in [RECORDING], and no other phase renders
    anything that can be clicked. *)
Theorem X12_at_most_one_panel (a : App) :
  length (filter is_panel (main a)) <= 1
  /\ (filter is_panel (main a) = []
      <-> state a = SHOWCASE /\ (assets a = None \/ personality a = None))
  /\ (state a = ERROR -> main a = [SystemFailure (error a) on_reset])
  /\ (forall x p, state a = SHOWCASE -> assets a = Some x ->
      personality a = Some p -> main a = [VibeCardElement x p])
  /\ (forall e, In e (render a) ->
      (onClick_of e = Some on_reset ->
       state a = SHOWCASE \/ state a = ERROR)
      /\ (onClick_of e = Some on_startRecording -> state a = IDLE)
      /\ (onClick_of e = Some on_stopRecording -> state a = RECORDING))
  /\ (state a = IDLE -> In (RoundButton on_startRecording false) (render a))
  /\ (state a = RECORDING -> In (RoundButton on_stopRecording true) (render a))
  /\ (state a = SHOWCASE -> In (ResetExperience on_reset) (render a)).
Proof.
  unfold render, header, main, in_state.
  destruct (state a) eqn:Hst; cbn [orb app filter is_panel length].
  - (* IDLE *)
    split; [simpl; lia | ].
    split; [split; [discriminate | intros (H & _); discriminate] | ].
    split; [discriminate | ].
    split; [discriminate | ].
    split; [ | split; [left; reflexivity | split; discriminate]].
    intros e [He | [He | []]]; subst e; simpl;
      repeat split; try discriminate; auto.
  - (* RECORDING *)
    split; [destruct (stream a); simpl; lia | ].
    split; [split; [destruct (stream a); discriminate
                   | intros (H & _); discriminate] | ].
    split; [discriminate | ].
    split; [discriminate | ].
    split; [ | split; [discriminate | split; [left; reflexivity | discriminate]]].
    intros e [He | [He | []]]; subst e; simpl;
      repeat split; try discriminate; auto;
      destruct (stream a); discriminate.
  - (* ANALYZING *)
    split; [simpl; lia | ].
    split; [split; [discriminate | intros (H & _); discriminate] | ].
    split; [discriminate | ].
    split; [discriminate | ].
    split; [ | split; [discriminate | split; discriminate]].
    intros e [He | []]; subst e; simpl; repeat split; discriminate.
  - (* GENERATING_ASSETS *)
    split; [simpl; lia | ].
    split; [split; [discriminate | intros (H & _); discriminate] | ].
    split; [discriminate | ].
    split; [discriminate | ].
    split; [ | split; [discriminate | split; discriminate]].
    intros e [He | []]; subst e; simpl; repeat split; discriminate.
  - (* SHOWCASE *)
    split; [destruct (assets a), (personality a); simpl; lia | ].
    split.
    { split.
      - intro H. split; [reflexivity | ].
        destruct (assets a); [ | left; reflexivity].
        destruct (personality a); [discriminate | right; reflexivity].
      - intros (_ & [H | H]); rewrite H; [reflexivity | ].
        destruct (assets a); reflexivity. }
    split; [discriminate | ].
    split; [intros x p _ Hx Hp; rewrite Hx, Hp; reflexivity | ].
    split; [ | split; [discriminate | split; [discriminate | left; reflexivity]]].
    intros e [He | He].
    + subst e. simpl. repeat split; try discriminate; auto.
    + destruct (assets a), (personality a); simpl in He;
        try contradiction.
      destruct He as [He | []]. subst e. simpl.
      repeat split; discriminate.
  - (* ERROR *)
    split; [simpl; lia | ].
    split; [split; [discriminate | intros (H & _); discriminate] | ].
    split; [reflexivity | ].
    split; [discriminate | ].
    split; [ | split; [discriminate | split; discriminate]].
    intros e [He | []]; subst e; simpl; repeat split; try discriminate; auto.
Qed.

(** X13: while the app records, the visualizer is on the page, and it
    listens to the very stream the recorder records from; in every
    other phase there is no visualizer, whatever the state holds. *)
Theorem X13_visualizer_on_the_recorded_stream evs w :
  run evs initial_World = Some w ->
  (state (ui w) = RECORDING ->
   exists s,
     mediaRecorder (ui w)
     = Some {| recorder_stream := s; recorder_state := recording |}
     /\ main (ui w) = [RoundButton on_stopRecording true;
                       VisualizerCanvas s true "#ef4444"])
  /\ (state (ui w) <> RECORDING ->
      forall s b c, ~ In (VisualizerCanvas s b c) (render (ui w))).
Proof.
  intro Hrun.
  destruct (reachable_page_invariant evs w Hrun) as (Prec & _).
  split.
  - intro Hst. destruct (Prec Hst) as (s & Hs & Hr).
    exists s. split; [exact Hr | ].
    unfold main, in_state. rewrite Hst, Hs. reflexivity.
  - intros Hn s b c. unfold render, header, main, in_state.
    destruct (state (ui w)); try (contradiction Hn; reflexivity); simpl;
      repeat match goal with
             | |- context [match ?x with _ => _ end] => destruct x; simpl
             end;
      intuition discriminate.
Qed.

(** X13 on a run: after a start. *)
Lemma X13_visualizer_on_the_recorded_stream_witness :
  main (ui (snd (startRecording happy initial_World)))
  = [RoundButton on_stopRecording true; VisualizerCanvas one_track true "#ef4444"].
Proof.
  destruct (X13_visualizer_on_the_recorded_stream [click_mic happy]
              (snd (startRecording happy initial_World)) eq_refl) as (H & _).
  destruct (H eq_refl) as (s & Hr & Hm).
  injection Hr as Hr. subst s. exact Hm.
Defined.

(* ===================================================================== *)
(** ** The requests of the pipeline *)
(* ===================================================================== *)

Lemma extends_refl w : extends w w.
Proof. exists []. rewrite app_nil_r. reflexivity. Qed.

Lemma extends_trans w1 w2 w3 : extends w1 w2 -> extends w2 w3 -> extends w1 w3.
Proof.
  intros (l & Hl) (l' & Hl'). exists (l ++ l').
  rewrite Hl', Hl, app_assoc. reflexivity.
Qed.

Lemma extends_call c w : extends w (with_call c w).
Proof. exists [c]. reflexivity. Qed.

(** The requests of the fan-out: image and speech requests only. *)
Lemma art_and_speech_calls env a w :
  exists l, calls (snd (art_and_speech env a w)) = calls w ++ l
            /\ submissions l = 0 /\ prompts l = 0
            /\ forall c, In c l -> is_content_call c = true.
Proof.
  rewrite art_and_speech_unfold.
  assert (Hart : exists l1,
            calls (snd (generateArt env (art_prompt (art a)) w)) = calls w ++ l1
            /\ submissions l1 = 0 /\ prompts l1 = 0
            /\ forall c, In c l1 -> is_content_call c = true).
  { rewrite generateArt_unfold. cbv zeta.
    set (hq := generateContent (high_quality_request (art_prompt (art a)))).
    set (fl := generateContent (flash_image_request (art_prompt (art a)))).
    assert (H1 : exists l1, calls (with_call hq w) = calls w ++ l1
                            /\ submissions l1 = 0 /\ prompts l1 = 0
                            /\ forall c, In c l1 -> is_content_call c = true).
    { exists [hq]. repeat split. intros c [Hc | []]. subst c. reflexivity. }
    assert (H2 : exists l1, calls (with_call fl (with_call hq w)) = calls w ++ l1
                            /\ submissions l1 = 0 /\ prompts l1 = 0
                            /\ forall c, In c l1 -> is_content_call c = true).
    { exists [hq; fl]. split; [simpl; rewrite <- app_assoc; reflexivity | ].
      repeat split. intros c [Hc | [Hc | []]]; subst c; reflexivity. }
    destruct (on_generateContent env (calls w) _) as [resp | e | ];
      [destruct (image_part resp) | | ]; cbn [snd]; try exact H1;
      destruct (on_generateContent env _ _) as [resp2 | e2 | ];
      try destruct (image_part resp2); exact H2. }
  destruct Hart as (l1 & Hl1 & Hs1 & Hp1 & Hc1).
  destruct (generateArt env (art_prompt (art a)) w) as [oa w1]. cbn [snd] in Hl1.
  pose proof (generateSpeech_unfold env (narrative (story a))
                (voice_name (tts a)) w1) as Hsp.
  cbv zeta in Hsp.
  set (req := generateContent
                (SpeechSynthesis "gemini-2.5-flash-preview-tts"
                   (narrative (story a))
                   (if truthy (voice_name (tts a)) then voice_name (tts a)
                    else "Puck"))) in *.
  assert (Hw2 : snd (generateSpeech env (narrative (story a))
                       (voice_name (tts a)) w1) = with_call req w1).
  { rewrite Hsp.
    destruct (on_generateContent env (calls w1) _) as [resp | e | ];
      try reflexivity.
    destruct (first_part_data resp) as [d | ]; try reflexivity.
    destruct (truthy d); reflexivity. }
  destruct (generateSpeech env (narrative (story a)) (voice_name (tts a)) w1)
    as [os w2]. cbn [snd] in *. subst w2.
  exists (l1 ++ [req]).
  split; [simpl; rewrite Hl1, <- app_assoc; reflexivity | ].
  rewrite submissions_app, prompts_app, Hs1, Hp1.
  repeat split.
  intros c Hin. apply in_app_or in Hin. destruct Hin as [Hin | [Hin | []]];
    [apply Hc1; exact Hin | subst c; reflexivity].
Qed.

(** The requests of the analysis step: the blob of the chunks first. *)
Lemma analysis_step_calls env w :
  let blob := recorded_blob (chunksRef (ui w)) in
  exists l,
    calls (snd (analysis_step env w)) = calls w ++ blobToBase64 blob :: l
    /\ (forall c, In c l -> is_generation c = false)
    /\ submissions l = 0
    /\ (forall data, on_blobToBase64 env (calls w) blob = Resolved data ->
        l = [generateContent (AudioAnalysis "gemini-2.5-flash" "audio/wav" data)]).
Proof.
  intro blob.
  unfold analysis_step, bind, read, update. cbn [fst snd].
  fold (recorded_blob (chunksRef (ui w))). fold blob.
  rewrite analyzeAudioPersonality_unfold. cbv zeta.
  change (calls (with_ui (setStatusMessage "Extracting personality vector...") w))
    with (calls w).
  destruct (on_blobToBase64 env (calls w) blob) as [data | e | ].
  - exists [generateContent (AudioAnalysis "gemini-2.5-flash" "audio/wav" data)].
    split.
    + destruct (on_generateContent env _ _) as [resp | e | ];
        [destruct (text resp) as [t | ];
         [destruct (truthy t); [destruct (JSON_parse env t) | ] | ] | | ];
        cbn; rewrite <- app_assoc; reflexivity.
    + split; [intros c [Hc | []]; subst c; reflexivity | ].
      split; [reflexivity | ].
      intros d Hd. injection Hd as Hd. subst d. reflexivity.
  - exists []. cbn. split; [reflexivity | ].
    split; [intros c [] | split; [reflexivity | discriminate]].
  - exists []. cbn. split; [reflexivity | ].
    split; [intros c [] | split; [reflexivity | discriminate]].
Qed.

(** The handler only adds to the log of its analysis step. *)
Lemma handleRecordingStop_after_analysis env fuel w :
  extends (snd (analysis_step env w)) (snd (handleRecordingStop env fuel w))
  /\ ((forall a, fst (analysis_step env w) <> Resolved a) ->
      calls (snd (handleRecordingStop env fuel w))
      = calls (snd (analysis_step env w))).
Proof.
  rewrite handleRecordingStop_unfold.
  destruct (analysis_step env w) as [[a | e | ] wa]; cbn [fst snd].
  - split; [ | intro H; contradiction (H a); reflexivity].
    destruct (art_and_speech_calls env a (snd (publish_analysis a wa)))
      as (l & Hl & _).
    change (calls (snd (publish_analysis a wa))) with (calls wa) in Hl.
    destruct (art_and_speech env a (snd (publish_analysis a wa)))
      as [[[x y] | e | ] ws]; cbn [snd] in *.
    + rewrite showcase_unfold. cbn [snd].
      match goal with
      | |- context [generateVideo env fuel ?p ?z] =>
          pose proof (keeps_generateVideo extends extends_refl extends_trans
                        extends_call env fuel p z) as Hv;
          destruct (generateVideo env fuel p z) as [o wv]
      end.
      cbn [snd] in *. destruct Hv as (l' & Hl').
      exists (l ++ l'). cbn in *. rewrite Hl', Hl, app_assoc. reflexivity.
    + exists l. exact Hl.
    + exists l. exact Hl.
  - split; [exists []; cbn; rewrite app_nil_r; reflexivity | reflexivity].
  - split; [apply extends_refl | reflexivity].
Qed.

(** What the recorder hands over ends in [chunksRef], without the empty
    chunks. *)
Lemma chunks_delivered_run chunks :
  forall w, recorder_delivers w = true ->
  exists w',
    run (chunks_delivered chunks) w = Some w'
    /\ chunksRef (ui w') = chunksRef (ui w) ++ filter truthy chunks
    /\ state (ui w') = state (ui w)
    /\ stream (ui w') = stream (ui w)
    /\ mediaRecorder (ui w') = mediaRecorder (ui w)
    /\ onstop_queued w' = onstop_queued w
    /\ recorder_delivers w' = true.
Proof.
  induction chunks as [ | c chunks IH]; intros w Hd; simpl.
  - exists w. rewrite app_nil_r. auto 10.
  - rewrite Hd.
    destruct (truthy c) eqn:Hc.
    + destruct (IH (with_ui (fun a => set_chunksRef (chunksRef a ++ [c]) a) w))
        as (w' & Hrun & Hch & Hst & Hs & Hm & Hq & Hd').
      { unfold recorder_delivers in *. exact Hd. }
      exists w'. split; [exact Hrun | ].
      rewrite Hch, Hst, Hs, Hm, Hq. cbn. rewrite <- app_assoc. auto 10.
    + destruct (IH w Hd) as (w' & Hrun & Hch & Hst & Hs & Hm & Hq & Hd').
      exists w'. auto 10.
Qed.

(** X15: what is sent for analysis is what was recorded: after a start
    that went through, the blob that [handleRecordingStop] converts
    first consists of the non-empty chunks the recorder handed over
    since that start -- before the stop click and between the click
    and the [stop] event -- in their order, the empty ones dropped.
    The blob is typed [audio/webm]; its conversion is sent to the
    analysis model declared as [audio/wav]. *)
Theorem X15_analysis_gets_the_recorded_chunks
    env env' env'' fuel w before after :
  state (ui w) = IDLE ->
  fst (start_attempt env w) = Resolved tt ->
  let blob := recorded_blob (filter truthy (before ++ after)) in
  exists w1 w' rest,
    run (click_mic env :: chunks_delivered before
         ++ click_mic env' :: chunks_delivered after) w = Some w1
    /\ step (recorder_onstop env'' fuel) w1 = Some w'
    /\ new_calls w1 w' = blobToBase64 blob :: rest
    /\ forall data,
         on_blobToBase64 env'' (calls w1) blob = Resolved data ->
         exists rest',
           rest = generateContent
                    (AudioAnalysis "gemini-2.5-flash" "audio/wav" data) :: rest'.
Proof.
  intros Hidle Hok blob.
  destruct (startRecording_success env w Hok) as (s & _ & _ & Hui & _).
  pose proof (startRecording_beyond env w) as Hb.
  unfold beyond_recording in Hb. injection Hb as _ _ _ _ Hq0 _.
  set (ws := snd (startRecording env w)) in *.
  assert (Hd : recorder_delivers ws = true).
  { unfold recorder_delivers. rewrite Hui. reflexivity. }
  destruct (chunks_delivered_run before ws Hd)
    as (wb & Hrunb & Hchb & Hstb & Hsb & Hmb & Hqb & _).
  rewrite Hui in Hchb, Hstb, Hsb, Hmb. cbn in Hchb, Hstb, Hsb, Hmb.
  set (wk := snd (stopRecording wb)).
  pose proof (stopRecording_recording wb _ Hmb eq_refl) as Hstop.
  fold wk in Hstop. cbv zeta in Hstop.
  assert (Hdk : recorder_delivers wk = true).
  { unfold recorder_delivers. rewrite Hstop. reflexivity. }
  destruct (chunks_delivered_run after wk Hdk)
    as (wa & Hruna & Hcha & _ & _ & _ & Hqa & _).
  assert (Hchk : chunksRef (ui wk) = filter truthy before).
  { rewrite Hstop. cbn. exact Hchb. }
  assert (Hqk : onstop_queued wk = true) by (rewrite Hstop; reflexivity).
  rewrite Hchk, <- filter_app in Hcha. rewrite Hqk in Hqa.
  exists wa, (snd (handleRecordingStop env'' fuel (with_onstop false wa))).
  assert (Hrun : run (click_mic env :: chunks_delivered before
                      ++ click_mic env' :: chunks_delivered after) w = Some wa).
  { cbn [run step]. rewrite Hidle. fold ws.
    assert (Happ : forall evs1 evs2 x y,
              run evs1 x = Some y -> run (evs1 ++ evs2) x = run evs2 y).
    { induction evs1 as [ | ev evs1 IH1]; intros evs2 x y H; simpl in *.
      - injection H as H. subst. reflexivity.
      - destruct (step ev x) as [x' | ]; [ | discriminate].
        apply IH1. exact H. }
    rewrite (Happ _ _ _ _ Hrunb). cbn [run step]. rewrite Hstb.
    fold wk. exact Hruna. }
  destruct (analysis_step_calls env'' (with_onstop false wa))
    as (l & Hl & _ & _ & Hdata).
  cbv zeta in Hl, Hdata. cbn [with_onstop ui calls] in Hl, Hdata.
  rewrite Hcha in Hl, Hdata. fold blob in Hl, Hdata.
  destruct (handleRecordingStop_after_analysis env'' fuel (with_onstop false wa))
    as ((l' & Hl') & _).
  exists (l ++ l').
  split; [exact Hrun | ].
  split; [simpl; rewrite Hqa; reflexivity | ].
  split.
  - apply new_calls_app. rewrite Hl', Hl, <- app_assoc. reflexivity.
  - intros data Hres. rewrite (Hdata data Hres). eexists. reflexivity.
Qed.

(** X15 on a run: three chunks, the second one empty, and a last one
    after the stop click. *)
Lemma X15_analysis_gets_the_recorded_chunks_witness :
  exists w1 w' rest,
    run (click_mic happy :: chunks_delivered ["a"; ""; "b"]
         ++ click_mic happy :: chunks_delivered ["c"]) initial_World = Some w1
    /\ step (recorder_onstop happy 3) w1 = Some w'
    /\ new_calls w1 w'
       = blobToBase64 (recorded_blob ["a"; "b"; "c"])
         :: generateContent
              (AudioAnalysis "gemini-2.5-flash" "audio/wav" "GkXfo59ChoEB")
         :: rest.
Proof.
  destruct (X15_analysis_gets_the_recorded_chunks happy happy happy 3
              initial_World ["a"; ""; "b"] ["c"] eq_refl eq_refl)
    as (w1 & w' & rest & Hrun & Hstep & Hlog & Hdata).
  destruct (Hdata "GkXfo59ChoEB" eq_refl) as (rest' & Hrest).
  exists w1, w', rest'. rewrite Hrest in Hlog. auto.
Defined.

(** X16: nothing is generated before the analysis is there, and the
    video only for a showcase.  When the analysis does not resolve,
    [handleRecordingStop] makes no image, speech or video request; when
    it throws, the phase becomes [ERROR] with the message of the error
    (or the default text), while personality, assets and pending video
    tasks stay as they were.  And whenever the handler submits a video
    job, it has published the complete assets and ends in [SHOWCASE]. *)
Theorem X16_generation_only_after_analysis env fuel w :
  let w' := snd (handleRecordingStop env fuel w) in
  let log := new_calls w w' in
  ((forall a, fst (analysis_step env w) <> Resolved a) ->
   forall c, In c log -> is_generation c = false)
  /\ (forall e, fst (analysis_step env w) = Rejected e ->
      state (ui w') = ERROR
      /\ error (ui w') = Some (or_default (message e) generation_error)
      /\ personality (ui w') = personality (ui w)
      /\ assets (ui w') = assets (ui w)
      /\ inflight w' = inflight w)
  /\ (1 <= submissions log ->
      state (ui w') = SHOWCASE
      /\ exists an x y, assets (ui w') = Some (initialAssets an x y)).
Proof.
  intros w' log. subst log w'.
  destruct (analysis_step_calls env w) as (l & Hl & Hgen & Hsub & _).
  cbv zeta in Hl.
  split; [ | split].
  - intros Hno c Hin.
    destruct (handleRecordingStop_after_analysis env fuel w) as (_ & Hsame).
    rewrite (new_calls_app w _ _ (eq_trans (Hsame Hno) Hl)) in Hin.
    destruct Hin as [Hc | Hin]; [subst c; reflexivity | apply Hgen; exact Hin].
  - intros e He. rewrite handleRecordingStop_unfold.
    pose proof (analysis_step_page env w) as Hp.
    destruct (analysis_step env w) as [[a | e' | ] wa]; cbn [fst snd] in *;
      try discriminate.
    injection He as He. subst e'.
    apply page_fields in Hp. destruct Hp as (Hu & Hi & _). cbn in Hu, Hi.
    cbn. rewrite Hu, Hi. cbn. auto.
  - rewrite handleRecordingStop_unfold.
    destruct (analysis_step env w) as [[a | e | ] wa] eqn:Han; cbn [fst snd] in *.
    + destruct (art_and_speech_calls env a (snd (publish_analysis a wa)))
        as (l2 & Hl2 & Hs2 & _).
      change (calls (snd (publish_analysis a wa))) with (calls wa) in Hl2.
      destruct (art_and_speech env a (snd (publish_analysis a wa)))
        as [[[x y] | e | ] ws] eqn:Hfan; cbn [snd] in *.
      * intros _. destruct (showcase_ui env fuel a x y ws) as (Hui & _).
        rewrite Hui. cbn. split; [reflexivity | ]. exists a, x, y. reflexivity.
      * rewrite (new_calls_app w _ (blobToBase64 (recorded_blob (chunksRef (ui w)))
                                      :: l ++ l2));
          [ | cbn; rewrite Hl2, Hl, <- app_assoc; reflexivity].
        change (blobToBase64 (recorded_blob (chunksRef (ui w))) :: l ++ l2)
          with ([blobToBase64 (recorded_blob (chunksRef (ui w)))] ++ l ++ l2).
        rewrite !submissions_app, Hsub, Hs2. unfold submissions. simpl. lia.
      * rewrite (new_calls_app w _ (blobToBase64 (recorded_blob (chunksRef (ui w)))
                                      :: l ++ l2));
          [ | rewrite Hl2, Hl, <- app_assoc; reflexivity].
        change (blobToBase64 (recorded_blob (chunksRef (ui w))) :: l ++ l2)
          with ([blobToBase64 (recorded_blob (chunksRef (ui w)))] ++ l ++ l2).
        rewrite !submissions_app, Hsub, Hs2. unfold submissions. simpl. lia.
    + rewrite (new_calls_app w (snd (generation_failed e wa)) _ Hl).
      change (blobToBase64 (recorded_blob (chunksRef (ui w))) :: l)
        with ([blobToBase64 (recorded_blob (chunksRef (ui w)))] ++ l).
      rewrite submissions_app, Hsub. unfold submissions. simpl. lia.
    + rewrite (new_calls_app w _ _ Hl).
      change (blobToBase64 (recorded_blob (chunksRef (ui w))) :: l)
        with ([blobToBase64 (recorded_blob (chunksRef (ui w)))] ++ l).
      rewrite submissions_app, Hsub. unfold submissions. simpl. lia.
Qed.

(** X16 on a run: the analysis model throws an error without message. *)
Lemma X16_generation_only_after_analysis_witness :
  exists w,
    run (record_and_stop analysis_fails) initial_World = Some w
    /\ state (ui (snd (handleRecordingStop analysis_fails 3 w))) = ERROR
    /\ error (ui (snd (handleRecordingStop analysis_fails 3 w)))
       = Some generation_error
    /\ inflight (snd (handleRecordingStop analysis_fails 3 w)) = [].
Proof.
  eexists. split; [vm_compute; reflexivity | ].
  match goal with
  | |- state (ui (snd (handleRecordingStop _ _ ?x))) = _ /\ _ =>
      destruct (X16_generation_only_after_analysis analysis_fails 3 x)
        as (_ & H & _)
  end.
  destruct (H (new_Error "") eq_refl) as (H1 & H2 & _ & _ & H5).
  split; [exact H1 | split; [exact H2 | exact H5]].
Defined.

(* ===================================================================== *)
(** ** The card *)
(* ===================================================================== *)

Lemma audio_effect_cells c :
  VibeCard.videoError (VibeCard.cells (VibeCard.audio_effect c))
  = VibeCard.videoError (VibeCard.cells c)
  /\ VibeCard.showVideo (VibeCard.cells (VibeCard.audio_effect c))
     = VibeCard.showVideo (VibeCard.cells c).
Proof.
  unfold VibeCard.audio_effect.
  destruct (audioBase64 (VibeCard.props_assets c)) as [d | ]; [ | auto].
  destruct (truthy d); auto.
Qed.

Lemma rerender_cells x c :
  VibeCard.videoError (VibeCard.cells (VibeCard.rerender x c))
  = VibeCard.videoError (VibeCard.cells c)
  /\ VibeCard.showVideo (VibeCard.cells (VibeCard.rerender x c))
     = VibeCard.showVideo (VibeCard.cells c).
Proof.
  unfold VibeCard.rerender.
  destruct (VibeCard.same_audio _ _); [auto | ].
  apply (audio_effect_cells (VibeCard.with_assets x c)).
Qed.

(** The events that leave the video cells alone. *)
Lemma card_step_other_cells ev c c' :
  match ev with
  | VibeCard.click_play | VibeCard.audio_ended
  | VibeCard.autoplay_settled _ | VibeCard.props_changed _ => True
  | _ => False
  end ->
  VibeCard.card_step ev c = Some c' ->
  VibeCard.videoError (VibeCard.cells c') = VibeCard.videoError (VibeCard.cells c)
  /\ VibeCard.showVideo (VibeCard.cells c') = VibeCard.showVideo (VibeCard.cells c).
Proof.
  intros Hev Hstep.
  destruct ev as [ | | | | allowed | x]; simpl in Hstep; try contradiction.
  - injection Hstep as H. subst c'. auto.
  - injection Hstep as H. subst c'. auto.
  - destruct (VibeCard.autoplay_pending c); [discriminate | ].
    injection Hstep as H. subst c'. destruct allowed; auto.
  - injection Hstep as H. subst c'. apply rerender_cells.
Qed.

(** Without [showVideo] there is no video element to fail. *)
Lemma no_video_without_showVideo c :
  VibeCard.showVideo (VibeCard.cells c) = false ->
  VibeCard.visual c = VibeCard.image_of (VibeCard.props_assets c)
  /\ VibeCard.card_step VibeCard.video_failed c = None.
Proof.
  intro Hs.
  assert (Hv : VibeCard.visual c = VibeCard.image_of (VibeCard.props_assets c)).
  { unfold VibeCard.visual. rewrite Hs.
    destruct (videoUri (VibeCard.props_assets c)); reflexivity. }
  split; [exact Hv | ].
  simpl. rewrite Hv. unfold VibeCard.image_of.
  destruct (artBase64 (VibeCard.props_assets c)) as [d | ];
    try destruct (truthy d); reflexivity.
Qed.

Lemma card_step_after_error ev c c' :
  VibeCard.videoError (VibeCard.cells c) = true ->
  VibeCard.showVideo (VibeCard.cells c) = false ->
  VibeCard.card_step ev c = Some c' ->
  VibeCard.videoError (VibeCard.cells c') = true
  /\ VibeCard.showVideo (VibeCard.cells c') = false.
Proof.
  intros He Hs Hstep.
  destruct ev as [ | | | | allowed | x].
  1: { simpl in Hstep. unfold VibeCard.motion_button in Hstep. rewrite He in Hstep.
       rewrite andb_false_r in Hstep. discriminate. }
  1: { destruct (no_video_without_showVideo c Hs) as (_ & Hn). congruence. }
  all: match type of Hstep with
       | VibeCard.card_step ?e _ = _ =>
           destruct (card_step_other_cells e c c' I Hstep) as (H1 & H2);
           rewrite H1, H2; auto
       end.
Qed.

(** X17: a video error is final.  Once the video element has reported
    an error, whatever happens to the card afterwards -- clicks, the end
    of the speech, new assets from [App] -- the card never renders the
    video again and never offers the toggle button: the visual side is
    the art image (or nothing, without art). *)
Theorem X17_video_error_is_final c c1 evs c2 :
  VibeCard.card_step VibeCard.video_failed c = Some c1 ->
  VibeCard.card_run evs c1 = Some c2 ->
  VibeCard.videoError (VibeCard.cells c2) = true
  /\ VibeCard.showVideo (VibeCard.cells c2) = false
  /\ VibeCard.motion_button c2 = None
  /\ VibeCard.visual c2 = VibeCard.image_of (VibeCard.props_assets c2)
  /\ forall src, VibeCard.visual c2 <> VibeCard.VideoElement src.
Proof.
  intros Hfail Hrun.
  assert (H1 : VibeCard.videoError (VibeCard.cells c1) = true
               /\ VibeCard.showVideo (VibeCard.cells c1) = false).
  { simpl in Hfail. destruct (VibeCard.visual c); try discriminate.
    injection Hfail as H. subst c1. auto. }
  assert (H2 : VibeCard.videoError (VibeCard.cells c2) = true
               /\ VibeCard.showVideo (VibeCard.cells c2) = false).
  { clear Hfail. revert c1 H1 Hrun.
    induction evs as [ | ev evs IH]; intros c1 (He & Hs) Hrun; simpl in Hrun.
    - injection Hrun as H. subst. auto.
    - destruct (VibeCard.card_step ev c1) as [c' | ] eqn:Hstep; [ | discriminate].
      apply (IH c'); [ | exact Hrun].
      eapply card_step_after_error; eassumption. }
  destruct H2 as (He & Hs).
  destruct (no_video_without_showVideo c2 Hs) as (Hv & _).
  split; [exact He | split; [exact Hs | split; [ | split; [exact Hv | ]]]].
  - unfold VibeCard.motion_button. rewrite He, andb_false_r. reflexivity.
  - intro src. rewrite Hv. unfold VibeCard.image_of.
    destruct (artBase64 (VibeCard.props_assets c2)) as [d | ];
      try destruct (truthy d); discriminate.
Qed.

(** X17 at a card whose video is shown: after the error the button is
    gone, whatever the user clicks. *)
Lemma X17_video_error_is_final_witness :
  VibeCard.motion_button
    (VibeCard.togglePlay
       (VibeCard.video_onError
          (VibeCard.with_cells (VibeCard.setShowVideo true) calm_card)))
  = None.
Proof.
  edestruct (X17_video_error_is_final
               (VibeCard.with_cells (VibeCard.setShowVideo true) calm_card)
               (VibeCard.video_onError
                  (VibeCard.with_cells (VibeCard.setShowVideo true) calm_card))
               [VibeCard.click_play])
    as (_ & _ & Hb & _); [reflexivity | reflexivity | exact Hb].
Defined.

Lemma card_step_unasked ev c c' :
  VibeCard.is_click_motion ev = false ->
  VibeCard.videoError (VibeCard.cells c) = false ->
  VibeCard.showVideo (VibeCard.cells c) = false ->
  VibeCard.card_step ev c = Some c' ->
  VibeCard.videoError (VibeCard.cells c') = false
  /\ VibeCard.showVideo (VibeCard.cells c') = false.
Proof.
  intros Hev He Hs Hstep.
  destruct ev as [ | | | | allowed | x]; try discriminate.
  1: { destruct (no_video_without_showVideo c Hs) as (_ & Hn). congruence. }
  all: match type of Hstep with
       | VibeCard.card_step ?e _ = _ =>
           destruct (card_step_other_cells e c c' I Hstep) as (H1 & H2);
           rewrite H1, H2; auto
       end.
Qed.

(** X18: the card shows the art until the user asks for the video.
    From the mount on, as long as the toggle button has not been
    clicked, the visual side is the art image -- also when [App] hands
    over assets with a video reference; the arrival of the reference
    only brings the button, labelled "Show Motion", and a click on it
    brings the video of that reference.  No video error can occur
    meanwhile. *)
Theorem X18_art_until_motion_is_asked x p evs c :
  VibeCard.card_run evs (VibeCard.mount x p) = Some c ->
  forallb (fun ev => negb (VibeCard.is_click_motion ev)) evs = true ->
  VibeCard.visual c = VibeCard.image_of (VibeCard.props_assets c)
  /\ VibeCard.videoError (VibeCard.cells c) = false
  /\ VibeCard.motion_button c
     = (if VibeCard.present (videoUri (VibeCard.props_assets c))
        then Some "Show Motion" else None)
  /\ forall c', VibeCard.card_step VibeCard.click_motion c = Some c' ->
       exists u, videoUri (VibeCard.props_assets c) = Some u
                 /\ VibeCard.visual c' = VibeCard.VideoElement u.
Proof.
  intros Hrun Hev.
  assert (H0 : VibeCard.videoError (VibeCard.cells (VibeCard.mount x p)) = false
               /\ VibeCard.showVideo (VibeCard.cells (VibeCard.mount x p)) = false).
  { unfold VibeCard.mount.
    match goal with
    | |- context [VibeCard.audio_effect ?c] =>
        destruct (audio_effect_cells c) as (H1 & H2); rewrite H1, H2
    end.
    auto. }
  assert (H : VibeCard.videoError (VibeCard.cells c) = false
              /\ VibeCard.showVideo (VibeCard.cells c) = false).
  { revert Hrun Hev H0. generalize (VibeCard.mount x p).
    induction evs as [ | ev evs IH]; intros c0 Hrun Hev (He & Hs);
      simpl in Hrun, Hev.
    - injection Hrun as H. subst. auto.
    - apply andb_prop in Hev. destruct Hev as (Hev1 & Hev2).
      destruct (VibeCard.card_step ev c0) as [c' | ] eqn:Hstep; [ | discriminate].
      apply (IH c' Hrun Hev2).
      apply (card_step_unasked ev c0 c'); auto.
      destruct (VibeCard.is_click_motion ev); [discriminate | reflexivity]. }
  destruct H as (He & Hs).
  destruct (no_video_without_showVideo c Hs) as (Hv & _).
  split; [exact Hv | split; [exact He | split]].
  - unfold VibeCard.motion_button. rewrite He, Hs, andb_true_r. reflexivity.
  - intros c' Hstep. simpl in Hstep.
    unfold VibeCard.motion_button in Hstep. rewrite He, andb_true_r in Hstep.
    destruct (videoUri (VibeCard.props_assets c)) as [u | ] eqn:Hu;
      simpl in Hstep; [ | discriminate].
    destruct (truthy u) eqn:Ht; [ | discriminate].
    injection Hstep as H. subst c'. exists u. split; [reflexivity | ].
    unfold VibeCard.visual. cbn. rewrite Hu, Hs, He, Ht. reflexivity.
Qed.

(** X18 at a card that gets its video reference after the mount. *)
Lemma X18_art_until_motion_is_asked_witness :
  VibeCard.visual
    (VibeCard.rerender calm_assets
       (VibeCard.autoplay_settles true
          (VibeCard.mount (initialAssets calm "art" "speech")
                          (Types.personality calm))))
  = VibeCard.ImageElement "data:image/png;base64,art".
Proof.
  edestruct (X18_art_until_motion_is_asked
               (initialAssets calm "art" "speech") (Types.personality calm)
               [VibeCard.autoplay_settled true; VibeCard.props_changed calm_assets])
    as (Hv & _); [reflexivity | reflexivity | ].
  exact Hv.
Defined.

(** X19: the arrival of the video does not restart the speech.  When
    [App] patches the video reference into the assets it shows, the
    card is rendered again with the same speech, so the effect of the
    card does not run: the [<audio>] element gets no call, no new
    [play()] is waited for, the state cells stay, and the art stays. *)
Theorem X19_video_patch_keeps_the_speech u c :
  let c' := VibeCard.rerender (with_videoUri u (VibeCard.props_assets c)) c in
  VibeCard.audio_calls c' = VibeCard.audio_calls c
  /\ VibeCard.autoplay_pending c' = VibeCard.autoplay_pending c
  /\ VibeCard.cells c' = VibeCard.cells c
  /\ VibeCard.image_of (VibeCard.props_assets c')
     = VibeCard.image_of (VibeCard.props_assets c)
  /\ videoUri (VibeCard.props_assets c') = Some u.
Proof.
  intro c'. subst c'. unfold VibeCard.rerender.
  assert (Hsame : VibeCard.same_audio
                    (audioBase64 (VibeCard.props_assets c))
                    (audioBase64 (with_videoUri u (VibeCard.props_assets c)))
                  = true).
  { simpl. destruct (audioBase64 (VibeCard.props_assets c)) as [d | ]; simpl;
      [apply String.eqb_refl | reflexivity]. }
  rewrite Hsame. repeat split.
Qed.

(* ===================================================================== *)
(** ** The visualizer *)
(* ===================================================================== *)

Lemma vis_run_app b p evs1 evs2 v :
  Visualizer.vis_run b p (evs1 ++ evs2) v
  = match Visualizer.vis_run b p evs1 v with
    | Some v' => Visualizer.vis_run b p evs2 v'
    | None => None
    end.
Proof.
  revert v. induction evs1 as [ | ev evs1 IH]; intro v; simpl; [reflexivity | ].
  destruct (Visualizer.vis_step b p ev v); [apply IH | reflexivity].
Qed.

Lemma effect_started b s color handle :
  Visualizer.canvas_current b = true ->
  Visualizer.getContext_2d b = true ->
  Visualizer.effect b
    {| Visualizer.props_stream := Some s; Visualizer.props_isRecording := true;
       Visualizer.props_color := color |} handle
  = Visualizer.after_frame b
      {| Visualizer.props_stream := Some s; Visualizer.props_isRecording := true;
         Visualizer.props_color := color |} s handle 0.
Proof.
  intros Hc H2. unfold Visualizer.effect, Visualizer.after_frame. cbn.
  rewrite Hc, H2. cbn. unfold Visualizer.frame_calls.
  rewrite app_nil_r, Nat.add_1_r. reflexivity.
Qed.

Lemma frame_after_frame b s color handle k :
  Visualizer.vis_step b
    {| Visualizer.props_stream := Some s; Visualizer.props_isRecording := true;
       Visualizer.props_color := color |}
    Visualizer.animation_frame
    (Visualizer.after_frame b
       {| Visualizer.props_stream := Some s; Visualizer.props_isRecording := true;
          Visualizer.props_color := color |} s handle k)
  = Some (Visualizer.after_frame b
            {| Visualizer.props_stream := Some s; Visualizer.props_isRecording := true;
               Visualizer.props_color := color |} s handle (S k)).
Proof.
  unfold Visualizer.vis_step, Visualizer.after_frame, Visualizer.draw.
  cbn [Visualizer.pending Visualizer.props_isRecording Visualizer.log
       Visualizer.last_handle Visualizer.frames_drawn Visualizer.cleanup
       Visualizer.mounted Visualizer.requestRef].
  f_equal.
  rewrite (seq_S (S k) 0), map_app, concat_app. cbn [map concat].
  rewrite app_nil_r, <- app_assoc.
  replace (S (handle + S k)) with (handle + S (S k)) by lia.
  cbn [app Nat.add]. reflexivity.
Qed.

Lemma frames_after_frame b s color handle n k :
  Visualizer.vis_run b
    {| Visualizer.props_stream := Some s; Visualizer.props_isRecording := true;
       Visualizer.props_color := color |}
    (repeat Visualizer.animation_frame n)
    (Visualizer.after_frame b
       {| Visualizer.props_stream := Some s; Visualizer.props_isRecording := true;
          Visualizer.props_color := color |} s handle k)
  = Some (Visualizer.after_frame b
            {| Visualizer.props_stream := Some s; Visualizer.props_isRecording := true;
               Visualizer.props_color := color |} s handle (n + k)).
Proof.
  revert k. induction n as [ | n IH]; intro k; [reflexivity | ].
  cbn [repeat Visualizer.vis_run]. rewrite frame_after_frame, IH.
  replace (n + S k) with (S n + k) by lia. reflexivity.
Qed.

(** X20: the life of a visualizer.  Mounted on a stream while recording,
    with a canvas that gives a 2d context, the component sets up the
    audio graph once, then draws frame after frame: each frame first
    requests the next one, reads the frequency data, clears the canvas
    and draws one bar per frequency bin, in the colour of the props.
    When React removes the component after any number of frames, the
    one request still pending is cancelled and the audio context is
    closed; after that no frame callback is left, so nothing is drawn
    any more, and nothing else can happen. *)
Theorem X20_visualizer_life b s color handle n :
  Visualizer.canvas_current b = true ->
  Visualizer.getContext_2d b = true ->
  let p := {| Visualizer.props_stream := Some s;
              Visualizer.props_isRecording := true;
              Visualizer.props_color := color |} in
  exists v,
    Visualizer.vis_run b p
      (repeat Visualizer.animation_frame n ++ [Visualizer.unmount])
      (Visualizer.effect b p handle) = Some v
    /\ Visualizer.log v
       = Visualizer.setup s
         ++ concat (map (Visualizer.frame_calls b p handle) (seq 0 (S n)))
         ++ [Visualizer.cancelAnimationFrame (handle + S n); Visualizer.close]
    /\ Visualizer.pending v = []
    /\ (forall ev, Visualizer.vis_step b p ev v = None)
    /\ (forall k,
         length (Visualizer.bars b p k) = Visualizer.frequencyBinCount b
         /\ forall c, In c (Visualizer.bars b p k) ->
              exists bin, bin < Visualizer.frequencyBinCount b
                /\ c = Visualizer.fillRect bin color (Visualizer.frequency_data b k bin)).
Proof.
  intros Hc H2 p. subst p.
  rewrite effect_started by assumption.
  rewrite vis_run_app, frames_after_frame, Nat.add_0_r.
  eexists. split; [reflexivity | ].
  assert (Hne : Nat.eqb (handle + S n) 0 = false)
    by (apply Nat.eqb_neq; lia).
  cbn [Visualizer.vis_step Visualizer.after_frame Visualizer.mounted
       Visualizer.cleanup Visualizer.run_cleanup Visualizer.requestRef
       Visualizer.log Visualizer.pending].
  rewrite Hne.
  cbn [fst snd filter Visualizer.log Visualizer.pending Visualizer.mounted].
  rewrite Nat.eqb_refl. cbn [negb].
  split; [ | split; [reflexivity | split]].
  - rewrite <- !app_assoc. reflexivity.
  - intros [ | ]; reflexivity.
  - intro k. unfold Visualizer.bars. split.
    + rewrite length_map, length_seq. reflexivity.
    + intros c Hin. apply in_map_iff in Hin. destruct Hin as (bin & Hbin & Hin).
      apply in_seq in Hin. exists bin. split; [lia | ]. symmetry. exact Hbin.
Qed.

Lemma X20_visualizer_life_witness :
  exists v,
    Visualizer.vis_run Visualizer.two_bins (Visualizer.recording_props one_track)
      [Visualizer.animation_frame; Visualizer.unmount]
      (Visualizer.effect Visualizer.two_bins
         (Visualizer.recording_props one_track) 7) = Some v
    /\ Visualizer.pending v = [].
Proof.
  destruct (X20_visualizer_life Visualizer.two_bins one_track "#ef4444" 7 1
              eq_refl eq_refl) as (v & Hrun & _ & Hp & _).
  exists v. split; [exact Hrun | exact Hp].
Defined.

(** X21: a canvas without a 2d context leaves the audio context open.
    When [getContext] gives null, the effect has already created the
    audio context and connected the stream to the analyser, and it
    returns without a cleanup function: nothing is drawn, and neither
    the unmount nor anything else ever closes the context. *)
Theorem X21_no_2d_context_leaves_audio_open b s color handle evs v :
  Visualizer.canvas_current b = true ->
  Visualizer.getContext_2d b = false ->
  let p := {| Visualizer.props_stream := Some s;
              Visualizer.props_isRecording := true;
              Visualizer.props_color := color |} in
  Visualizer.vis_run b p evs (Visualizer.effect b p handle) = Some v ->
  Visualizer.log v = Visualizer.setup s
  /\ In Visualizer.new_AudioContext (Visualizer.log v)
  /\ ~ In Visualizer.close (Visualizer.log v)
  /\ Visualizer.frames_drawn v = 0.
Proof.
  intros Hc H2 p Hrun. subst p.
  assert (Hlog : Visualizer.log v = Visualizer.setup s
                 /\ Visualizer.frames_drawn v = 0).
  { unfold Visualizer.effect in Hrun. cbn in Hrun. rewrite Hc, H2 in Hrun.
    cbn in Hrun.
    destruct evs as [ | [ | ] evs]; cbn in Hrun.
    - injection Hrun as H. subst v. split; reflexivity.
    - discriminate.
    - destruct evs as [ | [ | ] evs]; cbn in Hrun; try discriminate.
      injection Hrun as H. subst v. split; reflexivity. }
  destruct Hlog as (Hlog & Hf).
  split; [exact Hlog | split; [ | split; [ | exact Hf]]].
  - rewrite Hlog. left. reflexivity.
  - rewrite Hlog. unfold Visualizer.setup. simpl.
    intros [H | [H | [H | [H | [H | [H | H]]]]]]; try discriminate; exact H.
Qed.

Lemma X21_no_2d_context_leaves_audio_open_witness :
  exists v,
    Visualizer.vis_run Visualizer.no_2d (Visualizer.recording_props one_track)
      [Visualizer.unmount]
      (Visualizer.effect Visualizer.no_2d
         (Visualizer.recording_props one_track) 7) = Some v
    /\ ~ In Visualizer.close (Visualizer.log v).
Proof.
  eexists. split; [reflexivity | ].
  edestruct (X21_no_2d_context_leaves_audio_open Visualizer.no_2d one_track
               "#ef4444" 7 [Visualizer.unmount])
    as (_ & _ & Hn & _); [reflexivity | reflexivity | reflexivity | exact Hn].
Defined.
